(** * Demo2APK: the orchestration layer, embedded and checked

    A shallow embedding of the parts of the repository that the
    specification makes promises about:

    - [packages/core/src/builders/html-builder.ts]
      ([generateAppId], [prepareHtmlForCordova]),
    - [packages/core/src/utils/offlineify.ts] ([needsOfflineify]),
    - [packages/core/src/builders/react-builder.ts]
      ([createProgressHeartbeat], the defaults of [buildReactToApk]),
    - [packages/backend/src/services/queue.ts] ([getJobStatus],
      [getJobPosition], [removeJob]),
    - [packages/backend/src/services/storage.ts] ([cleanupTask]),
    - [packages/backend/src/routes/status.ts] and [routes/build.ts],
    - the polling loop of the front-end store.

    JavaScript strings are sequences of UTF-16 code units; they are
    modelled as [list N].  Regular expressions of the source carry no
    [u] flag, so they work on code units, and so do the functions
    below. *)

From Stdlib Require Import NArith ZArith Ascii String.
From stdpp Require Import base option list strings gmap.

Local Open Scope N_scope.

(** ** JavaScript strings *)

Abbreviation jsstring := (list N).

(** An ASCII literal as a sequence of code units. *)
Definition js (s : string) : jsstring :=
  map N_of_ascii (list_ascii_of_string s).

Definition isLower (c : N) : bool := (97 <=? c) && (c <=? 122).
Definition isUpper (c : N) : bool := (65 <=? c) && (c <=? 90).
Definition isDigit (c : N) : bool := (48 <=? c) && (c <=? 57).
Definition isLowerAlnum (c : N) : bool := isLower c || isDigit c.
Definition isDot (c : N) : bool := c =? 46.

(** [s.startsWith(p)] *)
Fixpoint startsWith (p s : jsstring) : bool :=
  match p, s with
  | [], _ => true
  | _ :: _, [] => false
  | a :: p', b :: s' => (a =? b) && startsWith p' s'
  end.

(** [s.includes(p)] *)
Fixpoint includes (p s : jsstring) : bool :=
  startsWith p s ||
  match s with
  | [] => false
  | _ :: s' => includes p s'
  end.

(** [s.split(sep)] for a one-character separator: the empty string
    splits into one empty part. *)
Fixpoint splitOn (sep : N) (s : jsstring) : list jsstring :=
  match s with
  | [] => [[]]
  | c :: t =>
      if c =? sep then [] :: splitOn sep t
      else match splitOn sep t with
           | p :: ps => (c :: p) :: ps
           | [] => [[c]]
           end
  end.

(** [parts.join(sep)] *)
Fixpoint joinWith (sep : jsstring) (parts : list jsstring) : jsstring :=
  match parts with
  | [] => []
  | [p] => p
  | p :: ps => p ++ sep ++ joinWith sep ps
  end.

(** [s.replace(/[class]+/g, rep)]: every maximal run of characters of
    the class becomes one copy of [rep]. *)
Fixpoint replaceRunsFrom (cls : N -> bool) (rep : jsstring)
    (inRun : bool) (s : jsstring) : jsstring :=
  match s with
  | [] => []
  | c :: t =>
      if cls c then
        (if inRun then [] else rep) ++ replaceRunsFrom cls rep true t
      else c :: replaceRunsFrom cls rep false t
  end.

Definition replaceRuns (cls : N -> bool) (rep s : jsstring) : jsstring :=
  replaceRunsFrom cls rep false s.

Fixpoint dropWhile (cls : N -> bool) (s : jsstring) : jsstring :=
  match s with
  | [] => []
  | c :: t => if cls c then dropWhile cls t else s
  end.

(** [s.replace(/^[class]+|[class]+$/g, '')]: the run at the start and
    the run at the end are removed. *)
Definition stripRuns (cls : N -> bool) (s : jsstring) : jsstring :=
  rev (dropWhile cls (rev (dropWhile cls s))).

(** Decimal digits of a natural number, as in a template literal. *)
Fixpoint decimalFrom (fuel n : nat) (acc : jsstring) : jsstring :=
  match fuel with
  | O => acc
  | S fuel' =>
      let acc' := (48 + N.of_nat (n `mod` 10)) :: acc in
      if (n `div` 10 =? 0)%nat then acc' else decimalFrom fuel' (n `div` 10) acc'
  end.

Definition decimal (n : nat) : jsstring := decimalFrom (S n) n [].

(** ** UTF-16 and [String.prototype.toLowerCase] *)

Definition isLeadSurrogate (c : N) : bool := (0xD800 <=? c) && (c <=? 0xDBFF).
Definition isTrailSurrogate (c : N) : bool := (0xDC00 <=? c) && (c <=? 0xDFFF).

(** ECMAScript [StringToCodePoints]: a lead surrogate followed by a
    trail surrogate is one code point, every other code unit stands for
    itself. *)
Fixpoint StringToCodePoints (s : jsstring) : list N :=
  match s with
  | [] => []
  | hi :: rest =>
      match rest with
      | lo :: rest' =>
          if isLeadSurrogate hi && isTrailSurrogate lo
          then (0x10000 + (hi - 0xD800) * 0x400 + (lo - 0xDC00))
                 :: StringToCodePoints rest'
          else hi :: StringToCodePoints rest
      | [] => [hi]
      end
  end.

Definition codePointToUnits (cp : N) : jsstring :=
  if cp <? 0x10000 then [cp]
  else [0xD800 + (cp - 0x10000) / 0x400; 0xDC00 + (cp - 0x10000) `mod` 0x400].

Definition CodePointsToString (cps : list N) : jsstring :=
  concat (map codePointToUnits cps).

Section AppId.

(** The lower-case mapping of the Unicode character database for the
    code points outside ASCII is the JavaScript runtime's and is not
    part of the repository: it is a parameter.  It receives the code
    points before the current one (nearest first), the code point, and
    the code points after it, so that contextual rules (final sigma)
    are covered, and returns the replacement code points. *)
Variable unicodeLower : list N -> N -> list N -> list N.

Definition lowerCodePoint (before : list N) (cp : N) (after : list N) : list N :=
  if isUpper cp then [cp + 32]
  else if cp <? 128 then [cp]
  else unicodeLower before cp after.

Fixpoint lowerCodePoints (before : list N) (cps : list N) : list N :=
  match cps with
  | [] => []
  | cp :: after =>
      lowerCodePoint before cp after ++ lowerCodePoints (cp :: before) after
  end.

Definition toLowerCase (s : jsstring) : jsstring :=
  CodePointsToString (lowerCodePoints [] (StringToCodePoints s)).

(** [fixedParts]: [parts.map((part, idx) => ...)] of [generateAppId]. *)
Definition fixPart (idx : nat) (part : jsstring) : jsstring :=
  match part with
  | [] => js "app" ++ decimal idx
  | c :: _ => if isLower c then part else js "a" ++ part
  end.

Definition generateAppId (appName : jsstring) : jsstring :=
  let sanitized :=
    stripRuns isDot
      (replaceRuns isDot (js ".")
         (replaceRuns (fun c => negb (isLowerAlnum c)) (js ".")
            (toLowerCase appName))) in
  let sanitized := match sanitized with [] => js "app" | _ => sanitized end in
  let parts := splitOn 46 sanitized in
  let fixedParts := imap fixPart parts in
  js "com.vibecoding." ++ joinWith (js ".") fixedParts.

End AppId.

(** The pattern of a derived identifier: the prefix [com.vibecoding.]
    followed by one or more segments separated by single dots, each
    segment a letter of [a-z] followed by any number of characters of
    [a-z0-9], and nothing else.  After the prefix, a two-state automaton
    that expects a letter at the start of each segment. *)
Fixpoint segmentsFrom (inSegment : bool) (s : jsstring) : bool :=
  match s with
  | [] => inSegment
  | c :: t =>
      if inSegment then
        if isLowerAlnum c then segmentsFrom true t
        else if isDot c then segmentsFrom false t
        else false
      else
        if isLower c then segmentsFrom true t else false
  end.

Definition matchesAppIdPattern (s : jsstring) : bool :=
  startsWith (js "com.vibecoding.") s &&
  segmentsFrom false (drop 15 s).


(** ** [prepareHtmlForCordova] *)

Definition dq : jsstring := [34].
Definition nl : jsstring := [10].

Definition asciiUpper (c : N) : N := if isLower c then c - 32 else c.

(** Comparison of a pattern character with an input character under
    the [i] flag (no [u] flag): both are canonicalised with
    [toUpperCase], and a character outside ASCII is never mapped into
    ASCII.  The patterns of the source are ASCII, so an input character
    matches exactly when it is the same ASCII letter in either case. *)
Definition eqCI (p c : N) : bool := asciiUpper p =? asciiUpper c.

Fixpoint startsWithCI (p s : jsstring) : bool :=
  match p, s with
  | [], _ => true
  | _ :: _, [] => false
  | a :: p', b :: s' => eqCI a b && startsWithCI p' s'
  end.

(** [pattern.test(s)] for a literal pattern with the [i] flag. *)
Fixpoint includesCI (p s : jsstring) : bool :=
  startsWithCI p s ||
  match s with
  | [] => false
  | _ :: s' => includesCI p s'
  end.

(** The characters up to the first [stop], and the rest after it. *)
Fixpoint spanUntil (stop : N) (s : jsstring) : option (jsstring * jsstring) :=
  match s with
  | [] => None
  | c :: t =>
      if c =? stop then Some ([], t)
      else match spanUntil stop t with
           | Some (a, b) => Some (c :: a, b)
           | None => None
           end
  end.

(** The head pattern of the source, with the [i] flag: the five
    characters of an opening head tag, then a capture group of any
    number of characters other than the closing angle bracket, then that
    bracket.  A match starting at the first character gives the capture
    group and the text after the match. *)
Definition matchHeadAt (s : jsstring) : option (jsstring * jsstring) :=
  if startsWithCI (js "<head") s then spanUntil 62 (drop 5 s) else None.

(** [s.replace(headPattern, '<head$1>' + ins)]: the leftmost match is
    rewritten, a string without a match is returned as it is. *)
Fixpoint replaceHead (ins s : jsstring) : jsstring :=
  match s with
  | [] => []
  | c :: t =>
      match matchHeadAt s with
      | Some (cap, post) => js "<head" ++ cap ++ js ">" ++ ins ++ post
      | None => c :: replaceHead ins t
      end
  end.

(** [s.replace(pat, rep)] with a string pattern: the first occurrence
    only ([rep] has no dollar sign in the source). *)
Fixpoint replaceFirst (pat rep s : jsstring) : jsstring :=
  if startsWith pat s then rep ++ drop (length pat) s
  else match s with
       | [] => []
       | c :: t => c :: replaceFirst pat rep t
       end.

Definition viewportMeta : jsstring :=
  nl ++ js "    <meta name=" ++ dq ++ js "viewport" ++ dq ++ js " content=" ++ dq
     ++ js "width=device-width, initial-scale=1.0, maximum-scale=1.0, user-scalable=no"
     ++ dq ++ js ">".

Definition cspMeta : jsstring :=
  nl ++ js "    <meta http-equiv=" ++ dq ++ js "Content-Security-Policy" ++ dq
     ++ js " content=" ++ dq
     ++ js "default-src * 'self' 'unsafe-inline' 'unsafe-eval' data: gap: content:"
     ++ dq ++ js ">".

Definition cordovaScript : jsstring :=
  js "    <script src=" ++ dq ++ js "cordova.js" ++ dq ++ js "></script>" ++ nl.

Definition addViewport (html : jsstring) : jsstring :=
  if includes (js "viewport") html then html else replaceHead viewportMeta html.

Definition addCsp (html : jsstring) : jsstring :=
  if includes (js "Content-Security-Policy") html then html
  else replaceHead cspMeta html.

Definition addCordovaJs (html : jsstring) : jsstring :=
  if includes (js "cordova.js") html then html
  else replaceFirst (js "</body>") (cordovaScript ++ js "</body>") html.

Definition prepareHtmlForCordova (htmlContent : jsstring) : jsstring :=
  addCordovaJs (addCsp (addViewport htmlContent)).

(** The number of positions at which [p] occurs in [s]; for the three
    markers below, which cannot overlap themselves, this is
    [s.match(/p/g).length], the count the repository's tests take. *)
Fixpoint countOcc (p s : jsstring) : nat :=
  ((if startsWith p s then 1 else 0) +
   match s with
   | [] => 0
   | _ :: s' => countOcc p s'
   end)%nat.

(** Does the head pattern match somewhere? *)
Fixpoint hasHeadTag (s : jsstring) : bool :=
  match s with
  | [] => false
  | _ :: t => bool_decide (is_Some (matchHeadAt s)) || hasHeadTag t
  end.

(** ** [needsOfflineify] *)

Definition CDN_PATTERNS : list jsstring :=
  [ js "cdn.tailwindcss.com";
    js "unpkg.com";
    js "fonts.googleapis.com";
    js "@babel/standalone";
    js "canvas-confetti";
    js "cdnjs.cloudflare.com" ].

Definition BABEL_SCRIPT_PATTERN : jsstring := js "text/babel".

(** The [for] loop over [CDN_PATTERNS] with its early return. *)
Fixpoint anyPatternMatches (patterns : list jsstring) (htmlContent : jsstring) : bool :=
  match patterns with
  | [] => false
  | pattern :: rest =>
      if includesCI pattern htmlContent then true
      else anyPatternMatches rest htmlContent
  end.

Definition needsOfflineify (htmlContent : jsstring) : bool :=
  if anyPatternMatches CDN_PATTERNS htmlContent then true
  else if includesCI BABEL_SCRIPT_PATTERN htmlContent then true
  else false.

(** The signatures as the specification words them: a well-known CDN
    host name, a script tag of type [text/babel], or a Google Fonts
    [@import].  The host names are those that occur in the source's
    pattern list; the two remaining entries of that list,
    [@babel/standalone] and [canvas-confetti], are package names. *)
Definition cdnHostnames : list jsstring :=
  [ js "cdn.tailwindcss.com";
    js "unpkg.com";
    js "fonts.googleapis.com";
    js "cdnjs.cloudflare.com" ].

Definition hasCdnHostname (html : jsstring) : bool :=
  existsb (fun h => includesCI h html) cdnHostnames.

Definition hasBabelScriptTag (html : jsstring) : bool :=
  includesCI (js "type=" ++ dq ++ js "text/babel" ++ dq) html ||
  includesCI (js "type='text/babel'") html.

Definition hasGoogleFontsImport (html : jsstring) : bool :=
  includesCI (js "@import") html && includesCI (js "fonts.googleapis.com") html.

Definition specSignature (html : jsstring) : bool :=
  hasCdnHostname html || hasBabelScriptTag html || hasGoogleFontsImport html.

(** ** The job queue ([services/queue.ts]) *)

Inductive BuildType := BuildHtml | BuildZip.

Record BuildJobData := {
  taskId : jsstring;
  type : BuildType;
  filePath : jsstring;
  appName : jsstring;
  appId : option jsstring;
  iconPath : option jsstring;
  outputDir : jsstring;
  createdAt : jsstring
}.

Record BuildJobProgress := { message : jsstring; percent : Z }.

Record BuildJobResult := {
  success : bool;
  apkPath : option jsstring;
  error : option jsstring;
  duration : option Z
}.

(** The states a job of the queue backend can report. *)
Inductive JobState :=
  Completed | Failed | Active | Waiting | Delayed | Prioritized
| WaitingChildren | Unknown.

Record Job := {
  id : jsstring;
  data : BuildJobData;
  state : JobState;
  progress : option BuildJobProgress;
  returnvalue : option BuildJobResult;
  failedReason : option jsstring
}.

(** The queue backend: the job records by identifier, the waiting list
    in the order [getWaiting] returns it, and the active list. *)
Record Queue := {
  jobs : gmap jsstring Job;
  waitList : list jsstring;
  activeList : list jsstring
}.

Definition getJob (q : Queue) (taskId : jsstring) : option Job :=
  jobs q !! taskId.

(** [queue.add(name, data, { jobId })]: a job whose identifier is taken
    is not added again. *)
Definition addBuildJob (q : Queue) (d : BuildJobData) : Queue :=
  match jobs q !! taskId d with
  | Some _ => q
  | None =>
      {| jobs := <[taskId d := {| id := taskId d; data := d; state := Waiting;
                                  progress := None; returnvalue := None;
                                  failedReason := None |}]> (jobs q);
         waitList := waitList q ++ [taskId d];
         activeList := activeList q |}
  end.

Definition getQueueStats (q : Queue) : nat * nat :=
  (length (waitList q), length (activeList q)).

Fixpoint findIndex (taskId : jsstring) (ids : list jsstring) : option nat :=
  match ids with
  | [] => None
  | i :: rest =>
      if bool_decide (i = taskId) then Some O
      else S <$> findIndex taskId rest
  end.

(** [getWaiting(0, 100)] has an inclusive end: 101 entries at most. *)
Definition getJobPosition (q : Queue) (taskId : jsstring) : nat :=
  match findIndex taskId (take 101 (waitList q)) with
  | None => O
  | Some position => S position
  end.

Inductive ApiStatus := pending | active | completed | failed | not_found.

#[global] Instance ApiStatus_eq_dec : EqDecision ApiStatus.
Proof. solve_decision. Defined.

Record JobStatus := {
  st_status : ApiStatus;
  st_progress : option BuildJobProgress;
  st_result : option BuildJobResult;
  st_error : option jsstring;
  st_createdAt : option jsstring;
  st_appName : option jsstring;
  st_queuePosition : option nat;
  st_queueTotal : option nat
}.

Definition getJobStatus (q : Queue) (taskId : jsstring) : JobStatus :=
  match getJob q taskId with
  | None =>
      {| st_status := not_found; st_progress := None; st_result := None;
         st_error := None; st_createdAt := None; st_appName := None;
         st_queuePosition := None; st_queueTotal := None |}
  | Some job =>
      let createdAt := Some (createdAt (data job)) in
      let appName := Some (appName (data job)) in
      match state job with
      | Completed =>
          {| st_status := completed; st_progress := progress job;
             st_result := returnvalue job; st_error := None;
             st_createdAt := createdAt; st_appName := appName;
             st_queuePosition := None; st_queueTotal := None |}
      | Failed =>
          {| st_status := failed; st_progress := progress job;
             st_result := None; st_error := failedReason job;
             st_createdAt := createdAt; st_appName := appName;
             st_queuePosition := None; st_queueTotal := None |}
      | Active =>
          {| st_status := active; st_progress := progress job;
             st_result := None; st_error := None;
             st_createdAt := createdAt; st_appName := appName;
             st_queuePosition := None; st_queueTotal := None |}
      | Waiting | Delayed | Prioritized =>
          let position := getJobPosition q taskId in
          let stats := getQueueStats q in
          {| st_status := pending; st_progress := None;
             st_result := None; st_error := None;
             st_createdAt := createdAt; st_appName := appName;
             st_queuePosition :=
               Some (match position with O => 1%nat | _ => position end);
             st_queueTotal := Some (stats.1 + stats.2)%nat |}
      | WaitingChildren | Unknown =>
          let stats := getQueueStats q in
          {| st_status := pending; st_progress := None;
             st_result := None; st_error := None;
             st_createdAt := createdAt; st_appName := appName;
             st_queuePosition := Some 1%nat;
             st_queueTotal := Some (stats.1 + stats.2)%nat |}
      end
  end.

(** [removeJob]: an active job is not removed. *)
Definition removeJob (q : Queue) (taskId : jsstring) : bool * Queue :=
  match getJob q taskId with
  | None => (false, q)
  | Some job =>
      match state job with
      | Active => (false, q)
      | _ =>
          (true,
           {| jobs := delete taskId (jobs q);
              waitList := filter (fun i => i <> taskId) (waitList q);
              activeList := activeList q |})
      end
  end.

(** [job.updateProgress(p)], and the worker's [onProgress] callback,
    which stores 0 when a stage reports no percent. *)
Definition updateProgress (q : Queue) (taskId : jsstring) (p : BuildJobProgress) : Queue :=
  {| jobs := alter (fun j => {| id := id j; data := data j; state := state j;
                                progress := Some p;
                                returnvalue := returnvalue j;
                                failedReason := failedReason j |}) taskId (jobs q);
     waitList := waitList q;
     activeList := activeList q |}.

Definition onProgress (q : Queue) (taskId message : jsstring) (percent : option Z) : Queue :=
  updateProgress q taskId {| message := message; percent := default 0%Z percent |}.

(** ** Storage ([services/storage.ts]) *)

Record FsEntry := { isDirectory : bool; size : Z }.

(** The file system: the paths that exist.  [path.join] is modelled for
    segments that need no normalisation. *)
Abbreviation FileSystem := (gmap jsstring FsEntry).

(** [path.join(a, b)] for a normalised directory [a] and a segment [b]
    that is not empty, has no slash and is neither [.] nor [..]: there
    the source's result is this concatenation. For other segments
    [path.join] normalises and the result differs; [plainName] below
    says which segments are plain. *)
Definition pathJoin (a b : jsstring) : jsstring := a ++ js "/" ++ b.

Definition pathExists (fs : FileSystem) (p : jsstring) : bool :=
  bool_decide (is_Some (fs !! p)).

(** Is [q] the path [p] or a path below it? *)
Definition isUnder (p q : jsstring) : bool :=
  bool_decide (q = p) || startsWith (p ++ js "/") q.

(** [fs.remove(p)]: the entry and everything below it. *)
Definition fsRemove (fs : FileSystem) (p : jsstring) : FileSystem :=
  filter (fun kv => isUnder p kv.1 = false) fs.

Record StorageConfig := {
  sc_buildsDir : jsstring;
  sc_uploadsDir : jsstring;
  sc_maxAge : Z
}.

(** [apkExists] *)
Definition apkExists (fs : FileSystem) (apkPath : jsstring) : bool :=
  pathExists fs apkPath.

(** [getApkSize]: [None] when [fs.stat] rejects. *)
Definition getApkSize (fs : FileSystem) (apkPath : jsstring) : option Z :=
  size <$> fs !! apkPath.

(** [getApkPath] ignores its [taskId]. *)
Definition getApkPath (finalConfig : StorageConfig) (taskId appName : jsstring) : jsstring :=
  pathJoin (sc_buildsDir finalConfig) (appName ++ js ".apk").

(** [saveUploadedFile]: the task directory is created and the file is
    written into it. *)
Definition saveUploadedFile (finalConfig : StorageConfig) (fs : FileSystem)
    (fileBuffer : list N) (filename taskId : jsstring) : jsstring * FileSystem :=
  let taskDir := pathJoin (sc_uploadsDir finalConfig) taskId in
  let filePath := pathJoin taskDir filename in
  (filePath,
   <[filePath := {| isDirectory := false; size := Z.of_nat (length fileBuffer) |}]>
     (match fs !! taskDir with
      | Some _ => fs
      | None => <[taskDir := {| isDirectory := true; size := 0 |}]> fs
      end)).

(** [cleanupTask] *)
Definition cleanupTask (finalConfig : StorageConfig) (fs : FileSystem)
    (taskId appName : jsstring) : FileSystem :=
  let uploadDir := pathJoin (sc_uploadsDir finalConfig) taskId in
  let fs := if pathExists fs uploadDir then fsRemove fs uploadDir else fs in
  let buildDir := pathJoin (sc_buildsDir finalConfig) appName in
  if pathExists fs buildDir then fsRemove fs buildDir else fs.

(** ** The status, download and delete routes ([routes/status.ts]) *)

Record ServerConfig := {
  redisUrl : jsstring;
  buildsDir : jsstring;
  fileRetentionHours : Z
}.

Inductive Reply (A : Type) :=
| Ok200 (body : A)
| ReplyError (code : nat) (err message : jsstring).
Arguments Ok200 {A} body.
Arguments ReplyError {A} code err message.

Record StatusResponse := {
  resp_taskId : jsstring;
  resp_status : ApiStatus;
  resp_fileName : option jsstring;
  resp_expiresAt : option Z;
  resp_retentionHours : Z;
  resp_progress : option BuildJobProgress;
  resp_queuePosition : option nat;
  resp_queueTotal : option nat;
  resp_result : option (bool * option Z);
  resp_downloadUrl : option jsstring;
  resp_apkSize : option Z;
  resp_error : option jsstring
}.

(** A string used as a condition: [undefined] and the empty string are
    falsy. *)
Definition truthy (s : option jsstring) : option jsstring :=
  match s with
  | Some (_ :: _) => s
  | _ => None
  end.

Definition notFound {A} (taskId : jsstring) : Reply A :=
  ReplyError 404 (js "Not Found") (js "Task " ++ taskId ++ js " not found").


Definition isAlnum (c : N) : bool := isLower c || isUpper c || isDigit c.
Definition isSlash (c : N) : bool := c =? 47.

(** [.] of a regular expression matches everything but these. *)
Definition isLineTerminator (c : N) : bool :=
  (c =? 10) || (c =? 13) || (c =? 0x2028) || (c =? 0x2029).

Definition endsWith (p s : jsstring) : bool := startsWith (rev p) (rev s).

(** POSIX [path.basename]: trailing slashes are dropped, the last
    component remains. *)
Definition basename (p : jsstring) : jsstring :=
  default [] (last (splitOn 47 (rev (dropWhile isSlash (rev p))))).

(** The text after the first capture group of the download pattern: one
    or more characters of [a-zA-Z0-9], then [.apk], then the end. *)
Definition isTaskIdTail (r : jsstring) : bool :=
  let n := (length r - 4)%nat in
  bool_decide (0 < n)%nat && forallb isAlnum (take n r) &&
  bool_decide (drop n r = js ".apk").

(** The download pattern: a greedy, non-empty group of characters other
    than line terminators, two hyphens, the tail above.  The result is
    the first capture group of the match; longer groups are tried
    first. *)
Fixpoint matchTaskIdSuffix (s : jsstring) : option jsstring :=
  match s with
  | [] => None
  | c :: t =>
      if isLineTerminator c then None
      else match matchTaskIdSuffix t with
           | Some g => Some (c :: g)
           | None =>
               if startsWith (js "--") t && isTaskIdTail (drop 2 t)
               then Some [c] else None
           end
  end.

(** The file name the user sees. *)
Definition downloadFilename (apkPath : jsstring) : jsstring :=
  let filename := basename apkPath in
  match matchTaskIdSuffix filename with
  | Some g => g ++ js ".apk"
  | None => filename
  end.

(** [filename.replace(/[^\x00-\x7F]/g, '_')] *)
Definition asciiFallback (filename : jsstring) : jsstring :=
  map (fun c => if c <=? 127 then c else 95) filename.

Definition hexDigit (n : N) : N := if n <? 10 then 48 + n else 55 + n.

Definition percentByte (b : N) : jsstring :=
  [37; hexDigit (b / 16); hexDigit (b `mod` 16)].

Definition utf8 (cp : N) : list N :=
  if cp <? 0x80 then [cp]
  else if cp <? 0x800 then [0xC0 + cp / 64; 0x80 + cp `mod` 64]
  else if cp <? 0x10000 then
    [0xE0 + cp / 4096; 0x80 + (cp / 64) `mod` 64; 0x80 + cp `mod` 64]
  else
    [0xF0 + cp / 262144; 0x80 + (cp / 4096) `mod` 64;
     0x80 + (cp / 64) `mod` 64; 0x80 + cp `mod` 64].

Definition isUriUnreserved (c : N) : bool :=
  isAlnum c || bool_decide (c ∈ js "-_.!~*'()").

(** [encodeURIComponent]; [None] when it throws [URIError] on a lone
    surrogate. *)
Fixpoint encodeURIComponent (s : jsstring) : option jsstring :=
  match s with
  | [] => Some []
  | c :: t =>
      if isUriUnreserved c then cons c <$> encodeURIComponent t
      else if isTrailSurrogate c then None
      else if isLeadSurrogate c then
        match t with
        | lo :: t' =>
            if isTrailSurrogate lo then
              app (concat (map percentByte
                     (utf8 (0x10000 + (c - 0xD800) * 0x400 + (lo - 0xDC00)))))
                <$> encodeURIComponent t'
            else None
        | [] => None
        end
      else app (concat (map percentByte (utf8 c))) <$> encodeURIComponent t
  end.

Definition statusName (s : ApiStatus) : jsstring :=
  match s with
  | pending => js "pending"
  | active => js "active"
  | completed => js "completed"
  | failed => js "failed"
  | not_found => js "not_found"
  end.

Record DownloadResponse := {
  contentType : jsstring;
  contentDisposition : jsstring;
  streamPath : jsstring
}.

Record DeleteResponse := { del_message : jsstring; del_taskId : jsstring }.

Section Routes.

Variable config : ServerConfig.

(** [process.env] decides the uploads directory of the storage
    defaults; the routes override [buildsDir] only. *)
Variable defaultConfig : StorageConfig.

(** [new Date(s).getTime()], [None] for [NaN]. *)
Variable dateParse : jsstring -> option Z.

Definition storageConfig : StorageConfig :=
  {| sc_buildsDir := buildsDir config;
     sc_uploadsDir := sc_uploadsDir defaultConfig;
     sc_maxAge := sc_maxAge defaultConfig |}.

(** [GET /api/build/:taskId/status] *)
Definition statusRoute (q : Queue) (fs : FileSystem) (taskId : jsstring)
  : Reply StatusResponse :=
  let jobStatus := getJobStatus q taskId in
  let retentionHours := fileRetentionHours config in
  let expiresAt :=
    match truthy (st_createdAt jobStatus) with
    | Some c =>
        match dateParse c with
        | Some createdTime => Some (createdTime + retentionHours * 60 * 60 * 1000)%Z
        | None => None
        end
    | None => None
    end in
  if bool_decide (st_status jobStatus = not_found) then notFound taskId
  else
      let failedBuild :=
        match st_status jobStatus, st_result jobStatus with
        | completed, Some r => negb (success r)
        | _, _ => false
        end in
      let actualStatus := if failedBuild then failed else st_status jobStatus in
      let isPending := bool_decide (st_status jobStatus = pending) in
      let completedResult :=
        match st_status jobStatus with
        | completed => st_result jobStatus
        | _ => None
        end in
      let hasApk (r : BuildJobResult) :=
        if success r then truthy (apkPath r) else None in
      Ok200
        {| resp_taskId := taskId;
           resp_status := actualStatus;
           resp_fileName := truthy (st_appName jobStatus);
           resp_expiresAt := expiresAt;
           resp_retentionHours := retentionHours;
           resp_progress := st_progress jobStatus;
           resp_queuePosition :=
             if isPending then st_queuePosition jobStatus else None;
           resp_queueTotal :=
             if isPending then st_queueTotal jobStatus else None;
           resp_result :=
             (fun r => (success r, duration r)) <$> completedResult;
           resp_downloadUrl :=
             r ← completedResult; _ ← hasApk r;
             Some (js "/api/build/" ++ taskId ++ js "/download");
           resp_apkSize :=
             r ← completedResult; p ← hasApk r;
             Some (default 0%Z (getApkSize fs p));
           resp_error :=
             match st_status jobStatus with
             | completed =>
                 r ← completedResult;
                 match hasApk r with
                 | Some _ => None
                 | None => truthy (error r)
                 end
             | failed => st_error jobStatus
             | _ => None
             end |}.


(** [GET /api/build/:taskId/download]. [Ok200] is the point where the
    route has passed its checks, sets the headers and hands the stream
    to the reply. What fails after that point (a header value that the
    server refuses, a path that exists but cannot be read as a file)
    is not modelled. *)
Definition downloadRoute (q : Queue) (fs : FileSystem) (taskId : jsstring)
  : Reply DownloadResponse :=
  let jobStatus := getJobStatus q taskId in
  if bool_decide (st_status jobStatus = not_found) then notFound taskId
  else if bool_decide (st_status jobStatus <> completed) then
    ReplyError 400 (js "Bad Request")
      (js "Task " ++ taskId ++ js " is not completed yet. Current status: "
         ++ statusName (st_status jobStatus))
  else
    match r ← st_result jobStatus;
          if success r then truthy (apkPath r) else None with
    | None =>
        ReplyError 400 (js "Bad Request")
          (js "Build failed, no APK available for download")
    | Some apkPath =>
        if negb (apkExists fs apkPath) then
          ReplyError 404 (js "Not Found")
            (js "APK file not found. It may have been cleaned up.")
        else
          let filename := downloadFilename apkPath in
          let asciiFilename := asciiFallback filename in
          match encodeURIComponent filename with
          | None =>
              ReplyError 500 (js "Internal Server Error") (js "URI malformed")
          | Some encodedFilename =>
              Ok200
                {| contentType := js "application/vnd.android.package-archive";
                   contentDisposition :=
                     js "attachment; filename=" ++ dq ++ asciiFilename ++ dq
                       ++ js "; filename*=UTF-8''" ++ encodedFilename;
                   streamPath := apkPath |}
          end
    end.

(** [DELETE /api/build/:taskId]: the reply, and the queue and the file
    system after the request. *)
Definition deleteRoute (q : Queue) (fs : FileSystem) (taskId : jsstring)
  : Reply DeleteResponse * Queue * FileSystem :=
  match getJob q taskId with
  | None => (notFound taskId, q, fs)
  | Some job =>
      match state job with
      | Active =>
          (ReplyError 400 (js "Bad Request")
             (js "Cannot cancel a task that is currently building. Please wait for it to complete."),
           q, fs)
      | _ =>
          let appName := appName (data job) in
          let '(removed, q') := removeJob q taskId in
          if negb removed then
            (ReplyError 500 (js "Internal Server Error")
               (js "Failed to remove task from queue"), q', fs)
          else
            (Ok200 {| del_message := js "Task " ++ taskId ++ js " has been deleted";
                      del_taskId := taskId |},
             q', cleanupTask storageConfig fs taskId appName)
      end
  end.

End Routes.

(** ** The build routes ([routes/build.ts]) and the builders' defaults *)

Inductive Part :=
| FilePart (fieldname filename : jsstring) (buffer : list N)
| FieldPart (fieldname value : jsstring).

Record Upload := { up_buffer : list N; up_filename : jsstring }.

Record Form := {
  f_file : option Upload;
  f_icon : option Upload;
  f_appName : jsstring;
  f_appId : option jsstring
}.

Record BuildResponse := {
  b_taskId : jsstring;
  b_message : jsstring;
  b_status : ApiStatus;
  b_statusUrl : jsstring;
  b_downloadUrl : jsstring
}.

(** White space and line terminators, as [String.prototype.trim] sees
    them. *)
Definition isWhiteSpace (c : N) : bool :=
  ((9 <=? c) && (c <=? 13)) || (c =? 32) || (c =? 0xA0) || (c =? 0x1680)
  || ((0x2000 <=? c) && (c <=? 0x200A)) || (c =? 0x2028) || (c =? 0x2029)
  || (c =? 0x202F) || (c =? 0x205F) || (c =? 0x3000) || (c =? 0xFEFF).

Definition trim (s : jsstring) : jsstring :=
  rev (dropWhile isWhiteSpace (rev (dropWhile isWhiteSpace s))).

Fixpoint lastIndexFrom (c : N) (i : nat) (s : jsstring) (found : option nat) : option nat :=
  match s with
  | [] => found
  | x :: t => lastIndexFrom c (S i) t (if x =? c then Some i else found)
  end.

(** [path.parse(p).name]: the base name without its extension; a base
    name whose only dot is its first character, or the name [..], has no
    extension. *)
Definition parseName (p : jsstring) : jsstring :=
  let base := basename p in
  match lastIndexFrom 46 0 base None with
  | None | Some O => base
  | Some i => if bool_decide (base = js "..") then base else take i base
  end.

Section BuildRoutes.

Variable unicodeLower : list N -> N -> list N -> list N.
Variable config : ServerConfig.
Variable defaultConfig : StorageConfig.

(** The body of the loop over [request.parts()]. *)
Definition readPart (f : Form) (part : Part) : Form :=
  match part with
  | FilePart fieldname filename buffer =>
      if bool_decide (fieldname = js "file") then
        {| f_file := Some {| up_buffer := buffer; up_filename := filename |};
           f_icon := f_icon f; f_appName := f_appName f; f_appId := f_appId f |}
      else if bool_decide (fieldname = js "icon") then
        let iconFilename := toLowerCase unicodeLower filename in
        if endsWith (js ".png") iconFilename || endsWith (js ".jpg") iconFilename
           || endsWith (js ".jpeg") iconFilename
        then {| f_file := f_file f;
                f_icon := Some {| up_buffer := buffer; up_filename := filename |};
                f_appName := f_appName f; f_appId := f_appId f |}
        else f
      else f
  | FieldPart fieldname value =>
      if bool_decide (fieldname = js "appName") then
        {| f_file := f_file f; f_icon := f_icon f;
           f_appName := trim value; f_appId := f_appId f |}
      else if bool_decide (fieldname = js "appId") then
        {| f_file := f_file f; f_icon := f_icon f;
           f_appName := f_appName f; f_appId := truthy (Some (trim value)) |}
      else f
  end.

Definition parseParts (parts : list Part) : Form :=
  fold_left readPart parts
    {| f_file := None; f_icon := None; f_appName := []; f_appId := None |}.

Definition orElse (a b : jsstring) : jsstring :=
  match a with [] => b | _ => a end.

(** What the two routes share after validation: the upload and the
    icon are stored, the job is queued. This is the path on which
    neither [saveUploadedFile] nor [addBuildJob] rejects; a rejection,
    which the routes' [catch] answers with 500, is not modelled, so
    the 200 of this definition is what an accepted request does, not a
    promise that a valid request is accepted. *)
Definition enqueueBuild (q : Queue) (fs : FileSystem) (taskId now : jsstring)
    (kind : BuildType) (file : Upload) (icon : option Upload)
    (appName : jsstring) (appId : option jsstring)
  : Reply BuildResponse * Queue * FileSystem :=
  let sc := storageConfig config defaultConfig in
  let '(filePath, fs) :=
    saveUploadedFile sc fs (up_buffer file) (up_filename file) taskId in
  let '(iconPath, fs) :=
    match icon with
    | Some iconFile =>
        let '(p, fs) :=
          saveUploadedFile sc fs (up_buffer iconFile)
            (js "icon-" ++ up_filename iconFile) taskId in
        (Some p, fs)
    | None => (None, fs)
    end in
  let jobData :=
    {| taskId := taskId; type := kind; filePath := filePath;
       appName := appName; appId := appId; iconPath := iconPath;
       outputDir := buildsDir config; createdAt := now |} in
  (Ok200 {| b_taskId := taskId;
            b_message := js "Build job created successfully";
            b_status := pending;
            b_statusUrl := js "/api/build/" ++ taskId ++ js "/status";
            b_downloadUrl := js "/api/build/" ++ taskId ++ js "/download" |},
   addBuildJob q jobData, fs).

(** [POST /api/build/html]; [taskId] is the fresh [nanoid(12)], [now]
    the time stamp. *)
Definition htmlRoute (q : Queue) (fs : FileSystem) (taskId now : jsstring)
    (parts : list Part) : Reply BuildResponse * Queue * FileSystem :=
  let form := parseParts parts in
  match f_file form with
  | None =>
      (ReplyError 400 (js "Bad Request")
         (js "No file uploaded. Please upload an HTML file."), q, fs)
  | Some htmlFile =>
      let filename := toLowerCase unicodeLower (up_filename htmlFile) in
      if negb (endsWith (js ".html") filename) && negb (endsWith (js ".htm") filename)
      then
        (ReplyError 400 (js "Bad Request")
           (js "Invalid file type. Please upload an HTML file (.html or .htm)."),
         q, fs)
      else
        let uploadedBaseName := parseName (up_filename htmlFile) in
        let appName :=
          orElse (f_appName form) (orElse uploadedBaseName (js "MyVibeApp")) in
        enqueueBuild q fs taskId now BuildHtml htmlFile (f_icon form) appName (f_appId form)
  end.

(** [POST /api/build/zip] *)
Definition zipRoute (q : Queue) (fs : FileSystem) (taskId now : jsstring)
    (parts : list Part) : Reply BuildResponse * Queue * FileSystem :=
  let form := parseParts parts in
  match f_file form with
  | None =>
      (ReplyError 400 (js "Bad Request")
         (js "No file uploaded. Please upload a ZIP file."), q, fs)
  | Some zipFile =>
      let filename := toLowerCase unicodeLower (up_filename zipFile) in
      if negb (endsWith (js ".zip") filename) then
        (ReplyError 400 (js "Bad Request")
           (js "Invalid file type. Please upload a ZIP file."), q, fs)
      else
        let uploadedBaseName := parseName (up_filename zipFile) in
        let appName :=
          orElse (f_appName form) (orElse uploadedBaseName (js "MyReactApp")) in
        let appId := default (js "com.example.reactapp") (f_appId form) in
        enqueueBuild q fs taskId now BuildZip zipFile (f_icon form) appName (Some appId)
  end.

(** The identifier a build runs with: the destructuring defaults of
    [buildHtmlToApk] and [buildReactToApk], as the worker calls them
    with the [appName] and [appId] of the job. *)
Definition buildHtmlAppId (appName : jsstring) (appId : option jsstring) : jsstring :=
  default (generateAppId unicodeLower appName) appId.

Definition buildReactAppId (appId : option jsstring) : jsstring :=
  default (js "com.example.reactapp") appId.

Definition effectiveAppId (d : BuildJobData) : jsstring :=
  match type d with
  | BuildHtml => buildHtmlAppId (appName d) (appId d)
  | BuildZip => buildReactAppId (appId d)
  end.

End BuildRoutes.

(** ** The progress heartbeat ([createProgressHeartbeat]) *)

Local Open Scope Z_scope.

(** The closure: its arguments and the two variables it captures.
    [hb_onProgress] tells whether a callback was passed. *)
Record Heartbeat := {
  hb_onProgress : bool;
  hb_baseMessage : jsstring;
  hb_endPercent : Z;
  hb_intervalMs : Z;
  increment : Z;
  timer : bool;
  currentPercent : Z
}.

Definition createProgressHeartbeat (onProgress : bool) (baseMessage : jsstring)
    (startPercent endPercent : Z) (intervalMs : option Z) : Heartbeat :=
  {| hb_onProgress := onProgress;
     hb_baseMessage := baseMessage;
     hb_endPercent := endPercent;
     hb_intervalMs := default 5000 intervalMs;
     increment := Z.max 1 ((endPercent - startPercent) / 10);
     timer := false;
     currentPercent := startPercent |}.

Definition setTimer (hb : Heartbeat) (t : bool) : Heartbeat :=
  {| hb_onProgress := hb_onProgress hb; hb_baseMessage := hb_baseMessage hb;
     hb_endPercent := hb_endPercent hb; hb_intervalMs := hb_intervalMs hb;
     increment := increment hb; timer := t;
     currentPercent := currentPercent hb |}.

Definition hbStart (hb : Heartbeat) : Heartbeat :=
  if hb_onProgress hb then setTimer hb true else hb.

Definition hbStop (hb : Heartbeat) : Heartbeat :=
  if timer hb then setTimer hb false else hb.

(** A progress report: the time it is made at, in milliseconds since
    the heartbeat was started, the message and the percent. *)
Record Tick := { tick_time : Z; tick_message : jsstring; tick_percent : Z }.

(** The interval elapses at [time]: the callback of [setInterval] runs
    if the timer is set. *)
Definition hbFire (time : Z) (hb : Heartbeat) : Heartbeat * list Tick :=
  if timer hb then
    if currentPercent hb <? hb_endPercent hb - increment hb then
      let p := currentPercent hb + increment hb in
      ({| hb_onProgress := hb_onProgress hb; hb_baseMessage := hb_baseMessage hb;
          hb_endPercent := hb_endPercent hb; hb_intervalMs := hb_intervalMs hb;
          increment := increment hb; timer := timer hb;
          currentPercent := p |},
       [ {| tick_time := time;
            tick_message := (hb_baseMessage hb ++ js " (in progress...)")%list;
            tick_percent := p |} ])
    else (hb, [])
  else (hb, []).

(** What a wrapped subcommand does to its heartbeat. *)
Inductive HbEvent := EvStart | EvInterval (time : Z) | EvStop.

Definition hbStep (hb : Heartbeat) (e : HbEvent) : Heartbeat * list Tick :=
  match e with
  | EvStart => (hbStart hb, [])
  | EvInterval time => hbFire time hb
  | EvStop => (hbStop hb, [])
  end.

Fixpoint hbRun (hb : Heartbeat) (events : list HbEvent) : Heartbeat * list Tick :=
  match events with
  | [] => (hb, [])
  | e :: rest =>
      let '(hb1, t1) := hbStep hb e in
      let '(hb2, t2) := hbRun hb1 rest in
      (hb2, (t1 ++ t2)%list)
  end.

(** The timer's expiries number 1 to [n]: at [intervalMs], twice
    [intervalMs], and so on. *)
Definition intervals (intervalMs : Z) (n : nat) : list HbEvent :=
  map (fun k => EvInterval (Z.of_nat k * intervalMs)) (seq 1 n).

(** [heartbeat.start(); try { await subcommand } finally
    { heartbeat.stop() }] for a subcommand that takes [durationMs]; a
    timer that is still set after [stop] would keep expiring, [later]
    times more. *)
Definition wrapSubcommand (hb : Heartbeat) (durationMs : Z) (later : nat) : list Tick :=
  let n := Z.to_nat (durationMs / hb_intervalMs hb) in
  (hbRun hb
     ([EvStart] ++ intervals (hb_intervalMs hb) n ++ [EvStop]
        ++ map (fun k => EvInterval (Z.of_nat k * hb_intervalMs hb))
             (seq (S n) later))%list).2.

(** ** The polling loop of the front-end store *)

Inductive BuildStatus :=
  idle | uploading | queued | building | buildCompleted | buildError.

Record BuildState := { bs_status : BuildStatus; bs_progress : Z }.

(** What one answer of the status route does to the store's [status]
    and [progress]. *)
Definition pollUpdate (st : BuildState) (data : StatusResponse) : BuildState :=
  match resp_status data with
  | completed => {| bs_status := buildCompleted; bs_progress := 100 |}
  | failed => {| bs_status := buildError; bs_progress := bs_progress st |}
  | pending => {| bs_status := queued; bs_progress := 5 |}
  | _ =>
      let currentProgress := bs_progress st in
      let serverProgress := default 0 (percent <$> resp_progress data) in
      let nextProgress := Z.max currentProgress serverProgress in
      let nextProgress := if nextProgress <? 10 then 10 else nextProgress in
      {| bs_status := building; bs_progress := nextProgress |}
  end.

Local Close Scope Z_scope.

(** * Further parts of the code

    The functions below are called by, or call, the functions above:
    the work-directory names of the two builders, the icon and Next.js
    patches, the project detection of [buildReactToApk], the log route,
    the polling loop of the front-end store, and the worker's sweep of
    the builds directory. *)

(** ** [sanitizeDirName] (both builders) *)

(** A word character of a regular expression. *)
Definition isWordChar (c : N) : bool := isAlnum c || (c =? 95).

(** The characters the first replacement keeps: word characters, the
    dot and the hyphen. *)
Definition isDirNameChar (c : N) : bool := isWordChar c || (c =? 46) || (c =? 45).

Definition isUnderscore (c : N) : bool := c =? 95.

(** The third replacement: one underscore at the start and one at the
    end are removed. *)
Definition trimUnderscore (s : jsstring) : jsstring :=
  let s1 := match s with
            | c :: t => if isUnderscore c then t else s
            | [] => []
            end in
  match rev s1 with
  | c :: t => if isUnderscore c then rev t else s1
  | [] => s1
  end.

Definition sanitizeDirName (name : jsstring) : jsstring :=
  orElse
    (trimUnderscore
       (replaceRuns isUnderscore (js "_")
          (map (fun c => if isDirNameChar c then c else 95) name)))
    (js "project").

(** The work directories of [buildHtmlToApk] and [buildReactToApk]. *)
Definition htmlWorkDir (outputDir appName : jsstring) : jsstring :=
  pathJoin outputDir (sanitizeDirName appName).

Definition reactWorkDir (outputDir appName : jsstring) : jsstring :=
  pathJoin outputDir (sanitizeDirName appName ++ js "-build").

(** ** The log route ([routes/status.ts]) *)

Record LogsResponse := {
  log_taskId : jsstring;
  log_status : ApiStatus;
  log_currentProgress : option BuildJobProgress;
  log_error : option jsstring
}.

(** [GET /api/build/:taskId/logs]: the status of the queue as it is,
    the latest progress and the failure reason. *)
Definition logsRoute (q : Queue) (taskId : jsstring) : Reply LogsResponse :=
  let jobStatus := getJobStatus q taskId in
  if bool_decide (st_status jobStatus = not_found) then notFound taskId
  else
    Ok200 {| log_taskId := taskId;
             log_status := st_status jobStatus;
             log_currentProgress := st_progress jobStatus;
             log_error := truthy (st_error jobStatus) |}.

(** ** [injectIcon]: the patch of [config.xml] *)

Definition ANDROID_ICON_SIZES : list (jsstring * nat) :=
  [ (js "ldpi", 36%nat); (js "mdpi", 48%nat); (js "hdpi", 72%nat);
    (js "xhdpi", 96%nat); (js "xxhdpi", 144%nat); (js "xxxhdpi", 192%nat) ].

Definition iconConfigLine (entry : jsstring * nat) : jsstring :=
  let '(density, size) := entry in
  js "    <icon density=" ++ dq ++ density ++ dq
    ++ js " src=" ++ dq ++ js "res/icon/android/icon-" ++ density ++ js ".png" ++ dq
    ++ js " width=" ++ dq ++ decimal size ++ dq
    ++ js " height=" ++ dq ++ decimal size ++ dq ++ js " />".

Definition iconXml : jsstring :=
  nl ++ js "    <!-- App Icon -->" ++ nl
     ++ js "    <icon src=" ++ dq ++ js "res/icon.png" ++ dq ++ js " />" ++ nl
     ++ js "    <platform name=" ++ dq ++ js "android" ++ dq ++ js ">" ++ nl
     ++ joinWith nl (map iconConfigLine ANDROID_ICON_SIZES) ++ nl
     ++ js "    </platform>".

(** The content of [config.xml] after [injectIcon]: the icon block goes
    in front of the closing widget tag unless an icon is configured. *)
Definition patchIconConfig (configContent : jsstring) : jsstring :=
  if includes (js "<icon") configContent then configContent
  else replaceFirst (js "</widget>") (iconXml ++ nl ++ js "</widget>") configContent.

(** ** [configureNextjsExport] *)

(** The text files of a project, by path. *)
Abbreviation FileContents := (gmap jsstring jsstring).




(** ** Project detection ([buildReactToApk], [fixViteProject]) *)

Inductive ProjectType := vite | cra | nextjs | unknownType.

Record PackageJson := {
  dependencies : gmap jsstring jsstring;
  devDependencies : gmap jsstring jsstring
}.

Definition hasFile (fs : FileSystem) (projectDir filename : jsstring) : bool :=
  pathExists fs (pathJoin projectDir filename).

(** [detectProjectType]; [readJson] gives the parsed manifest, [None]
    when it throws. *)
Definition detectProjectType (readJson : jsstring -> option PackageJson)
    (fs : FileSystem) (projectDir : jsstring) : option (ProjectType * jsstring) :=
  if hasFile fs projectDir (js "vite.config.js")
     || hasFile fs projectDir (js "vite.config.ts")
  then Some (vite, js "dist")
  else if hasFile fs projectDir (js "next.config.js")
          || hasFile fs projectDir (js "next.config.ts")
          || hasFile fs projectDir (js "next.config.mjs")
  then Some (nextjs, js "out")
  else
    let pkgPath := pathJoin projectDir (js "package.json") in
    if pathExists fs pkgPath then
      match readJson pkgPath with
      | None => None
      | Some pkg =>
          if bool_decide (is_Some (truthy (dependencies pkg !! js "react-scripts")))
             || bool_decide (is_Some (truthy (devDependencies pkg !! js "react-scripts")))
          then Some (cra, js "build")
          else Some (unknownType, js "dist")
      end
    else Some (unknownType, js "dist").

(** [findViteConfig] of the project fixer: the first of the four names
    that exists. *)
Fixpoint firstExisting (fs : FileSystem) (projectDir : jsstring)
    (names : list jsstring) : option jsstring :=
  match names with
  | [] => None
  | name :: rest =>
      let configPath := pathJoin projectDir name in
      if pathExists fs configPath then Some configPath
      else firstExisting fs projectDir rest
  end.

Definition findViteConfig (fs : FileSystem) (projectDir : jsstring) : option jsstring :=
  firstExisting fs projectDir
    [ js "vite.config.ts"; js "vite.config.js"; js "vite.config.mts";
      js "vite.config.mjs" ].

(** ** [pollBuildStatus] of the front-end store *)

(** What one [fetch] of the status route gives: a network or parse
    error, a reply that is not [ok], or the body of a 200. *)
Inductive PollResult :=
| PollThrows
| PollNotOk (status : nat)
| PollOk (data : StatusResponse).

(** The loop: [attemptsLeft] is [maxAttempts - attempts], [n] numbers
    the fetches.  A 404 and the statuses completed and failed end the
    loop; running out of attempts ends it with an error. *)
Fixpoint pollLoop (attemptsLeft : nat) (fetch : nat -> PollResult) (n : nat)
    (st : BuildState) : BuildState :=
  match attemptsLeft with
  | O => {| bs_status := buildError; bs_progress := bs_progress st |}
  | S attemptsLeft' =>
      match fetch n with
      | PollThrows => pollLoop attemptsLeft' fetch (S n) st
      | PollNotOk status =>
          if (status =? 404)%nat
          then {| bs_status := buildError; bs_progress := bs_progress st |}
          else pollLoop attemptsLeft' fetch (S n) st
      | PollOk data =>
          let st' := pollUpdate st data in
          match resp_status data with
          | completed | failed => st'
          | _ => pollLoop attemptsLeft' fetch (S n) st'
          end
      end
  end.

Definition maxAttempts : nat := 200.

Definition pollBuildStatus (fetch : nat -> PollResult) (st : BuildState) : BuildState :=
  pollLoop maxAttempts fetch 0 st.

(** ** The worker's sweep of the builds directory ([cleanupOldBuilds]) *)

Record DirEntry := { de_isDirectory : bool; mtimeMs : Z }.

(** The entries of the builds directory by name.  [listing] is what
    [readdir] returned; an entry that is gone when [stat] runs is
    skipped. *)
Definition cleanupOldBuilds (fileRetentionHours now : Z) (listing : list jsstring)
    (dir : gmap jsstring DirEntry) : gmap jsstring DirEntry * list jsstring :=
  let retentionMs := (fileRetentionHours * 60 * 60 * 1000)%Z in
  fold_left
    (fun (acc : gmap jsstring DirEntry * list jsstring) (name : jsstring) =>
       match acc.1 !! name with
       | None => acc
       | Some stats =>
           let age := (now - mtimeMs stats)%Z in
           if (retentionMs <? age)%Z
           then (delete name acc.1, acc.2 ++ [name])
           else acc
       end)
    listing (dir, []).

(** ** Notions used in the statements, and sample data *)

Definition okChar (c : N) : bool := isLowerAlnum c || isDot c.

(** A segment of the pattern: a letter, then letters and digits. *)
Definition isSegment (p : jsstring) : Prop :=
  exists c r, p = c :: r /\ isLower c = true /\
              Forall (fun c => isLowerAlnum c = true) r.

Definition cjkExample : jsstring := [0x6211; 0x7684; 0x5E94; 0x7528].

(** The derivation as the specification words it: lower-case, runs of
    characters outside [a-z0-9] to dots, consecutive dots collapsed,
    dots at both ends stripped, [app] for an empty result, an [a] in
    front of every segment that does not start with a letter, and the
    prefix. *)
Definition prependA (part : jsstring) : jsstring :=
  match part with
  | c :: _ => if isLower c then part else js "a" ++ part
  | [] => js "a"
  end.

Definition deriveAppId (unicodeLower : list N -> N -> list N -> list N)
    (appName : jsstring) : jsstring :=
  let lowered := toLowerCase unicodeLower appName in
  let dotted := replaceRuns (fun c => negb (isLowerAlnum c)) (js ".") lowered in
  let collapsed := replaceRuns isDot (js ".") dotted in
  let stripped := stripRuns isDot collapsed in
  let named := match stripped with [] => js "app" | _ => stripped end in
  js "com.vibecoding." ++ joinWith (js ".") (map prependA (splitOn 46 named)).

(** No two dots in a row; with [prev] set, no dot at the start either. *)
Fixpoint noAdjacentDots (prev : bool) (s : jsstring) : bool :=
  match s with
  | [] => true
  | c :: t =>
      if isDot c then negb prev && noAdjacentDots true t
      else noAdjacentDots false t
  end.

(** In addition, no dot at the end, and not empty where [prev] is set. *)
Fixpoint dotSeparated (prev : bool) (s : jsstring) : bool :=
  match s with
  | [] => negb prev
  | c :: t =>
      if isDot c then negb prev && dotSeparated true t
      else dotSeparated false t
  end.

(** The run of the class at the end removed, from left to right. *)
Fixpoint dropEnd (cls : N -> bool) (s : jsstring) : jsstring :=
  match s with
  | [] => []
  | c :: t =>
      match dropEnd cls t with
      | [] => if cls c then [] else [c]
      | r => c :: r
      end
  end.

Definition sampleData (taskId appName : jsstring) : BuildJobData :=
  {| taskId := taskId; type := BuildZip;
     filePath := js "/tmp/demo2apk-uploads/" ++ taskId ++ js "/app.zip";
     appName := appName; appId := Some (js "com.example.reactapp");
     iconPath := None; outputDir := js "/builds";
     createdAt := js "2025-12-05T00:00:00.000Z" |}.

Definition sampleJob (taskId : jsstring) (s : JobState)
    (p : option BuildJobProgress) (r : option BuildJobResult) : Job :=
  {| id := taskId; data := sampleData taskId (js "MyApp"); state := s;
     progress := p; returnvalue := r; failedReason := None |}.

Definition sampleQueue (j : Job) : Queue :=
  {| jobs := {[ id j := j ]}; waitList := []; activeList := [] |}.

Definition sampleConfig : ServerConfig :=
  {| redisUrl := js "redis://localhost:6379"; buildsDir := js "/builds";
     fileRetentionHours := 2 |}.

Definition sampleStorage : StorageConfig :=
  {| sc_buildsDir := js "./builds"; sc_uploadsDir := js "/tmp/demo2apk-uploads";
     sc_maxAge := 86400000 |}.

Definition noDate (s : jsstring) : option Z := None.

Definition failedResult (e : option jsstring) : BuildJobResult :=
  {| success := false; apkPath := None; error := e; duration := Some 1500%Z |}.

Definition polledPercent (r : Reply StatusResponse) : option Z :=
  match r with
  | Ok200 resp => percent <$> resp_progress resp
  | ReplyError _ _ _ => None
  end.

Definition activeAt (p : Z) : Queue :=
  sampleQueue (sampleJob (js "V1StGXR8_Z5j") Active
                 (Some {| message := js "Injecting app icon..."; percent := p |}) None).

(** A submission whose [appId] field is omitted or blank: every [appId]
    field among the parts trims to the empty string. *)
Definition appIdOmitted (parts : list Part) : Prop :=
  Forall (fun part =>
            match part with
            | FieldPart fieldname value => fieldname = js "appId" -> trim value = []
            | FilePart _ _ _ => True
            end) parts.

Definition asciiOnly (before : list N) (cp : N) (after : list N) : list N := [cp].

Definition zipUpload : list Part :=
  [ FilePart (js "file") (js "project.zip") [80; 75; 3; 4];
    FieldPart (js "appName") (js "MyApp") ].

Definition emptyQueue : Queue := {| jobs := ∅; waitList := []; activeList := [] |}.

Definition artifactPath : jsstring := js "/builds/MyApp--V1StGXR8_Z5j.apk".

Definition succeeded : BuildJobResult :=
  {| success := true; apkPath := Some artifactPath; error := None;
     duration := Some 93000%Z |}.

Definition completedQueue : Queue :=
  sampleQueue (sampleJob (js "V1StGXR8_Z5j") Completed None (Some succeeded)).

(** The files of the sample task: its upload workspace and its
    artifact. *)
Definition sampleFiles : FileSystem :=
  <[ js "/tmp/demo2apk-uploads/V1StGXR8_Z5j" := {| isDirectory := true; size := 0 |} ]>
  (<[ js "/tmp/demo2apk-uploads/V1StGXR8_Z5j/project.zip" :=
        {| isDirectory := false; size := 2048 |} ]>
  (<[ artifactPath := {| isDirectory := false; size := 4096 |} ]> ∅)).

(** The job that the sample zip submission puts into the queue. *)
Definition queuedZipJob : Job :=
  {| id := js "V1StGXR8_Z5j";
     data := {| taskId := js "V1StGXR8_Z5j"; type := BuildZip;
                filePath := js "/tmp/demo2apk-uploads/V1StGXR8_Z5j/project.zip";
                appName := js "MyApp";
                appId := Some (js "com.example.reactapp");
                iconPath := None; outputDir := js "/builds";
                createdAt := js "2025-12-05T00:00:00.000Z" |};
     state := Waiting; progress := None; returnvalue := None;
     failedReason := None |}.

(** [p] occurs in [s] up to the case of ASCII letters. *)
Definition occursCI (p s : jsstring) : Prop :=
  exists pre mid post, s = pre ++ mid ++ post /\ map asciiUpper mid = map asciiUpper p.

(** A page that loads a script of its own, already local, whose file
    name mentions the package. *)
Definition localConfettiPage : jsstring :=
  js "<script src=" ++ dq ++ js "./vendor/canvas-confetti.js" ++ dq ++ js "></script>".

Definition tailwindPage : jsstring :=
  js "<script src=" ++ dq ++ js "https://cdn.tailwindcss.com" ++ dq ++ js "></script>".

(** [x] is none of the characters of [l]. *)
Definition notIn (x : N) (l : jsstring) : bool :=
  forallb (fun c => negb (c =? x)) l.

(** The three markers whose presence [prepareHtmlForCordova] tests. *)
Definition viewportMarker : jsstring := js "viewport".
Definition cspMarker : jsstring := js "Content-Security-Policy".
Definition cordovaMarker : jsstring := js "cordova.js".
Definition bodyClose : jsstring := js "</body>".

(** A needle that an opening head tag cannot be part of, whatever the
    case of its letters: it does not begin with a letter of the tag's
    name, and if it begins with the angle bracket its second character
    is not the tag's first letter. *)
Definition headSafe (n : jsstring) : bool :=
  match n with
  | [] => false
  | f :: n' =>
      notIn f [104; 72; 101; 69; 97; 65; 100; 68] &&
      (negb (f =? 60) ||
       match n' with
       | g :: _ => notIn g [104; 72]
       | [] => false
       end)
  end.

(** The page of the specification's first scenario: it has no head
    tag. *)
Definition helloPage : jsstring :=
  js "<!doctype html><html><body>Hi</body></html>".

(** What the counting lemmas ask of a needle: the closing angle bracket
    occurs at its end at most, the opening one at its start at most, and
    it is [headSafe]. *)
Definition markerOk (n : jsstring) : bool :=
  notIn 62 (removelast n) && notIn 60 (tail n) && headSafe n.

(** What the counting lemma of the script patch asks of a needle: no
    opening angle bracket and no space after its first character. *)
Definition bodyOk (n : jsstring) : bool :=
  notIn 60 (tail n) && notIn 32 (tail n) && negb (bool_decide (n = [])).

(** No two characters of the class next to each other; [prev] tells
    whether the character before the string is of the class. *)
Fixpoint noRuns (cls : N -> bool) (prev : bool) (s : jsstring) : bool :=
  match s with
  | [] => true
  | c :: t =>
      if cls c then negb prev && noRuns cls true t
      else noRuns cls false t
  end.

(** The last character, if there is one, is outside the class. *)
Definition endsOutside (cls : N -> bool) (s : jsstring) : bool :=
  match last s with
  | Some c => negb (cls c)
  | None => true
  end.

(** The string without its last character when that is of the class. *)
Fixpoint removeLastIf (cls : N -> bool) (s : jsstring) : jsstring :=
  match s with
  | [] => []
  | c :: t =>
      match t with
      | [] => if cls c then [] else [c]
      | _ :: _ => c :: removeLastIf cls t
      end
  end.

(** A name that [sanitizeDirName] has nothing to do on. *)
Definition isSafeDirName (s : jsstring) : bool :=
  negb (bool_decide (s = [])) && forallb isDirNameChar s &&
  noRuns isUnderscore true s && endsOutside isUnderscore s.

(** Two submissions waiting in the queue. *)
Definition twoWaiting : Queue :=
  addBuildJob (addBuildJob emptyQueue (sampleData (js "aaaaaaaaaaaa") (js "First")))
    (sampleData (js "bbbbbbbbbbbb") (js "Second")).

(** What a build route leaves behind when it accepts a submission under
    the identifier [tid]: a waiting job of the right kind whose app name
    is not empty and whose input file, and icon if any, exist in the
    task's upload directory; files outside that directory are as they
    were. *)
Definition storedSubmission (sc : StorageConfig) (kind : BuildType) (tid : jsstring)
    (before : FileSystem) (after : Reply BuildResponse * Queue * FileSystem) : Prop :=
  exists job,
    getJob after.1.2 tid = Some job /\
    state job = Waiting /\
    taskId (data job) = tid /\
    type (data job) = kind /\
    appName (data job) <> [] /\
    isUnder (pathJoin (sc_uploadsDir sc) tid) (filePath (data job)) = true /\
    (exists e, after.2 !! filePath (data job) = Some e /\ isDirectory e = false) /\
    (forall p, iconPath (data job) = Some p ->
       isUnder (pathJoin (sc_uploadsDir sc) tid) p = true /\ is_Some (after.2 !! p)) /\
    (forall p, isUnder (pathJoin (sc_uploadsDir sc) tid) p = false ->
       after.2 !! p = before !! p).

Definition htmlUpload : list Part :=
  [ FieldPart (js "appName") (js "  Hello  ");
    FilePart (js "file") (js "index.html") [60; 104; 49; 62] ].

(** Replies of the status route that end the polling loop: a 404, and
    a body whose status is completed or failed. *)
Definition endsPolling (r : PollResult) : bool :=
  match r with
  | PollThrows => false
  | PollNotOk status => (status =? 404)%nat
  | PollOk data =>
      match resp_status data with
      | completed | failed => true
      | _ => false
      end
  end.

Definition reportsCompleted (r : PollResult) : bool :=
  match r with
  | PollOk data => bool_decide (resp_status data = completed)
  | _ => false
  end.

(** Is the entry older than the retention time at [now]? *)
Definition expired (fileRetentionHours now : Z) (stats : DirEntry) : bool :=
  (fileRetentionHours * 60 * 60 * 1000 <? now - mtimeMs stats)%Z.

(** A name that [path.join] appends as it is: a single segment, not
    empty, without a slash, and neither [.] nor [..]. *)
Definition plainName (name : jsstring) : bool :=
  negb (bool_decide (name = [])) && notIn 47 name
  && negb (bool_decide (name = js ".")) && negb (bool_decide (name = js "..")).

(** A string with its ASCII letters in upper case: what a pattern with
    the [i] flag compares. *)
Definition upper (s : jsstring) : jsstring := map asciiUpper s.

(** A needle that holds no angle bracket and no space, and is not
    empty. *)
Definition sepFree (n : jsstring) : bool :=
  negb (bool_decide (n = [])) && notIn 60 n && notIn 62 n && notIn 32 n.

(** All the strings that [needsOfflineify] looks for. *)
Definition offlineSignatures : list jsstring := CDN_PATTERNS ++ [BABEL_SCRIPT_PATTERN].

(** * Properties *)

(** ** The derived application identifier *)

Lemma replaceRuns_nonAlnum_ok inRun s :
  Forall (fun c => okChar c = true)
    (replaceRunsFrom (fun c => negb (isLowerAlnum c)) (js ".") inRun s).
Proof.
  revert inRun. induction s as [|c t IH]; intros inRun; simpl; [constructor|].
  destruct (isLowerAlnum c) eqn:Hc; simpl.
  - constructor; [unfold okChar; by rewrite Hc | apply IH].
  - destruct inRun; simpl; [apply IH|].
    constructor; [reflexivity | apply IH].
Qed.

Lemma replaceRuns_dot_ok inRun s :
  Forall (fun c => okChar c = true) s ->
  Forall (fun c => okChar c = true) (replaceRunsFrom isDot (js ".") inRun s).
Proof.
  intros Hs. revert inRun. induction Hs as [|c t Hc Ht IH]; intros inRun; simpl;
    [constructor|].
  destruct (isDot c); simpl.
  - destruct inRun; simpl; [apply IH|]. constructor; [reflexivity | apply IH].
  - constructor; [exact Hc | apply IH].
Qed.

Lemma dropWhile_Forall (P : N -> Prop) cls s :
  Forall P s -> Forall P (dropWhile cls s).
Proof.
  induction 1 as [|c t Hc Ht IH]; simpl; [constructor|].
  destruct (cls c); [exact IH | by constructor].
Qed.

Lemma stripRuns_Forall (P : N -> Prop) cls s :
  Forall P s -> Forall P (stripRuns cls s).
Proof.
  intros Hs. unfold stripRuns.
  apply Forall_rev, dropWhile_Forall, Forall_rev, dropWhile_Forall, Hs.
Qed.

(** The parts of a split contain no separator: over the alphabet of
    [okChar] they are alphanumeric. *)
Lemma splitOn_parts_alnum s :
  Forall (fun c => okChar c = true) s ->
  Forall (Forall (fun c => isLowerAlnum c = true)) (splitOn 46 s).
Proof.
  induction 1 as [|c t Hc Ht IH]; simpl; [repeat constructor|].
  destruct (c =? 46) eqn:Hdot; [by constructor|].
  destruct (splitOn 46 t) as [|p ps]; [repeat constructor|].
  - unfold okChar, isDot in Hc. rewrite Hdot, orb_false_r in Hc. exact Hc.
  - inversion IH; subst. constructor; [|assumption].
    constructor; [|assumption].
    unfold okChar, isDot in Hc. rewrite Hdot, orb_false_r in Hc. exact Hc.
Qed.

Lemma splitOn_nonempty sep s : splitOn sep s <> [].
Proof.
  destruct s as [|c t]; simpl; [done|].
  destruct (c =? sep); [done|]. by destruct (splitOn sep t).
Qed.

Lemma decimalFrom_digits fuel n acc :
  Forall (fun c => isLowerAlnum c = true) acc ->
  Forall (fun c => isLowerAlnum c = true) (decimalFrom fuel n acc).
Proof.
  revert n acc. induction fuel as [|fuel IH]; intros n acc Hacc;
    cbn [decimalFrom]; [exact Hacc|].
  assert (Hd : isLowerAlnum (48 + N.of_nat (n `mod` 10)) = true).
  { assert (n `mod` 10 < 10)%nat by (apply Nat.mod_upper_bound; lia).
    unfold isLowerAlnum, isDigit.
    apply orb_true_iff; right. apply andb_true_iff; split; apply N.leb_le; lia. }
  destruct (n `div` 10 =? 0)%nat; [by constructor|].
  apply IH. by constructor.
Qed.

Lemma fixPart_segment idx part :
  Forall (fun c => isLowerAlnum c = true) part -> isSegment (fixPart idx part).
Proof.
  intros Hp. destruct part as [|c r]; simpl.
  - exists 97, (js "pp" ++ decimal idx). split; [reflexivity|]. split; [reflexivity|].
    apply Forall_app; split; [repeat constructor|].
    apply decimalFrom_digits. constructor.
  - destruct (isLower c) eqn:Hc.
    + exists c, r. inversion Hp; subst. done.
    + exists 97, (c :: r). done.
Qed.

Lemma imap_Forall {A B} (P : A -> Prop) (Q : B -> Prop) (f : nat -> A -> B) l :
  (forall i x, P x -> Q (f i x)) -> Forall P l -> Forall Q (imap f l).
Proof.
  intros Hf Hl. revert f Hf. induction Hl as [|x l Hx Hl IH]; intros f Hf; simpl;
    [constructor|].
  constructor; [by apply Hf|]. apply IH. intros i y Hy. by apply Hf.
Qed.

Lemma segmentsFrom_alnum r rest :
  Forall (fun c => isLowerAlnum c = true) r ->
  segmentsFrom true (r ++ rest) = segmentsFrom true rest.
Proof.
  induction 1 as [|c t Hc Ht IH]; simpl; [reflexivity|]. by rewrite Hc.
Qed.

Lemma segmentsFrom_join parts :
  parts <> [] -> Forall isSegment parts ->
  segmentsFrom false (joinWith (js ".") parts) = true.
Proof.
  intros Hne Hall. induction Hall as [|p ps Hp Hps IH]; [done|].
  destruct Hp as (c & r & -> & Hc & Hr).
  destruct ps as [|p' ps'].
  - simpl. rewrite Hc. rewrite <- (app_nil_r r). by rewrite segmentsFrom_alnum.
  - change (joinWith (js ".") ((c :: r) :: p' :: ps'))
      with (c :: (r ++ (46 :: joinWith (js ".") (p' :: ps')))).
    cbn [segmentsFrom]. rewrite Hc. rewrite segmentsFrom_alnum by exact Hr.
    cbn [segmentsFrom]. replace (isLowerAlnum 46) with false by reflexivity.
    replace (isDot 46) with true by reflexivity. by apply IH.
Qed.

Lemma generateAppId_matches unicodeLower X :
  matchesAppIdPattern (generateAppId unicodeLower X) = true.
Proof.
  unfold generateAppId, matchesAppIdPattern.
  set (s := stripRuns isDot _).
  assert (Hs : Forall (fun c => okChar c = true) s).
  { apply stripRuns_Forall, replaceRuns_dot_ok, replaceRuns_nonAlnum_ok. }
  set (s' := match s with [] => js "app" | _ => s end).
  assert (Hs' : Forall (fun c => okChar c = true) s').
  { subst s'. destruct s; [repeat constructor | exact Hs]. }
  set (parts := splitOn 46 s').
  assert (Hparts : Forall isSegment (imap fixPart parts)).
  { apply (imap_Forall (Forall (fun c => isLowerAlnum c = true))).
    - intros i x. apply fixPart_segment.
    - apply splitOn_parts_alnum, Hs'. }
  assert (Hne : imap fixPart parts <> []).
  { intros E. apply (f_equal length) in E. rewrite length_imap in E.
    destruct parts eqn:Ep; [by apply splitOn_nonempty in Ep | done]. }
  apply andb_true_iff; split; [reflexivity|].
  change (drop 15 (js "com.vibecoding." ++ ?x)) with x.
  by apply segmentsFrom_join.
Qed.

(** *** The segments of the sanitised name are never empty *)

Lemma replaceRuns_noAdjacentDots inRun s :
  noAdjacentDots inRun (replaceRunsFrom isDot (js ".") inRun s) = true.
Proof.
  revert inRun. induction s as [|c t IH]; intros inRun; cbn [replaceRunsFrom];
    [reflexivity|].
  destruct (isDot c) eqn:Hc.
  - destruct inRun; cbn [app]; [apply IH|].
    change (js ".") with [46]. cbn [app noAdjacentDots].
    replace (isDot 46) with true by reflexivity. cbn. apply IH.
  - cbn [noAdjacentDots]. rewrite Hc. apply IH.
Qed.

Lemma dropWhile_noAdjacentDots prev s :
  noAdjacentDots prev s = true -> noAdjacentDots true (dropWhile isDot s) = true.
Proof.
  revert prev. induction s as [|c t IH]; intros prev; cbn [dropWhile noAdjacentDots];
    [done|].
  destruct (isDot c) eqn:Hc.
  - intros [_ H]%andb_true_iff. by apply (IH true).
  - intros H. cbn [noAdjacentDots]. by rewrite Hc.
Qed.

Lemma dropWhile_snoc cls a c :
  dropWhile cls (a ++ [c]) =
    match dropWhile cls a with
    | [] => if cls c then [] else [c]
    | r => r ++ [c]
    end.
Proof.
  induction a as [|x a IH]; cbn [app dropWhile]; [reflexivity|].
  destruct (cls x); [exact IH|reflexivity].
Qed.

Lemma dropEnd_rev cls s : rev (dropWhile cls (rev s)) = dropEnd cls s.
Proof.
  induction s as [|c t IH]; [reflexivity|].
  cbn [rev dropEnd]. rewrite dropWhile_snoc, <- IH.
  destruct (dropWhile cls (rev t)) as [|x r]; cbn [rev].
  - by destruct (cls c).
  - rewrite rev_app_distr. cbn [rev app].
    destruct (rev r ++ [x]) eqn:E; [by destruct (rev r)|reflexivity].
Qed.

Lemma dropEnd_dotSeparated prev s :
  noAdjacentDots prev s = true -> dropEnd isDot s <> [] ->
  dotSeparated prev (dropEnd isDot s) = true.
Proof.
  revert prev. induction s as [|c t IH]; intros prev; cbn [dropEnd noAdjacentDots];
    [done|].
  destruct (dropEnd isDot t) as [|x r] eqn:E.
  - destruct (isDot c) eqn:Hc; [done|]. intros _ _. cbn. by rewrite Hc.
  - intros H _. cbn [dotSeparated]. destruct (isDot c).
    + apply andb_true_iff in H as [-> H]. by apply IH.
    + by apply IH.
Qed.

Lemma dotSeparated_parts prev s :
  dotSeparated prev s = true ->
  match splitOn 46 s with
  | p :: ps => (prev = true -> p <> []) /\ Forall (fun q => q <> []) ps
  | [] => False
  end.
Proof.
  revert prev. induction s as [|c t IH]; intros prev; cbn [dotSeparated splitOn].
  - intros ->%negb_true_iff. done.
  - unfold isDot. destruct (c =? 46).
    + intros [->%negb_true_iff H]%andb_true_iff. split; [done|].
      specialize (IH true H). destruct (splitOn 46 t) as [|p ps]; [done|].
      destruct IH as [Hp Hps]. constructor; [by apply Hp|exact Hps].
    + intros H. specialize (IH false H).
      destruct (splitOn 46 t) as [|p ps]; [done|]. by destruct IH.
Qed.

Lemma sanitized_parts_nonempty s :
  Forall (fun q => q <> [])
    (splitOn 46
       (match stripRuns isDot (replaceRuns isDot (js ".") s) with
        | [] => js "app"
        | _ => stripRuns isDot (replaceRuns isDot (js ".") s)
        end)).
Proof.
  unfold stripRuns. rewrite dropEnd_rev.
  set (t := dropWhile isDot (replaceRuns isDot (js ".") s)).
  assert (Ht : noAdjacentDots true t = true)
    by apply (dropWhile_noAdjacentDots false), replaceRuns_noAdjacentDots.
  destruct (dropEnd isDot t) as [|x r] eqn:E; [by repeat constructor|].
  pose proof (dropEnd_dotSeparated true t Ht) as Hd. rewrite E in Hd.
  specialize (Hd ltac:(done)). apply dotSeparated_parts in Hd.
  destruct (splitOn 46 (x :: r)) as [|p ps]; [done|].
  destruct Hd as [Hp Hps]. constructor; [by apply Hp|exact Hps].
Qed.

Lemma generateAppId_as_worded unicodeLower X :
  generateAppId unicodeLower X = deriveAppId unicodeLower X.
Proof.
  unfold generateAppId, deriveAppId. do 2 f_equal.
  rewrite <- imap_const. apply imap_ext. intros i part Hpart.
  pose proof (sanitized_parts_nonempty
                (replaceRuns (fun c => negb (isLowerAlnum c)) (js ".")
                   (toLowerCase unicodeLower X))) as Hne.
  rewrite Forall_forall in Hne. specialize (Hne part).
  destruct part as [|c r]; [|reflexivity].
  exfalso. apply Hne; [|reflexivity].
  eapply list_elem_of_lookup_2. exact Hpart.
Qed.

(** C1. For every app name, [generateAppId] is the derivation as it is
    worded (lower-case, runs of other characters to dots, dots collapsed
    and stripped, app for an empty result, an a before a segment that
    does not start with a letter, the prefix), its result matches the
    pattern of [com.vibecoding.] followed by dot-separated segments of a
    letter and then letters and digits; and the four examples of the
    specification evaluate as stated: the name 123App, the four Chinese
    characters of cjkExample (which have no lower-case mapping), the
    empty name and the name with runs of hyphens and underscores. *)
Theorem generateAppId_spec (unicodeLower : list N -> N -> list N -> list N) :
  (forall X,
     generateAppId unicodeLower X = deriveAppId unicodeLower X /\
     matchesAppIdPattern (generateAppId unicodeLower X) = true) /\
  generateAppId unicodeLower (js "123App") = js "com.vibecoding.a123app" /\
  ((forall before c after, c ∈ cjkExample -> unicodeLower before c after = [c]) ->
   generateAppId unicodeLower cjkExample = js "com.vibecoding.app") /\
  generateAppId unicodeLower [] = js "com.vibecoding.app" /\
  generateAppId unicodeLower (js "My---App___Test") = js "com.vibecoding.my.app.test".
Proof.
  split; [intros X; split; [apply generateAppId_as_worded|apply generateAppId_matches]|].
  split; [reflexivity|].
  split; [|split; reflexivity].
  intros Hcjk.
  assert (E : toLowerCase unicodeLower cjkExample = cjkExample).
  { unfold toLowerCase, cjkExample.
    cbn [StringToCodePoints isLeadSurrogate isTrailSurrogate N.leb andb].
    cbn -[N.add]. unfold lowerCodePoint. cbn.
    rewrite !Hcjk by (unfold cjkExample; set_solver). reflexivity. }
  unfold generateAppId. rewrite E. reflexivity.
Qed.

Lemma generateAppId_spec_witness :
  generateAppId (fun _ c _ => [c]) cjkExample = js "com.vibecoding.app".
Proof.
  refine (proj1 (proj2 (proj2 (generateAppId_spec (fun _ c _ => [c])))) _).
  intros before c after _. reflexivity.
Defined.

(** ** The status route *)

Lemma getJobStatus_found q taskId job :
  getJob q taskId = Some job ->
  st_status (getJobStatus q taskId) <> not_found /\
  st_status (getJobStatus q taskId) =
    match state job with
    | Completed => completed
    | Failed => failed
    | Active => active
    | _ => pending
    end.
Proof.
  intros Hjob. unfold getJobStatus. rewrite Hjob.
  destruct (state job); simpl; done.
Qed.

Lemma getJobStatus_missing q taskId :
  getJob q taskId = None -> st_status (getJobStatus q taskId) = not_found.
Proof. intros Hjob. unfold getJobStatus. by rewrite Hjob. Qed.

(** C10. For a job that exists, the status route answers 200 with a
    status among pending, active, completed and failed; a job in any
    state other than completed, failed and active (delayed, prioritized,
    or a state the switch does not list) is reported as pending with a
    queue position of at least 1; and without a job the answer is the
    404 error, so that not_found is never the status of a 200 body. *)
Theorem status_values config dateParse q fs taskId :
  (forall job, getJob q taskId = Some job ->
     exists resp,
       statusRoute config dateParse q fs taskId = Ok200 resp /\
       resp_status resp ∈ [pending; active; completed; failed] /\
       (state job <> Completed -> state job <> Failed -> state job <> Active ->
        resp_status resp = pending /\
        exists p, resp_queuePosition resp = Some p /\ (1 <= p)%nat)) /\
  (getJob q taskId = None ->
     statusRoute config dateParse q fs taskId =
       ReplyError 404 (js "Not Found") (js "Task " ++ taskId ++ js " not found")) /\
  (forall resp, statusRoute config dateParse q fs taskId = Ok200 resp ->
     resp_status resp <> not_found).
Proof.
  split; [|split].
  - intros job Hjob. unfold statusRoute, getJobStatus. rewrite Hjob.
    destruct (state job) eqn:Hst; cbn;
      [destruct (returnvalue job) as [[[] ? ? ?]|]; cbn|..].
    all: eexists; (split; [reflexivity|]); cbn; (split; [set_solver|]).
    all: intros; try done.
    all: split; [done|]; destruct (getJobPosition q taskId); eexists;
      (split; [reflexivity|lia]).
  - intros Hjob. unfold statusRoute. rewrite (getJobStatus_missing _ _ Hjob). done.
  - intros resp. unfold statusRoute.
    destruct (getJob q taskId) as [job|] eqn:Hjob.
    + destruct (getJobStatus_found _ _ _ Hjob) as [Hnf Hst].
      rewrite bool_decide_false by exact Hnf.
      intros [= <-]. cbn.
      destruct (st_status (getJobStatus q taskId)) eqn:E; try done;
        destruct (st_result (getJobStatus q taskId)) as [[[] ? ? ?]|]; done.
    + rewrite (getJobStatus_missing _ _ Hjob). done.
Qed.

Lemma status_values_witness :
  exists resp,
    statusRoute sampleConfig noDate
      (sampleQueue (sampleJob (js "V1StGXR8_Z5j") Delayed None None)) ∅
      (js "V1StGXR8_Z5j") = Ok200 resp /\
    resp_status resp = pending /\ resp_queuePosition resp = Some 1%nat.
Proof.
  destruct (proj1 (status_values sampleConfig noDate
              (sampleQueue (sampleJob (js "V1StGXR8_Z5j") Delayed None None)) ∅
              (js "V1StGXR8_Z5j"))
              (sampleJob (js "V1StGXR8_Z5j") Delayed None None))
    as (resp & Hr & _ & Hp).
  - vm_compute. reflexivity.
  - exists resp. split; [exact Hr|].
    destruct Hp as (Hs & p & Hq & _); [done..|].
    split; [exact Hs|]. rewrite Hq. f_equal.
    revert Hr Hq. vm_compute. intros [= <-]. cbn. by intros [= <-].
Defined.

(** C2, as the code has it. For a completed job whose result has
    success false, the status route answers 200 with status failed, and
    the error field is the result's error message when that message is
    a non-empty string; an absent or empty message leaves the field
    out. *)
Theorem status_collapse config dateParse q fs taskId job r :
  getJob q taskId = Some job ->
  state job = Completed ->
  returnvalue job = Some r ->
  success r = false ->
  exists resp,
    statusRoute config dateParse q fs taskId = Ok200 resp /\
    resp_status resp = failed /\
    resp_error resp = truthy (error r) /\
    (forall e, error r = Some e -> e <> [] -> resp_error resp = Some e).
Proof.
  intros Hjob Hst Hr Hs. unfold statusRoute, getJobStatus. rewrite Hjob, Hst. cbn.
  rewrite Hr. cbn. rewrite Hs. cbn.
  eexists; split; [reflexivity|]. cbn. split; [done|]. split; [done|].
  intros e -> He. by destruct e.
Qed.

Lemma status_collapse_witness :
  exists resp,
    statusRoute sampleConfig noDate
      (sampleQueue (sampleJob (js "V1StGXR8_Z5j") Completed None
                      (Some (failedResult (Some (js "gradle exited 1")))))) ∅
      (js "V1StGXR8_Z5j") = Ok200 resp /\
    resp_status resp = failed /\
    resp_error resp = Some (js "gradle exited 1").
Proof.
  destruct (status_collapse sampleConfig noDate
              (sampleQueue (sampleJob (js "V1StGXR8_Z5j") Completed None
                              (Some (failedResult (Some (js "gradle exited 1")))))) ∅
              (js "V1StGXR8_Z5j") _ _ ltac:(vm_compute; reflexivity)
              eq_refl eq_refl eq_refl)
    as (resp & Hr & Hs & _ & He).
  exists resp. split; [exact Hr|]. split; [exact Hs|].
  apply He; [reflexivity | discriminate].
Defined.

(** C2, as stated, fails when the failed build carries the empty
    message (an exception thrown without a text): the response has no
    error field, so it does not hold the result's error message. *)
Lemma status_collapse_empty_message :
  ~ (forall config dateParse q fs taskId job r,
       getJob q taskId = Some job ->
       state job = Completed ->
       returnvalue job = Some r ->
       success r = false ->
       exists resp,
         statusRoute config dateParse q fs taskId = Ok200 resp /\
         resp_status resp = failed /\
         resp_error resp = error r).
Proof.
  intros H.
  destruct (H sampleConfig noDate
              (sampleQueue (sampleJob (js "V1StGXR8_Z5j") Completed None
                              (Some (failedResult (Some []))))) ∅
              (js "V1StGXR8_Z5j") _ _ ltac:(vm_compute; reflexivity)
              eq_refl eq_refl eq_refl)
    as (resp & Hr & _ & He).
  revert Hr He. vm_compute. intros [= <-]. discriminate.
Qed.

(** ** Progress as a poller sees it *)

Lemma getJob_updateProgress q taskId p job :
  getJob q taskId = Some job ->
  getJob (updateProgress q taskId p) taskId =
    Some {| id := id job; data := data job; state := state job;
            progress := Some p; returnvalue := returnvalue job;
            failedReason := failedReason job |}.
Proof.
  unfold getJob, updateProgress. cbn. intros Hjob.
  rewrite lookup_alter_eq, Hjob. reflexivity.
Qed.

(** C9, as the code has it. While a job is active the status route
    reports the percent of the worker's latest progress write as it is
    (0 when the stage reported none), without comparing it with earlier
    answers; the polling client is what clamps: after a poll it is in
    the state building and shows exactly the larger of the percent it
    showed before and the reported one, and 10 when that is less than
    10; so the percent it shows is at least the percent it showed before
    and at least the reported one. *)
Theorem progress_clamped_by_client config dateParse q fs taskId job
    message pct (st : BuildState) :
  getJob q taskId = Some job ->
  state job = Active ->
  exists resp,
    statusRoute config dateParse (onProgress q taskId message pct) fs taskId
      = Ok200 resp /\
    resp_status resp = active /\
    percent <$> resp_progress resp = Some (default 0%Z pct) /\
    bs_status (pollUpdate st resp) = building /\
    bs_progress (pollUpdate st resp)
      = Z.max 10 (Z.max (bs_progress st) (default 0%Z pct)) /\
    (bs_progress st <= bs_progress (pollUpdate st resp))%Z /\
    (default 0%Z pct <= bs_progress (pollUpdate st resp))%Z.
Proof.
  intros Hjob Hst. unfold statusRoute, getJobStatus, onProgress.
  rewrite (getJob_updateProgress _ _ _ _ Hjob). cbn. rewrite Hst. cbn.
  eexists; split; [reflexivity|]. cbn. split; [done|]. split; [done|].
  unfold pollUpdate. cbn. split; [done|].
  destruct (Z.ltb_spec (bs_progress st `max` default 0%Z pct) 10); cbn; lia.
Qed.

Lemma progress_clamped_by_client_witness :
  exists resp,
    statusRoute sampleConfig noDate
      (onProgress (activeAt 42) (js "V1StGXR8_Z5j")
         (js "Injecting default app icon...") None) ∅ (js "V1StGXR8_Z5j")
      = Ok200 resp /\
    percent <$> resp_progress resp = Some 0%Z /\
    bs_status (pollUpdate {| bs_status := building; bs_progress := 42 |} resp)
      = building /\
    bs_progress (pollUpdate {| bs_status := building; bs_progress := 42 |} resp)
      = Z.max 10 (Z.max 42 0) /\
    (42 <= bs_progress (pollUpdate {| bs_status := building; bs_progress := 42 |} resp))%Z.
Proof.
  destruct (progress_clamped_by_client sampleConfig noDate (activeAt 42) ∅
              (js "V1StGXR8_Z5j") _ (js "Injecting default app icon...") None
              {| bs_status := building; bs_progress := 42 |}
              ltac:(vm_compute; reflexivity) eq_refl)
    as (resp & Hr & _ & Hp & Hs & He & Hm & _).
  exists resp. split; [exact Hr|]. split; [exact Hp|]. split; [exact Hs|].
  split; [exact He | exact Hm].
Defined.

(** C9, as stated, fails: between two polls of an active job the worker
    may write a lower percent (the icon stage reports its messages
    without one, which is stored as 0 after the 42 of the stage before),
    and the second answer carries it. *)
Lemma status_percent_regresses :
  ~ (forall config dateParse q fs taskId job message pct s1 s2,
       getJob q taskId = Some job ->
       state job = Active ->
       polledPercent (statusRoute config dateParse q fs taskId) = Some s1 ->
       polledPercent
         (statusRoute config dateParse (onProgress q taskId message pct) fs taskId)
         = Some s2 ->
       (s1 <= s2)%Z).
Proof.
  intros H.
  specialize (H sampleConfig noDate (activeAt 42) ∅ (js "V1StGXR8_Z5j") _
                (js "Injecting default app icon...") None 42%Z 0%Z
                ltac:(vm_compute; reflexivity) eq_refl
                ltac:(vm_compute; reflexivity) ltac:(vm_compute; reflexivity)).
  lia.
Qed.

(** ** The application identifier of a zip build *)

Lemma readPart_blank_appId unicodeLower f part :
  f_appId f = None ->
  match part with
  | FieldPart fieldname value => fieldname = js "appId" -> trim value = []
  | FilePart _ _ _ => True
  end ->
  f_appId (readPart unicodeLower f part) = None.
Proof.
  intros Hf Hpart. destruct part as [fieldname filename buffer|fieldname value]; cbn.
  - repeat case_bool_decide; try done.
    destruct (_ || _); done.
  - repeat case_bool_decide; try done. cbn. by rewrite Hpart.
Qed.

Lemma parseParts_blank_appId unicodeLower parts :
  appIdOmitted parts -> f_appId (parseParts unicodeLower parts) = None.
Proof.
  unfold parseParts, appIdOmitted.
  generalize {| f_file := None; f_icon := None; f_appName := []; f_appId := None |}
    (eq_refl : f_appId {| f_file := None; f_icon := None; f_appName := [];
                          f_appId := None |} = None).
  induction parts as [|part parts IH]; intros f0 Hf0 Hall; cbn; [exact Hf0|].
  inversion Hall; subst. apply IH; [|assumption].
  by apply readPart_blank_appId.
Qed.

Lemma enqueueBuild_job config defaultConfig q fs taskId now kind file icon name ident :
  getJob q taskId = None ->
  exists reply q' fs' job,
    enqueueBuild config defaultConfig q fs taskId now kind file icon name ident
      = (Ok200 reply, q', fs') /\
    getJob q' taskId = Some job /\
    state job = Waiting /\
    type (data job) = kind /\
    appName (data job) = name /\
    appId (data job) = ident.
Proof.
  intros Hnone. unfold enqueueBuild.
  destruct (saveUploadedFile _ fs _ _ _) as [filePath fs1].
  destruct icon as [iconFile|].
  - destruct (saveUploadedFile _ fs1 _ _ _) as [p fs2].
    do 4 eexists. split; [reflexivity|].
    unfold addBuildJob, getJob in *. cbn. rewrite Hnone. cbn.
    rewrite lookup_insert_eq. done.
  - do 4 eexists. split; [reflexivity|].
    unfold addBuildJob, getJob in *. cbn. rewrite Hnone. cbn.
    rewrite lookup_insert_eq. done.
Qed.

(** C7, as the code has it. When a zip submission is accepted under a
    fresh task identifier and its [appId] field is omitted or blank, the
    job that is queued carries the fixed identifier com.example.reactapp,
    whatever the app name is, and that is the identifier the build runs
    with; the derivation from the app name is not applied. *)
Theorem zip_default_appId unicodeLower config defaultConfig q fs taskId now parts :
  appIdOmitted parts ->
  getJob q taskId = None ->
  (exists reply,
     (zipRoute unicodeLower config defaultConfig q fs taskId now parts).1.1
       = Ok200 reply) ->
  exists job,
    getJob (zipRoute unicodeLower config defaultConfig q fs taskId now parts).1.2
      taskId = Some job /\
    type (data job) = BuildZip /\
    appId (data job) = Some (js "com.example.reactapp") /\
    effectiveAppId unicodeLower (data job) = js "com.example.reactapp".
Proof.
  intros Hblank Hfresh. unfold zipRoute.
  rewrite (parseParts_blank_appId _ _ Hblank).
  destruct (f_file (parseParts unicodeLower parts)) as [zipFile|];
    [|by intros [? ?]].
  destruct (negb (endsWith _ _)); [by intros [? ?]|].
  destruct (enqueueBuild_job config defaultConfig q fs taskId now BuildZip zipFile
              (f_icon (parseParts unicodeLower parts))
              (orElse (f_appName (parseParts unicodeLower parts))
                 (orElse (parseName (up_filename zipFile)) (js "MyReactApp")))
              (Some (default (js "com.example.reactapp") None)) Hfresh)
    as (reply0 & q0 & fs0 & job & -> & Hjob & _ & Hty & _ & Hid).
  intros _. exists job. split; [exact Hjob|]. split; [exact Hty|].
  split; [exact Hid|]. unfold effectiveAppId. by rewrite Hty, Hid.
Qed.

Lemma zip_default_appId_witness :
  exists job,
    getJob (zipRoute asciiOnly sampleConfig sampleStorage emptyQueue ∅
              (js "V1StGXR8_Z5j") (js "2025-12-05T00:00:00.000Z") zipUpload).1.2
      (js "V1StGXR8_Z5j") = Some job /\
    type (data job) = BuildZip /\
    appId (data job) = Some (js "com.example.reactapp") /\
    effectiveAppId asciiOnly (data job) = js "com.example.reactapp".
Proof.
  apply zip_default_appId.
  - repeat constructor; discriminate.
  - reflexivity.
  - eexists. vm_compute. reflexivity.
Defined.

(** The HTML build, for contrast: without an [appId] the builder derives
    one from the app name. *)
Lemma html_derived_appId unicodeLower d :
  type d = BuildHtml -> appId d = None ->
  effectiveAppId unicodeLower d = generateAppId unicodeLower (appName d).
Proof. intros Hty Hid. unfold effectiveAppId, buildHtmlAppId. by rewrite Hty, Hid. Qed.

(** C7, as stated, fails: a zip submission named MyApp without an
    [appId] is queued with com.example.reactapp, not with the identifier
    derived from its name, com.vibecoding.myapp. *)
Lemma zip_appId_not_derived :
  ~ (forall unicodeLower config defaultConfig q fs taskId now parts,
       appIdOmitted parts ->
       getJob q taskId = None ->
       (exists reply,
          (zipRoute unicodeLower config defaultConfig q fs taskId now parts).1.1
            = Ok200 reply) ->
       exists job,
         getJob (zipRoute unicodeLower config defaultConfig q fs taskId now parts).1.2
           taskId = Some job /\
         appId (data job) = Some (generateAppId unicodeLower (appName (data job)))).
Proof.
  intros H.
  destruct (H asciiOnly sampleConfig sampleStorage emptyQueue ∅
              (js "V1StGXR8_Z5j") (js "2025-12-05T00:00:00.000Z") zipUpload)
    as (job & Hjob & Hid).
  - repeat constructor; discriminate.
  - reflexivity.
  - eexists. vm_compute. reflexivity.
  - assert (E : getJob (zipRoute asciiOnly sampleConfig sampleStorage emptyQueue ∅
                          (js "V1StGXR8_Z5j") (js "2025-12-05T00:00:00.000Z")
                          zipUpload).1.2 (js "V1StGXR8_Z5j") = Some queuedZipJob)
      by (vm_compute; reflexivity).
    rewrite E in Hjob. injection Hjob as <-.
    vm_compute in Hid. discriminate.
Qed.

(** ** The progress heartbeat *)

Local Open Scope Z_scope.

Lemma hbStep_fields hb e :
  increment (hbStep hb e).1 = increment hb /\
  hb_endPercent (hbStep hb e).1 = hb_endPercent hb /\
  (1 <= increment hb -> currentPercent hb <= currentPercent (hbStep hb e).1).
Proof.
  destruct e as [|time|]; cbn.
  - unfold hbStart. destruct (hb_onProgress hb); cbn; repeat split; lia.
  - unfold hbFire. destruct (timer hb); [|cbn; repeat split; lia].
    destruct (currentPercent hb <? hb_endPercent hb - increment hb);
      cbn; repeat split; lia.
  - unfold hbStop. destruct (timer hb); cbn; repeat split; lia.
Qed.

(** Every synthetic tick lies strictly between the percent the
    heartbeat stands at and the end of its band. *)
Lemma hbRun_in_band events hb t :
  1 <= increment hb ->
  t ∈ (hbRun hb events).2 ->
  currentPercent hb < tick_percent t < hb_endPercent hb.
Proof.
  revert hb. induction events as [|e events IH]; intros hb Hinc; cbn;
    [by intros ?%elem_of_nil|].
  destruct (hbStep_fields hb e) as (Hi & He & Hc). specialize (Hc Hinc).
  destruct (hbStep hb e) as [hb1 t1] eqn:Hstep. cbn in Hi, He, Hc.
  destruct (hbRun hb1 events) as [hb2 t2] eqn:Hrun. cbn.
  intros [Ht|Ht]%elem_of_app.
  - destruct e as [|time|]; cbn in Hstep.
    + injection Hstep as <- <-. by apply elem_of_nil in Ht.
    + unfold hbFire in Hstep. destruct (timer hb).
      * destruct (Z.ltb_spec (currentPercent hb) (hb_endPercent hb - increment hb)).
        -- injection Hstep as <- <-. apply list_elem_of_singleton in Ht as ->. cbn. lia.
        -- injection Hstep as <- <-. by apply elem_of_nil in Ht.
      * injection Hstep as <- <-. by apply elem_of_nil in Ht.
    + injection Hstep as <- <-. by apply elem_of_nil in Ht.
  - specialize (IH hb1). rewrite Hrun in IH. cbn in IH.
    rewrite Hi, He in IH. specialize (IH ltac:(lia) Ht). lia.
Qed.

Lemma createProgressHeartbeat_in_band onProgress baseMessage startPercent endPercent
    intervalMs events t :
  t ∈ (hbRun (createProgressHeartbeat onProgress baseMessage startPercent endPercent
                intervalMs) events).2 ->
  startPercent < tick_percent t < endPercent.
Proof.
  intros Ht. apply hbRun_in_band in Ht; [exact Ht|]. cbn. lia.
Qed.

(** Once [stop] has cleared the timer, expiries of the interval report
    nothing. *)
Lemma hbRun_stopped hb times :
  timer hb = false ->
  (hbRun hb (map EvInterval times)).2 = [].
Proof.
  intros Hoff. induction times as [|time times IH]; cbn; [reflexivity|].
  unfold hbFire. rewrite Hoff.
  destruct (hbRun hb (map EvInterval times)) as [hb2 t2]. cbn in *. exact IH.
Qed.

Lemma hbStop_clears hb : timer (hbStop hb) = false.
Proof. unfold hbStop. destruct (timer hb) eqn:E; [reflexivity | exact E]. Qed.

(** A tick is made when the interval expires, one at most per expiry. *)
Lemma hbStep_ticks hb e t :
  t ∈ (hbStep hb e).2 -> e = EvInterval (tick_time t) /\ (hbStep hb e).2 = [t].
Proof.
  destruct e as [|time|]; cbn; [by intros ?%elem_of_nil| |by intros ?%elem_of_nil].
  unfold hbFire. destruct (timer hb); [|by intros ?%elem_of_nil].
  destruct (currentPercent hb <? hb_endPercent hb - increment hb);
    [|by intros ?%elem_of_nil].
  cbn. by intros ->%list_elem_of_singleton.
Qed.

Lemma hbRun_tick_times hb events t :
  t ∈ (hbRun hb events).2 -> EvInterval (tick_time t) ∈ events.
Proof.
  revert hb. induction events as [|e events IH]; intros hb; cbn;
    [by intros ?%elem_of_nil|].
  pose proof (hbStep_ticks hb e t) as Hs.
  destruct (hbStep hb e) as [hb1 t1]. specialize (IH hb1).
  destruct (hbRun hb1 events) as [hb2 t2]. cbn in *.
  intros [Ht|Ht]%elem_of_app.
  - destruct (Hs Ht) as [-> _]. by left.
  - right. by apply IH.
Qed.

(** C8 at the band of the install stage. The heartbeat created for the
    band from 25 to 38 with the default interval reports twelve ticks,
    26 up to 37, five seconds apart, when its subcommand runs for a
    minute: more than the ten increments of the claim and of the
    comment in the source. *)
Theorem heartbeat_install_band_ticks :
  map (fun t => (tick_time t, tick_percent t))
    (wrapSubcommand
       (createProgressHeartbeat true (js "Installing dependencies") 25 38 None)
       60000 3)
  = [ (5000, 26); (10000, 27); (15000, 28); (20000, 29); (25000, 30);
      (30000, 31); (35000, 32); (40000, 33); (45000, 34); (50000, 35);
      (55000, 36); (60000, 37) ].
Proof. vm_compute. reflexivity. Qed.

Local Close Scope Z_scope.

(** ** The download route *)

(** C6 at a task identifier with an underscore. For the completed task
    V1StGXR8_Z5j, whose artifact is stored as
    MyApp--V1StGXR8_Z5j.apk, the download route answers 200 with the
    package content type, but both forms of the file name in the
    Content-Disposition header keep the task suffix: the pattern of the
    route accepts letters and digits only after the two hyphens. *)
Theorem download_keeps_suffix :
  downloadRoute completedQueue sampleFiles (js "V1StGXR8_Z5j") =
    Ok200 {| contentType := js "application/vnd.android.package-archive";
             contentDisposition :=
               js "attachment; filename=" ++ dq ++ js "MyApp--V1StGXR8_Z5j.apk" ++ dq
                 ++ js "; filename*=UTF-8''MyApp--V1StGXR8_Z5j.apk";
             streamPath := artifactPath |}.
Proof. vm_compute. reflexivity. Qed.

(** Where the route does what its comment says: with a task identifier
    of letters and digits the suffix is stripped, whatever the directory
    and the app name are. *)

Lemma notIn_cons_false x c l : notIn x (c :: l) = true -> (c =? x) = false.
Proof. cbn. intros [H _]%andb_true_iff. by apply negb_true_iff. Qed.

Lemma splitOn_app sep a b :
  splitOn sep (a ++ sep :: b) = splitOn sep a ++ splitOn sep b.
Proof.
  induction a as [|c a IH]; cbn [app splitOn].
  - by rewrite N.eqb_refl.
  - destruct (c =? sep); [by rewrite IH|].
    rewrite IH. destruct (splitOn sep a) eqn:E; [by apply splitOn_nonempty in E|done].
Qed.

Lemma splitOn_none sep s : notIn sep s = true -> splitOn sep s = [s].
Proof.
  induction s as [|c s IH]; [done|]. intros H.
  pose proof (notIn_cons_false _ _ _ H) as Hc.
  apply andb_true_iff in H as [_ H]. cbn [splitOn]. by rewrite Hc, IH.
Qed.

Lemma basename_file dir f c :
  notIn 47 (f ++ [c]) = true ->
  basename (dir ++ js "/" ++ f ++ [c]) = f ++ [c].
Proof.
  intros Hf. unfold basename.
  assert (Hc : isSlash c = false).
  { unfold notIn in Hf. rewrite forallb_app in Hf.
    apply andb_true_iff in Hf as [_ Hf]. cbn in Hf.
    rewrite andb_true_r in Hf. by apply negb_true_iff in Hf. }
  rewrite !app_assoc, rev_app_distr. cbn [rev app dropWhile]. rewrite Hc.
  change (c :: rev ((dir ++ js "/") ++ f)) with (rev [c] ++ rev ((dir ++ js "/") ++ f)).
  rewrite <- rev_app_distr, rev_involutive, <- !app_assoc.
  change (js "/" ++ f ++ [c]) with (47 :: (f ++ [c])).
  rewrite splitOn_app, (splitOn_none 47 (f ++ [c]) Hf), last_snoc. reflexivity.
Qed.

Lemma matchTaskIdSuffix_cons c t :
  matchTaskIdSuffix (c :: t) =
    if isLineTerminator c then None
    else match matchTaskIdSuffix t with
         | Some g => Some (c :: g)
         | None =>
             if startsWith (js "--") t && isTaskIdTail (drop 2 t)
             then Some [c] else None
         end.
Proof. reflexivity. Qed.

Lemma matchTaskIdSuffix_no_hyphen w :
  notIn 45 w = true -> matchTaskIdSuffix w = None.
Proof.
  induction w as [|c t IH]; [done|]. intros H.
  apply andb_true_iff in H as [_ H]. rewrite matchTaskIdSuffix_cons.
  destruct (isLineTerminator c); [reflexivity|]. rewrite (IH H).
  destruct t as [|x t]; [reflexivity|].
  pose proof (notIn_cons_false _ _ _ H) as Hx.
  change (js "--") with [45; 45]. cbn [startsWith]. rewrite N.eqb_sym in Hx.
  by rewrite Hx.
Qed.

Lemma alnum_no_hyphen tid :
  forallb isAlnum tid = true -> notIn 45 (tid ++ js ".apk") = true.
Proof.
  intros H. unfold notIn. rewrite forallb_app. apply andb_true_iff. split; [|reflexivity].
  induction tid as [|c tid IH]; [reflexivity|].
  cbn [forallb] in *. apply andb_true_iff in H as [Hc H].
  rewrite (IH H), andb_true_r. apply negb_true_iff, N.eqb_neq. intros ->. done.
Qed.

Lemma matchTaskIdSuffix_separator tid :
  tid <> [] -> forallb isAlnum tid = true ->
  matchTaskIdSuffix (js "--" ++ tid ++ js ".apk") = None.
Proof.
  intros Hne Hal. pose proof (alnum_no_hyphen tid Hal) as Hw.
  change (js "--" ++ tid ++ js ".apk") with (45 :: 45 :: (tid ++ js ".apk")).
  destruct tid as [|x tid]; [done|]. cbn [app] in *.
  pose proof (notIn_cons_false _ _ _ Hw) as Hx. rewrite N.eqb_sym in Hx.
  assert (E1 : matchTaskIdSuffix (45 :: x :: tid ++ js ".apk") = None).
  { rewrite matchTaskIdSuffix_cons.
    replace (isLineTerminator 45) with false by reflexivity.
    rewrite (matchTaskIdSuffix_no_hyphen _ Hw).
    change (js "--") with [45; 45]. cbn [startsWith]. by rewrite Hx. }
  rewrite matchTaskIdSuffix_cons, E1.
  replace (isLineTerminator 45) with false by reflexivity.
  change (js "--") with [45; 45]. cbn [startsWith]. by rewrite Hx.
Qed.

Lemma isTaskIdTail_alnum tid :
  tid <> [] -> forallb isAlnum tid = true -> isTaskIdTail (tid ++ js ".apk") = true.
Proof.
  intros Hne Hal. unfold isTaskIdTail.
  replace (length (tid ++ js ".apk") - 4)%nat with (length tid)
    by (rewrite length_app; cbn; lia).
  rewrite take_app_length, drop_app_length, Hal.
  rewrite !bool_decide_true; [reflexivity|done|].
  destruct tid; [done|cbn; lia].
Qed.

Lemma matchTaskIdSuffix_strips name tid :
  name <> [] -> forallb (fun c => negb (isLineTerminator c)) name = true ->
  tid <> [] -> forallb isAlnum tid = true ->
  matchTaskIdSuffix (name ++ js "--" ++ tid ++ js ".apk") = Some name.
Proof.
  intros Hname Hlt Htid Hal. induction name as [|c name IH]; [done|].
  cbn [forallb] in Hlt. apply andb_true_iff in Hlt as [Hc Hlt].
  apply negb_true_iff in Hc.
  change ((c :: name) ++ js "--" ++ tid ++ js ".apk")
    with (c :: (name ++ js "--" ++ tid ++ js ".apk")).
  rewrite matchTaskIdSuffix_cons, Hc.
  destruct name as [|c' name'].
  - cbn [app]. rewrite (matchTaskIdSuffix_separator tid Htid Hal).
    change (drop 2 (js "--" ++ tid ++ js ".apk")) with (tid ++ js ".apk").
    rewrite (isTaskIdTail_alnum tid Htid Hal). reflexivity.
  - by rewrite (IH ltac:(done) Hlt).
Qed.

Lemma downloadFilename_strips dir name tid :
  name <> [] ->
  forallb (fun c => negb (isLineTerminator c)) name = true ->
  notIn 47 name = true ->
  tid <> [] -> forallb isAlnum tid = true ->
  downloadFilename (dir ++ js "/" ++ name ++ js "--" ++ tid ++ js ".apk")
    = name ++ js ".apk".
Proof.
  intros Hname Hlt Hslash Htid Hal. unfold downloadFilename.
  assert (Eb : basename (dir ++ js "/" ++ name ++ js "--" ++ tid ++ js ".apk")
               = name ++ js "--" ++ tid ++ js ".apk").
  { assert (Ef : name ++ js "--" ++ tid ++ js ".apk"
                 = (name ++ js "--" ++ tid ++ js ".ap") ++ [107])
      by (by rewrite <- !app_assoc).
    rewrite Ef. apply basename_file.
    unfold notIn in *. rewrite !forallb_app, Hslash. cbn [andb].
    apply andb_true_iff; split; [|reflexivity].
    apply andb_true_iff; split; [reflexivity|].
    apply andb_true_iff; split; [|reflexivity].
    clear -Hal. induction tid as [|x tid IH]; [reflexivity|].
    cbn [forallb] in *. apply andb_true_iff in Hal as [Hx Hal].
    rewrite (IH Hal), andb_true_r. apply negb_true_iff, N.eqb_neq. intros ->. done. }
  by rewrite Eb, (matchTaskIdSuffix_strips name tid Hname Hlt Htid Hal).
Qed.

(** A character outside ASCII becomes an underscore in the first form
    of the name and is percent-encoded in the second. *)
Lemma downloadFilename_alnum :
  downloadFilename (js "/builds/MyApp--V1StGXR8aZ5j.apk") = js "MyApp.apk" /\
  asciiFallback ([0x6211] ++ js ".apk") = js "_.apk" /\
  encodeURIComponent ([0x6211] ++ js ".apk") = Some (js "%E6%88%91.apk").
Proof. vm_compute. done. Qed.

(** ** The delete route *)

Lemma delete_active config defaultConfig q fs taskId job :
  getJob q taskId = Some job ->
  state job = Active ->
  deleteRoute config defaultConfig q fs taskId =
    (ReplyError 400 (js "Bad Request")
       (js "Cannot cancel a task that is currently building. Please wait for it to complete."),
     q, fs).
Proof. intros Hjob Hst. unfold deleteRoute. by rewrite Hjob, Hst. Qed.

Lemma delete_removes_job config defaultConfig q fs taskId job :
  getJob q taskId = Some job ->
  state job <> Active ->
  exists reply q',
    deleteRoute config defaultConfig q fs taskId =
      (Ok200 reply, q',
       cleanupTask (storageConfig config defaultConfig) fs taskId (appName (data job))) /\
    getJob q' taskId = None.
Proof.
  intros Hjob Hst. unfold deleteRoute, removeJob. rewrite Hjob.
  destruct (state job) eqn:E; try done; cbn;
    do 2 eexists; (split; [reflexivity|]); unfold getJob; cbn;
    apply lookup_delete_eq.
Qed.

Lemma cleanupTask_removes_uploads finalConfig fs taskId name :
  cleanupTask finalConfig fs taskId name
    !! pathJoin (sc_uploadsDir finalConfig) taskId = None.
Proof.
  unfold cleanupTask.
  set (uploadDir := pathJoin (sc_uploadsDir finalConfig) taskId).
  set (fs1 := if pathExists fs uploadDir then fsRemove fs uploadDir else fs).
  assert (H1 : fs1 !! uploadDir = None).
  { subst fs1. unfold pathExists. case_bool_decide as Hex.
    - unfold fsRemove. apply map_lookup_filter_None. right. intros x _. cbn.
      unfold isUnder. rewrite bool_decide_true by done. done.
    - by apply eq_None_not_Some. }
  destruct (pathExists fs1 _); [|exact H1].
  unfold fsRemove. apply map_lookup_filter_None. left. exact H1.
Qed.

(** [cleanupTask] touches the upload workspace and the path of the app
    name only. *)
Lemma cleanupTask_keeps finalConfig fs taskId name p :
  isUnder (pathJoin (sc_uploadsDir finalConfig) taskId) p = false ->
  isUnder (pathJoin (sc_buildsDir finalConfig) name) p = false ->
  cleanupTask finalConfig fs taskId name !! p = fs !! p.
Proof.
  intros Hu Hb. unfold cleanupTask.
  set (fs1 := if pathExists fs _ then fsRemove fs _ else fs).
  assert (H1 : fs1 !! p = fs !! p).
  { subst fs1. destruct (pathExists fs _); [|reflexivity].
    unfold fsRemove. destruct (fs !! p) as [x|] eqn:E.
    - by apply map_lookup_filter_Some.
    - apply map_lookup_filter_None. by left. }
  destruct (pathExists fs1 _); [|exact H1].
  unfold fsRemove. rewrite <- H1. destruct (fs1 !! p) as [x|] eqn:E.
  - by apply map_lookup_filter_Some.
  - apply map_lookup_filter_None. by left.
Qed.

Lemma startsWith_app_same a x y : startsWith (a ++ x) (a ++ y) = startsWith x y.
Proof.
  induction a as [|c a IH]; [reflexivity|]. cbn [app].
  destruct x as [|x0 x]; cbn [startsWith app]; by rewrite ?N.eqb_refl, ?IH.
Qed.

(** The package of a zip build is not below the path of its app name. *)
Lemma artifact_not_under_buildDir builds name taskId :
  isUnder (pathJoin builds name)
    (pathJoin builds (name ++ js "--" ++ taskId ++ js ".apk")) = false.
Proof.
  unfold isUnder, pathJoin. apply orb_false_iff. split.
  - apply bool_decide_eq_false. intros E.
    apply app_inv_head in E. apply app_inv_head in E.
    apply (f_equal length) in E. rewrite !length_app in E. cbn in E. lia.
  - rewrite <- !app_assoc. rewrite startsWith_app_same.
    change (js "/" ++ name ++ js "/") with (47 :: (name ++ js "/")).
    change (js "/" ++ name ++ js "--" ++ taskId ++ js ".apk")
      with (47 :: (name ++ js "--" ++ taskId ++ js ".apk")).
    cbn [startsWith]. rewrite N.eqb_refl. cbn [andb].
    by rewrite startsWith_app_same.
Qed.

(** C3 at a completed task. Deleting the completed task V1StGXR8_Z5j
    answers 200, removes the job and the upload workspace of the task,
    and leaves the artifact MyApp--V1StGXR8_Z5j.apk in the builds
    directory: [cleanupTask] removes the path of the app name, which is
    the build workspace, not the package. *)
Theorem delete_keeps_artifact :
  let '(reply, q', fs') :=
    deleteRoute sampleConfig sampleStorage completedQueue sampleFiles
      (js "V1StGXR8_Z5j") in
  reply = Ok200 {| del_message := js "Task V1StGXR8_Z5j has been deleted";
                   del_taskId := js "V1StGXR8_Z5j" |} /\
  getJob q' (js "V1StGXR8_Z5j") = None /\
  fs' !! js "/tmp/demo2apk-uploads/V1StGXR8_Z5j" = None /\
  fs' !! js "/tmp/demo2apk-uploads/V1StGXR8_Z5j/project.zip" = None /\
  fs' !! artifactPath = Some {| isDirectory := false; size := 4096 |}.
Proof. vm_compute. done. Qed.

(** ** [needsOfflineify] *)

Lemma eqCI_spec a b : eqCI a b = true <-> asciiUpper a = asciiUpper b.
Proof. unfold eqCI. apply N.eqb_eq. Qed.

Lemma startsWithCI_spec p s :
  startsWithCI p s = true <->
  exists mid post, s = mid ++ post /\ map asciiUpper mid = map asciiUpper p.
Proof.
  revert s. induction p as [|a p IH]; intros s.
  - split; [|by destruct s]. intros _. by exists [], s.
  - destruct s as [|b s]; cbn.
    + split; [done|]. intros (mid & post & E & Hm).
      destruct mid; [done|]. done.
    + rewrite andb_true_iff, eqCI_spec, IH. split.
      * intros (Hab & mid & post & -> & Hm). exists (b :: mid), post.
        split; [done|]. cbn. by rewrite Hm, Hab.
      * intros (mid & post & E & Hm). destruct mid as [|c mid]; [done|].
        cbn in E, Hm. injection E as <- ->. injection Hm as Hc Hm.
        split; [done|]. by exists mid, post.
Qed.

Lemma includesCI_spec p s : includesCI p s = true <-> occursCI p s.
Proof.
  unfold occursCI. induction s as [|c s IH].
  - cbn. rewrite orb_false_r, startsWithCI_spec. split.
    + intros (mid & post & E & Hm). by exists [], mid, post.
    + intros (pre & mid & post & E & Hm).
      destruct pre; [by exists mid, post|done].
  - cbn [includesCI]. rewrite orb_true_iff, startsWithCI_spec, IH. split.
    + intros [(mid & post & E & Hm)|(pre & mid & post & -> & Hm)].
      * by exists [], mid, post.
      * by exists (c :: pre), mid, post.
    + intros (pre & mid & post & E & Hm). destruct pre as [|c' pre].
      * left. by exists mid, post.
      * right. cbn in E. injection E as <- ->. by exists pre, mid, post.
Qed.

Lemma occursCI_part a p b s : occursCI (a ++ p ++ b) s -> occursCI p s.
Proof.
  intros (pre & mid & post & -> & Hm).
  rewrite !map_app in Hm.
  assert (Hlen : length mid = (length a + (length p + length b))%nat).
  { apply (f_equal length) in Hm. by rewrite !length_app, !length_map in Hm. }
  rewrite <- (take_drop (length a) mid) in Hm |- *.
  rewrite map_app in Hm. apply app_inj_1 in Hm as [Ha Hm];
    [|rewrite !length_map, length_take; lia].
  rewrite <- (take_drop (length p) (drop (length a) mid)) in Hm |- *.
  rewrite map_app in Hm. apply app_inj_1 in Hm as [Hp Hb];
    [|rewrite !length_map, length_take, length_drop; lia].
  exists (pre ++ take (length a) mid), (take (length p) (drop (length a) mid)),
    (drop (length p) (drop (length a) mid) ++ post).
  split; [by rewrite <- !app_assoc | exact Hp].
Qed.

Lemma anyPatternMatches_spec patterns html :
  anyPatternMatches patterns html = true <->
  exists p, p ∈ patterns /\ includesCI p html = true.
Proof.
  induction patterns as [|p patterns IH]; cbn.
  - split; [done|]. by intros (p & ?%elem_of_nil & _).
  - destruct (includesCI p html) eqn:E.
    + split; [|done]. intros _. exists p. split; [left|done].
    + rewrite IH. split.
      * intros (p' & Hin & Hp'). exists p'. split; [by right|done].
      * intros (p' & Hin & Hp'). apply elem_of_cons in Hin as [->|Hin];
          [congruence|]. by exists p'.
Qed.

Lemma needsOfflineify_spec html :
  needsOfflineify html = true <->
  exists p, p ∈ CDN_PATTERNS ++ [BABEL_SCRIPT_PATTERN] /\ occursCI p html.
Proof.
  unfold needsOfflineify.
  destruct (anyPatternMatches CDN_PATTERNS html) eqn:Ecdn.
  - split; [|done]. intros _.
    apply anyPatternMatches_spec in Ecdn as (p & Hin & Hp).
    exists p. split; [apply elem_of_app; by left | by apply includesCI_spec].
  - destruct (includesCI BABEL_SCRIPT_PATTERN html) eqn:Ebabel.
    + split; [|done]. intros _. exists BABEL_SCRIPT_PATTERN.
      split; [apply elem_of_app; right; by left | by apply includesCI_spec].
    + split; [done|]. intros (p & Hin & Hp%includesCI_spec).
      apply elem_of_app in Hin as [Hin|Hin].
      * assert (anyPatternMatches CDN_PATTERNS html = true)
          by (apply anyPatternMatches_spec; by exists p).
        congruence.
      * apply list_elem_of_singleton in Hin as ->. congruence.
Qed.

Lemma specSignature_sufficient html :
  specSignature html = true -> needsOfflineify html = true.
Proof.
  unfold specSignature, hasCdnHostname, hasBabelScriptTag, hasGoogleFontsImport.
  rewrite !orb_true_iff, andb_true_iff. intros H.
  apply needsOfflineify_spec.
  destruct H as [[H|[H|H]]|[_ H]].
  - cbn in H. rewrite !orb_true_iff in H.
    destruct H as [H|[H|[H|[H|H]]]]; [..|done];
      apply includesCI_spec in H; eexists; (split; [|exact H]);
      unfold CDN_PATTERNS; set_solver.
  - apply includesCI_spec in H.
    exists BABEL_SCRIPT_PATTERN. split; [set_solver|].
    apply (occursCI_part (js "type=" ++ dq) _ dq). exact H.
  - apply includesCI_spec in H.
    exists BABEL_SCRIPT_PATTERN. split; [set_solver|].
    apply (occursCI_part (js "type='") _ (js "'")). exact H.
  - apply includesCI_spec in H. eexists. split; [|exact H].
    unfold CDN_PATTERNS; set_solver.
Qed.

(** C5, as the code has it. [needsOfflineify] holds exactly when the
    page contains, up to the case of ASCII letters, one of the seven
    strings of the source: the host names cdn.tailwindcss.com, unpkg.com,
    fonts.googleapis.com and cdnjs.cloudflare.com, the package names
    @babel/standalone and canvas-confetti, or text/babel, anywhere in
    the text.  The signatures of the specification (a CDN host name, a
    script tag of type text/babel, a Google Fonts import) are
    sufficient, not necessary. *)
Theorem needsOfflineify_patterns html :
  (needsOfflineify html = true <->
   exists p,
     p ∈ [ js "cdn.tailwindcss.com"; js "unpkg.com"; js "fonts.googleapis.com";
           js "@babel/standalone"; js "canvas-confetti"; js "cdnjs.cloudflare.com";
           js "text/babel" ] /\
     occursCI p html) /\
  (specSignature html = true -> needsOfflineify html = true).
Proof.
  split; [apply needsOfflineify_spec | apply specSignature_sufficient].
Qed.

Lemma needsOfflineify_patterns_witness :
  specSignature tailwindPage = true /\ needsOfflineify tailwindPage = true.
Proof.
  assert (H : specSignature tailwindPage = true) by (vm_compute; reflexivity).
  split; [exact H|].
  exact (proj2 (needsOfflineify_patterns tailwindPage) H).
Defined.

(** C5, as stated, fails: a page whose only script is a local file
    named after canvas-confetti has no CDN host name, no script of type
    text/babel and no Google Fonts import, and [needsOfflineify] holds
    for it. *)
Lemma needsOfflineify_local_script :
  ~ (forall html, needsOfflineify html = true <-> specSignature html = true).
Proof.
  intros H. destruct (H localConfettiPage) as [H1 _].
  assert (E : needsOfflineify localConfettiPage = true) by (vm_compute; reflexivity).
  specialize (H1 E). vm_compute in H1. discriminate.
Qed.

(** ** [prepareHtmlForCordova]: occurrences under insertion *)

Lemma includes_countOcc n s : includes n s = negb (countOcc n s =? 0)%nat.
Proof.
  induction s as [|c s IH]; cbn [includes countOcc].
  - destruct (startsWith n []); reflexivity.
  - rewrite IH. destruct (startsWith n (c :: s)); cbn; [reflexivity|].
    reflexivity.
Qed.

Lemma countOcc_cons n c s :
  countOcc n (c :: s) = ((if startsWith n (c :: s) then 1 else 0) + countOcc n s)%nat.
Proof. reflexivity. Qed.

Lemma countOcc_nil n : n <> [] -> countOcc n [] = 0%nat.
Proof. by destruct n. Qed.

(** A needle without [x] cannot reach over an [x]. *)
Lemma startsWith_stop n u x b :
  notIn x n = true -> startsWith n (u ++ x :: b) = startsWith n u.
Proof.
  revert u. induction n as [|g n IH]; intros u Hx; [by destruct u|].
  pose proof (notIn_cons_false _ _ _ Hx) as Hg.
  apply andb_true_iff in Hx as [_ Hx].
  destruct u as [|c u]; cbn; [by rewrite Hg|].
  by rewrite IH.
Qed.

(** A needle that has [x] at its end only cannot reach beyond an [x]. *)
Lemma startsWith_sep_r n u x b :
  notIn x (removelast n) = true ->
  startsWith n (u ++ x :: b) = startsWith n (u ++ [x]).
Proof.
  revert u. induction n as [|m n IH]; intros u Hx; [by destruct u|].
  destruct u as [|c u]; cbn [app startsWith].
  - destruct n as [|g n]; [reflexivity|].
    change (removelast (m :: g :: n)) with (m :: removelast (g :: n)) in Hx.
    by rewrite (notIn_cons_false _ _ _ Hx).
  - f_equal. apply IH. destruct n as [|g n]; [reflexivity|].
    change (removelast (m :: g :: n)) with (m :: removelast (g :: n)) in Hx.
    by apply andb_true_iff in Hx as [_ Hx].
Qed.

Lemma countOcc_sep_r n a x b :
  n <> [] -> notIn x (removelast n) = true ->
  countOcc n (a ++ x :: b) = (countOcc n (a ++ [x]) + countOcc n b)%nat.
Proof.
  intros Hn Hx. induction a as [|c a IH].
  - pose proof (startsWith_sep_r n [] x b Hx) as E. cbn [app] in E |- *.
    cbn [countOcc]. rewrite E. destruct n as [|m n]; [done|].
    cbn [startsWith]. destruct (_ && _); lia.
  - pose proof (startsWith_sep_r n (c :: a) x b Hx) as E. cbn [app] in E |- *.
    cbn [countOcc]. rewrite E, IH. lia.
Qed.

Lemma countOcc_sep_l n a x b :
  n <> [] -> notIn x (tail n) = true ->
  countOcc n (a ++ x :: b) = (countOcc n a + countOcc n (x :: b))%nat.
Proof.
  intros Hn Hx. induction a as [|c a IH].
  - cbn [app]. by rewrite (countOcc_nil n Hn).
  - cbn [app]. rewrite (countOcc_cons n c (a ++ x :: b)), (countOcc_cons n c a), IH.
    destruct n as [|m n]; [done|]. cbn [startsWith tail] in *.
    rewrite (startsWith_stop n a x b Hx). lia.
Qed.

Lemma asciiUpper_inv (u c : N) :
  (65 <= u <= 90)%N -> asciiUpper c = u -> c = u \/ c = (u + 32)%N.
Proof.
  unfold asciiUpper, isLower. intros Hu.
  destruct (N.leb_spec 97 c), (N.leb_spec c 122); cbn; lia.
Qed.

Lemma eqCI_letter (l c : N) :
  (97 <= l <= 122)%N -> eqCI l c = true -> c = l \/ c = (l - 32)%N.
Proof.
  intros Hl H. apply eqCI_spec in H.
  assert (El : asciiUpper l = (l - 32)%N).
  { unfold asciiUpper, isLower.
    destruct (N.leb_spec 97 l), (N.leb_spec l 122); cbn; lia. }
  rewrite El in H. symmetry in H.
  apply asciiUpper_inv in H; [|lia]. destruct H as [->| ->]; [by right|left; lia].
Qed.

Lemma eqCI_bracket c : eqCI 60 c = true -> c = 60.
Proof.
  intros H%eqCI_spec. revert H. unfold asciiUpper, isLower. cbn.
  destruct (N.leb_spec 97 c), (N.leb_spec c 122); cbn; lia.
Qed.

Lemma startsWith_cons_ne f n c r : (f =? c) = false -> startsWith (f :: n) (c :: r) = false.
Proof. intros H. cbn. by rewrite H. Qed.

(** The letters of a head tag may change their case without a
    [headSafe] needle gaining or losing an occurrence. *)
Lemma countOcc_head_norm n c1 c2 c3 c4 rest :
  headSafe n = true ->
  eqCI 104 c1 = true -> eqCI 101 c2 = true -> eqCI 97 c3 = true -> eqCI 100 c4 = true ->
  countOcc n (60 :: c1 :: c2 :: c3 :: c4 :: rest) =
  countOcc n (60 :: 104 :: 101 :: 97 :: 100 :: rest).
Proof.
  intros Hn H1 H2 H3 H4.
  apply eqCI_letter in H1, H2, H3, H4; try lia.
  destruct n as [|f n]; [done|]. cbn [headSafe] in Hn.
  apply andb_true_iff in Hn as [Hf Hg]. unfold notIn in Hf. cbn [forallb] in Hf.
  rewrite !andb_true_iff, !negb_true_iff in Hf.
  destruct Hf as (F1 & F2 & F3 & F4 & F5 & F6 & F7 & F8 & _).
  rewrite N.eqb_sym in F1, F2, F3, F4, F5, F6, F7, F8.
  assert (Hfirst : forall c r, (c = 104 \/ c = 72) ->
            startsWith (f :: n) (60 :: c :: r) = false).
  { intros c r Hc. cbn [startsWith]. destruct (f =? 60) eqn:E60; [|reflexivity].
    cbn [negb orb] in Hg. destruct n as [|g n]; [done|].
    unfold notIn in Hg. cbn [forallb] in Hg.
    rewrite !andb_true_iff, !negb_true_iff in Hg. destruct Hg as (G1 & G2 & _).
    rewrite N.eqb_sym in G1, G2.
    cbn [startsWith andb]. destruct Hc as [-> | ->]; by rewrite ?G1, ?G2. }
  cbn [countOcc].
  rewrite (Hfirst c1) by (destruct H1; auto).
  rewrite (Hfirst 104) by auto.
  rewrite (startsWith_cons_ne f n c1) by (destruct H1 as [-> | ->]; assumption).
  rewrite (startsWith_cons_ne f n c2) by (destruct H2 as [-> | ->]; assumption).
  rewrite (startsWith_cons_ne f n c3) by (destruct H3 as [-> | ->]; assumption).
  rewrite (startsWith_cons_ne f n c4) by (destruct H4 as [-> | ->]; assumption).
  rewrite (startsWith_cons_ne f n 104), (startsWith_cons_ne f n 101),
    (startsWith_cons_ne f n 97), (startsWith_cons_ne f n 100) by assumption.
  reflexivity.
Qed.

(** ** [prepareHtmlForCordova]: the head patches *)

Lemma spanUntil_spec x s cap post :
  spanUntil x s = Some (cap, post) -> s = cap ++ x :: post /\ notIn x cap = true.
Proof.
  revert cap. induction s as [|c s IH]; intros cap; cbn [spanUntil]; [done|].
  destruct (c =? x) eqn:E.
  - intros [= <- <-]. apply N.eqb_eq in E as ->. done.
  - destruct (spanUntil x s) as [[a b]|]; [|done].
    intros [= <- <-]. destruct (IH a eq_refl) as [-> Ha].
    split; [reflexivity|]. unfold notIn in *. cbn [forallb]. by rewrite E.
Qed.

Lemma spanUntil_found x a l r : is_Some (spanUntil x (a ++ l ++ x :: r)).
Proof.
  induction a as [|c a IH]; cbn [app spanUntil].
  - induction l as [|c l IH]; cbn [app spanUntil].
    + by rewrite N.eqb_refl.
    + destruct (c =? x); [done|]. destruct IH as [[u v] ->]. done.
  - destruct (c =? x); [done|]. destruct IH as [[u v] ->]. done.
Qed.

Lemma startsWithCI_head s :
  startsWithCI (js "<head") s = true ->
  exists c1 c2 c3 c4 rest,
    s = 60 :: c1 :: c2 :: c3 :: c4 :: rest /\
    eqCI 104 c1 = true /\ eqCI 101 c2 = true /\
    eqCI 97 c3 = true /\ eqCI 100 c4 = true.
Proof.
  change (js "<head") with [60; 104; 101; 97; 100].
  destruct s as [|c0 [|c1 [|c2 [|c3 [|c4 rest]]]]]; cbn [startsWithCI];
    rewrite ?andb_false_r; try done.
  rewrite !andb_true_iff. intros (H0 & H1 & H2 & H3 & H4 & _).
  apply eqCI_bracket in H0 as ->. by exists c1, c2, c3, c4, rest.
Qed.

Lemma matchHeadAt_spec s cap post :
  matchHeadAt s = Some (cap, post) ->
  exists c1 c2 c3 c4,
    s = 60 :: c1 :: c2 :: c3 :: c4 :: cap ++ 62 :: post /\
    eqCI 104 c1 = true /\ eqCI 101 c2 = true /\
    eqCI 97 c3 = true /\ eqCI 100 c4 = true.
Proof.
  unfold matchHeadAt. destruct (startsWithCI (js "<head") s) eqn:E; [|done].
  apply startsWithCI_head in E as (c1 & c2 & c3 & c4 & rest & -> & H1 & H2 & H3 & H4).
  change (drop 5 (60 :: c1 :: c2 :: c3 :: c4 :: rest)) with rest.
  intros [-> _]%spanUntil_spec. by exists c1, c2, c3, c4.
Qed.

Lemma matchHeadAt_lower cap post :
  is_Some (matchHeadAt (60 :: 104 :: 101 :: 97 :: 100 :: cap ++ 62 :: post)).
Proof.
  unfold matchHeadAt. change (js "<head") with [60; 104; 101; 97; 100].
  cbn [startsWithCI].
  change (drop 5 (60 :: 104 :: 101 :: 97 :: 100 :: cap ++ 62 :: post))
    with (cap ++ 62 :: post).
  replace (eqCI 60 60 && (eqCI 104 104 && (eqCI 101 101 && (eqCI 97 97
             && (eqCI 100 100 && true))))) with true by reflexivity.
  apply (spanUntil_found 62 cap [] post).
Qed.

Lemma hasHeadTag_app pre s :
  s <> [] -> is_Some (matchHeadAt s) -> hasHeadTag (pre ++ s) = true.
Proof.
  intros Hs Hm. induction pre as [|c pre IH]; cbn [app].
  - destruct s as [|c s]; [done|]. cbn [hasHeadTag].
    by rewrite bool_decide_true.
  - cbn [hasHeadTag]. rewrite IH. apply orb_true_r.
Qed.

(** The two cases of the head replacement. *)
Lemma replaceHead_spec ins s :
  (hasHeadTag s = false /\ replaceHead ins s = s) \/
  (hasHeadTag s = true /\
   exists pre c1 c2 c3 c4 cap post,
     s = pre ++ 60 :: c1 :: c2 :: c3 :: c4 :: cap ++ 62 :: post /\
     eqCI 104 c1 = true /\ eqCI 101 c2 = true /\
     eqCI 97 c3 = true /\ eqCI 100 c4 = true /\
     replaceHead ins s =
       pre ++ 60 :: 104 :: 101 :: 97 :: 100 :: cap ++ 62 :: ins ++ post).
Proof.
  induction s as [|c s IH]; [by left|].
  cbn [replaceHead hasHeadTag].
  destruct (matchHeadAt (c :: s)) as [[cap post]|] eqn:E.
  - right. split; [by rewrite bool_decide_true|].
    destruct (matchHeadAt_spec _ _ _ E) as (c1 & c2 & c3 & c4 & Es & H1 & H2 & H3 & H4).
    exists [], c1, c2, c3, c4, cap, post. rewrite Es. done.
  - rewrite bool_decide_false by (by intros [? ?]). cbn [orb].
    destruct IH as [[Hh Hr]|[Hh (pre & c1 & c2 & c3 & c4 & cap & post & Es & H1 & H2 & H3 & H4 & Hr)]].
    + left. by rewrite Hr.
    + right. split; [exact Hh|].
      exists (c :: pre), c1, c2, c3, c4, cap, post. rewrite Hr, Es. done.
Qed.

Lemma replaceHead_keeps_head ins s : hasHeadTag (replaceHead ins s) = hasHeadTag s.
Proof.
  destruct (replaceHead_spec ins s)
    as [[Hh ->]|[Hh (pre & c1 & c2 & c3 & c4 & cap & post & _ & _ & _ & _ & _ & ->)]];
    [reflexivity|].
  rewrite Hh. apply hasHeadTag_app; [done|]. apply matchHeadAt_lower.
Qed.

(** An inserted tag that ends with the closing angle bracket adds its
    own occurrences of the needle and changes no other. *)
Lemma countOcc_replaceHead n ins s :
  markerOk n = true ->
  countOcc n (replaceHead (ins ++ [62]) s) =
    (countOcc n s + (if hasHeadTag s then countOcc n (ins ++ [62%N]) else 0))%nat.
Proof.
  unfold markerOk. rewrite !andb_true_iff. intros [[Hr Hl] Hs].
  assert (Hn : n <> []) by (by destruct n).
  destruct (replaceHead_spec (ins ++ [62]) s)
    as [[-> ->]|[-> (pre & c1 & c2 & c3 & c4 & cap & post & -> & H1 & H2 & H3 & H4 & ->)]];
    [lia|].
  rewrite (countOcc_sep_l n pre 60
             (c1 :: c2 :: c3 :: c4 :: cap ++ 62 :: post)) by assumption.
  rewrite (countOcc_sep_l n pre 60
             (104 :: 101 :: 97 :: 100 :: cap ++ 62 :: (ins ++ [62]) ++ post))
    by assumption.
  rewrite (countOcc_head_norm n c1 c2 c3 c4) by assumption.
  change (60 :: 104 :: 101 :: 97 :: 100 :: cap ++ 62 :: (ins ++ [62]) ++ post)
    with ((60 :: 104 :: 101 :: 97 :: 100 :: cap) ++ 62 :: (ins ++ [62]) ++ post).
  change (60 :: 104 :: 101 :: 97 :: 100 :: cap ++ 62 :: post)
    with ((60 :: 104 :: 101 :: 97 :: 100 :: cap) ++ 62 :: post).
  rewrite (countOcc_sep_r n (60 :: 104 :: 101 :: 97 :: 100 :: cap) 62
             ((ins ++ [62]) ++ post)) by assumption.
  rewrite (countOcc_sep_r n (60 :: 104 :: 101 :: 97 :: 100 :: cap) 62 post)
    by assumption.
  rewrite <- (app_assoc ins [62] post). cbn [app].
  rewrite (countOcc_sep_r n ins 62 post) by assumption. lia.
Qed.

(** ** [prepareHtmlForCordova]: the script patch *)

Lemma startsWith_spec p s :
  startsWith p s = true -> s = p ++ drop (length p) s.
Proof.
  revert s. induction p as [|a p IH]; intros s; [done|].
  destruct s as [|b s]; cbn; [done|].
  intros [->%N.eqb_eq H]%andb_true_iff. f_equal. by apply IH.
Qed.

Lemma replaceFirst_unfold pat rep s :
  replaceFirst pat rep s =
    if startsWith pat s then rep ++ drop (length pat) s
    else match s with
         | [] => []
         | c :: t => c :: replaceFirst pat rep t
         end.
Proof. by destruct s. Qed.

(** The two cases of the replacement of the first occurrence. *)
Lemma replaceFirst_spec pat rep s :
  pat <> [] ->
  (includes pat s = false /\ replaceFirst pat rep s = s) \/
  (includes pat s = true /\
   exists a post, s = a ++ pat ++ post /\ replaceFirst pat rep s = a ++ rep ++ post).
Proof.
  intros Hp. induction s as [|c s IH].
  - left. destruct pat; done.
  - rewrite replaceFirst_unfold. cbn [includes].
    destruct (startsWith pat (c :: s)) eqn:E.
    + right. split; [reflexivity|]. exists [], (drop (length pat) (c :: s)).
      split; [by apply startsWith_spec|reflexivity].
    + cbn [orb]. destruct IH as [[Hi Hr]|[Hi (a & post & -> & Hr)]].
      * left. by rewrite Hr.
      * right. split; [exact Hi|]. exists (c :: a), post. by rewrite Hr.
Qed.

Lemma cordovaScript_head : cordovaScript = 32 :: 32 :: 32 :: 32 :: drop 4 cordovaScript.
Proof. reflexivity. Qed.

Lemma bodyClose_app post : bodyClose ++ post = 60 :: (js "/body>" ++ post).
Proof. reflexivity. Qed.

(** Occurrences of a needle when the script tag is put in front of the
    closing body tag. *)
Lemma countOcc_bodyInsert n a post :
  bodyOk n = true ->
  countOcc n (a ++ cordovaScript ++ bodyClose ++ post) =
    (countOcc n (a ++ bodyClose ++ post) + countOcc n cordovaScript)%nat.
Proof.
  unfold bodyOk. rewrite !andb_true_iff, negb_true_iff. intros [[H60 H32] Hn].
  apply bool_decide_eq_false in Hn.
  rewrite bodyClose_app.
  rewrite (countOcc_sep_l n a 60 (js "/body>" ++ post)) by assumption.
  rewrite (app_assoc a cordovaScript).
  rewrite (countOcc_sep_l n (a ++ cordovaScript) 60 (js "/body>" ++ post))
    by assumption.
  rewrite cordovaScript_head at 1. cbn [app].
  rewrite (countOcc_sep_l n a 32 (32 :: 32 :: 32 :: drop 4 cordovaScript))
    by assumption.
  rewrite <- cordovaScript_head. lia.
Qed.

Lemma hasHeadTag_cons c s :
  hasHeadTag (c :: s) = bool_decide (is_Some (matchHeadAt (c :: s))) || hasHeadTag s.
Proof. reflexivity. Qed.

Lemma hasHeadTag_script s : hasHeadTag (cordovaScript ++ s) = hasHeadTag s.
Proof. reflexivity. Qed.

Lemma matchHeadAt_window c x1 x2 x3 x4 t :
  matchHeadAt (c :: x1 :: x2 :: x3 :: x4 :: t) =
    if eqCI 60 c && (eqCI 104 x1 && (eqCI 101 x2 && (eqCI 97 x3 && (eqCI 100 x4 && true))))
    then spanUntil 62 t else None.
Proof. reflexivity. Qed.

Lemma matchHeadAt_bodyInsert c a post :
  matchHeadAt (c :: a ++ bodyClose ++ post) = None ->
  matchHeadAt (c :: a ++ cordovaScript ++ bodyClose ++ post) = None.
Proof.
  rewrite cordovaScript_head.
  destruct a as [|x1 [|x2 [|x3 [|x4 a]]]]; cbn [app]; intros H.
  - rewrite matchHeadAt_window. by destruct (eqCI 60 c).
  - rewrite matchHeadAt_window. by destruct (eqCI 60 c), (eqCI 104 x1).
  - rewrite matchHeadAt_window.
    by destruct (eqCI 60 c), (eqCI 104 x1), (eqCI 101 x2).
  - rewrite matchHeadAt_window.
    by destruct (eqCI 60 c), (eqCI 104 x1), (eqCI 101 x2), (eqCI 97 x3).
  - rewrite matchHeadAt_window in H |- *.
    destruct (eqCI 60 c && _); [|reflexivity].
    exfalso.
    change (bodyClose ++ post) with ((60 :: js "/body") ++ 62 :: post) in H.
    destruct (spanUntil_found 62 a (60 :: js "/body") post) as [x Hx].
    congruence.
Qed.

Lemma hasHeadTag_bodyInsert a post :
  hasHeadTag (a ++ bodyClose ++ post) = false ->
  hasHeadTag (a ++ cordovaScript ++ bodyClose ++ post) = false.
Proof.
  induction a as [|c a IH]; cbn [app].
  - by rewrite hasHeadTag_script.
  - rewrite (hasHeadTag_cons c (a ++ bodyClose ++ post)),
      (hasHeadTag_cons c (a ++ cordovaScript ++ bodyClose ++ post)).
    rewrite !orb_false_iff. intros [Hm Hh]. split; [|by apply IH].
    apply bool_decide_eq_false in Hm. apply bool_decide_eq_false.
    rewrite matchHeadAt_bodyInsert; [by intros [? ?]|].
    by apply eq_None_not_Some.
Qed.

Lemma addCordovaJs_spec s :
  (addCordovaJs s = s /\
   (includes cordovaMarker s = true \/ includes bodyClose s = false)) \/
  (includes cordovaMarker s = false /\ includes bodyClose s = true /\
   exists a post,
     s = a ++ bodyClose ++ post /\
     addCordovaJs s = a ++ cordovaScript ++ bodyClose ++ post).
Proof.
  unfold addCordovaJs. fold cordovaMarker. fold bodyClose.
  destruct (includes cordovaMarker s) eqn:Ec; [left; by split; [|left]|].
  destruct (replaceFirst_spec bodyClose (cordovaScript ++ bodyClose) s)
    as [[Hb Hr]|[Hb (a & post & -> & Hr)]]; [done|..].
  - left. split; [exact Hr | by right].
  - right. split; [reflexivity|]. split; [exact Hb|]. exists a, post.
    split; [reflexivity|]. by rewrite Hr, <- app_assoc.
Qed.

Lemma addCordovaJs_keeps_no_head s :
  hasHeadTag s = false -> hasHeadTag (addCordovaJs s) = false.
Proof.
  intros Hh. destruct (addCordovaJs_spec s) as [[-> _]|(_ & _ & a & post & -> & ->)];
    [exact Hh|]. by apply hasHeadTag_bodyInsert.
Qed.

Lemma countOcc_addCordovaJs n s :
  bodyOk n = true ->
  countOcc n (addCordovaJs s) =
    (countOcc n s +
     (if includes cordovaMarker s then 0
      else if includes bodyClose s then countOcc n cordovaScript else 0))%nat.
Proof.
  intros Hn. destruct (addCordovaJs_spec s)
    as [[-> [-> | ->]]|(-> & -> & a & post & -> & ->)].
  - lia.
  - destruct (includes cordovaMarker s); lia.
  - by apply countOcc_bodyInsert.
Qed.

(** ** [prepareHtmlForCordova]: idempotence and the number of tags *)

Lemma countOcc_same_includes n s t :
  countOcc n s = countOcc n t -> includes n s = includes n t.
Proof. intros E. by rewrite !includes_countOcc, E. Qed.

Lemma countOcc_addViewport n s :
  markerOk n = true ->
  countOcc n (addViewport s) =
    (countOcc n s +
     (if includes viewportMarker s then 0
      else if hasHeadTag s then countOcc n viewportMeta else 0))%nat.
Proof.
  intros Hn. unfold addViewport. fold viewportMarker.
  destruct (includes viewportMarker s); [lia|].
  pose proof (countOcc_replaceHead n (removelast viewportMeta) s Hn) as E.
  change (removelast viewportMeta ++ [62]) with viewportMeta in E. exact E.
Qed.

Lemma countOcc_addCsp n s :
  markerOk n = true ->
  countOcc n (addCsp s) =
    (countOcc n s +
     (if includes cspMarker s then 0
      else if hasHeadTag s then countOcc n cspMeta else 0))%nat.
Proof.
  intros Hn. unfold addCsp. fold cspMarker.
  destruct (includes cspMarker s); [lia|].
  pose proof (countOcc_replaceHead n (removelast cspMeta) s Hn) as E.
  change (removelast cspMeta ++ [62]) with cspMeta in E. exact E.
Qed.

Lemma addViewport_keeps_head s : hasHeadTag (addViewport s) = hasHeadTag s.
Proof.
  unfold addViewport. destruct (includes _ s); [reflexivity|].
  apply replaceHead_keeps_head.
Qed.

Lemma addViewport_fixed s :
  includes viewportMarker s = true \/ hasHeadTag s = false -> addViewport s = s.
Proof.
  unfold addViewport. fold viewportMarker. intros [-> | Hh]; [reflexivity|].
  destruct (includes viewportMarker s); [reflexivity|].
  destruct (replaceHead_spec viewportMeta s) as [[_ Hr]|[Hh' _]]; [exact Hr|congruence].
Qed.

Lemma addCsp_fixed s :
  includes cspMarker s = true \/ hasHeadTag s = false -> addCsp s = s.
Proof.
  unfold addCsp. fold cspMarker. intros [-> | Hh]; [reflexivity|].
  destruct (includes cspMarker s); [reflexivity|].
  destruct (replaceHead_spec cspMeta s) as [[_ Hr]|[Hh' _]]; [exact Hr|congruence].
Qed.

Lemma addCordovaJs_fixed s :
  includes cordovaMarker s = true \/ includes bodyClose s = false ->
  addCordovaJs s = s.
Proof.
  intros H. destruct (addCordovaJs_spec s) as [[E _]|(Hc & Hb & _)]; [exact E|].
  destruct H; congruence.
Qed.

Lemma countOcc_positive_includes n s : (0 < countOcc n s)%nat -> includes n s = true.
Proof.
  intros H. rewrite includes_countOcc. apply negb_true_iff, Nat.eqb_neq. lia.
Qed.

(** The number of occurrences of each marker after the three patches. *)
Lemma prepareHtml_viewport_count H :
  countOcc viewportMarker (prepareHtmlForCordova H) =
    (countOcc viewportMarker H +
     (if includes viewportMarker H then 0 else if hasHeadTag H then 1 else 0))%nat.
Proof.
  unfold prepareHtmlForCordova.
  rewrite countOcc_addCordovaJs, countOcc_addCsp, countOcc_addViewport by reflexivity.
  change (countOcc viewportMarker cordovaScript) with 0%nat.
  change (countOcc viewportMarker cspMeta) with 0%nat.
  change (countOcc viewportMarker viewportMeta) with 1%nat.
  repeat match goal with |- context [if ?b then _ else _] => destruct b end; lia.
Qed.

Lemma prepareHtml_csp_count H :
  countOcc cspMarker (prepareHtmlForCordova H) =
    (countOcc cspMarker H +
     (if includes cspMarker H then 0 else if hasHeadTag H then 1 else 0))%nat.
Proof.
  unfold prepareHtmlForCordova.
  rewrite countOcc_addCordovaJs, countOcc_addCsp by reflexivity.
  change (countOcc cspMarker cordovaScript) with 0%nat.
  change (countOcc cspMarker cspMeta) with 1%nat.
  assert (E : countOcc cspMarker (addViewport H) = countOcc cspMarker H).
  { rewrite countOcc_addViewport by reflexivity.
    change (countOcc cspMarker viewportMeta) with 0%nat.
    repeat match goal with |- context [if ?b then _ else _] => destruct b end; lia. }
  rewrite (countOcc_same_includes _ _ _ E), E, addViewport_keeps_head.
  repeat match goal with |- context [if ?b then _ else _] => destruct b end; lia.
Qed.

Lemma prepareHtml_head_patches_keep n H :
  markerOk n = true ->
  countOcc n viewportMeta = 0%nat -> countOcc n cspMeta = 0%nat ->
  countOcc n (addCsp (addViewport H)) = countOcc n H.
Proof.
  intros Hn Hv Hc. rewrite countOcc_addCsp, countOcc_addViewport, Hv, Hc by exact Hn.
  repeat match goal with |- context [if ?b then _ else _] => destruct b end; lia.
Qed.

Lemma prepareHtml_cordova_count H :
  countOcc cordovaMarker (prepareHtmlForCordova H) =
    (countOcc cordovaMarker H +
     (if includes cordovaMarker H then 0 else if includes bodyClose H then 1 else 0))%nat.
Proof.
  unfold prepareHtmlForCordova.
  rewrite countOcc_addCordovaJs by reflexivity.
  change (countOcc cordovaMarker cordovaScript) with 1%nat.
  pose proof (prepareHtml_head_patches_keep cordovaMarker H eq_refl eq_refl eq_refl) as Ec.
  pose proof (prepareHtml_head_patches_keep bodyClose H eq_refl eq_refl eq_refl) as Eb.
  by rewrite (countOcc_same_includes _ _ _ Ec), (countOcc_same_includes _ _ _ Eb), Ec.
Qed.

Lemma prepareHtml_no_head H :
  hasHeadTag H = false -> hasHeadTag (prepareHtmlForCordova H) = false.
Proof.
  intros Hh. unfold prepareHtmlForCordova.
  rewrite (addViewport_fixed H) by (by right).
  rewrite (addCsp_fixed H) by (by right).
  by apply addCordovaJs_keeps_no_head.
Qed.

Lemma prepareHtml_idempotent H :
  prepareHtmlForCordova (prepareHtmlForCordova H) = prepareHtmlForCordova H.
Proof.
  set (K := prepareHtmlForCordova H).
  assert (Hv : includes viewportMarker K = true \/ hasHeadTag K = false).
  { destruct (hasHeadTag H) eqn:Hh; [|right; by apply prepareHtml_no_head].
    left. apply countOcc_positive_includes. subst K.
    rewrite prepareHtml_viewport_count, Hh.
    destruct (includes viewportMarker H) eqn:Ei; [|lia].
    rewrite includes_countOcc in Ei. apply negb_true_iff, Nat.eqb_neq in Ei. lia. }
  assert (Hc : includes cspMarker K = true \/ hasHeadTag K = false).
  { destruct (hasHeadTag H) eqn:Hh; [|right; by apply prepareHtml_no_head].
    left. apply countOcc_positive_includes. subst K.
    rewrite prepareHtml_csp_count, Hh.
    destruct (includes cspMarker H) eqn:Ei; [|lia].
    rewrite includes_countOcc in Ei. apply negb_true_iff, Nat.eqb_neq in Ei. lia. }
  assert (Hj : includes cordovaMarker K = true \/ includes bodyClose K = false).
  { destruct (addCordovaJs_spec (addCsp (addViewport H)))
      as [[E [Hi|Hb]]|(_ & _ & a & post & E1 & E2)].
    - left. subst K. unfold prepareHtmlForCordova. by rewrite E.
    - right. subst K. unfold prepareHtmlForCordova. by rewrite E.
    - left. apply countOcc_positive_includes. subst K.
      unfold prepareHtmlForCordova. rewrite E2.
      rewrite (countOcc_bodyInsert cordovaMarker a post eq_refl).
      change (countOcc cordovaMarker cordovaScript) with 1%nat. lia. }
  unfold prepareHtmlForCordova at 1.
  by rewrite (addViewport_fixed K Hv), (addCsp_fixed K Hc), (addCordovaJs_fixed K Hj).
Qed.

(** C4, as the code has it. [prepareHtmlForCordova] is idempotent on
    every page, and a patch acts only where its marker is absent: the
    result has as many occurrences of viewport (of
    Content-Security-Policy, of cordova.js) as the page when the page
    has one already; when it has none, the result has exactly one if
    the page has an opening head tag (for cordova.js: a closing body
    tag), and none otherwise. *)
Theorem prepareHtmlForCordova_patches H :
  prepareHtmlForCordova (prepareHtmlForCordova H) = prepareHtmlForCordova H /\
  countOcc viewportMarker (prepareHtmlForCordova H) =
    (if includes viewportMarker H then countOcc viewportMarker H
     else if hasHeadTag H then 1 else 0)%nat /\
  countOcc cspMarker (prepareHtmlForCordova H) =
    (if includes cspMarker H then countOcc cspMarker H
     else if hasHeadTag H then 1 else 0)%nat /\
  countOcc cordovaMarker (prepareHtmlForCordova H) =
    (if includes cordovaMarker H then countOcc cordovaMarker H
     else if includes bodyClose H then 1 else 0)%nat.
Proof.
  split; [apply prepareHtml_idempotent|].
  rewrite prepareHtml_viewport_count, prepareHtml_csp_count, prepareHtml_cordova_count.
  rewrite !(includes_countOcc _ H).
  repeat split;
    repeat match goal with
      | |- context [(?n =? 0)%nat] => destruct (Nat.eqb_spec n 0); cbn [negb]
      end;
    repeat match goal with
      | |- context [if ?b then _ else _] => destruct b
      end; lia.
Qed.

(** C4, as stated, fails: the page of the specification's first
    scenario has no head tag, and its result has neither a viewport nor
    a Content-Security-Policy tag. *)
Lemma prepareHtml_without_head :
  ~ (forall H,
       prepareHtmlForCordova (prepareHtmlForCordova H) = prepareHtmlForCordova H /\
       countOcc viewportMarker (prepareHtmlForCordova H) = 1%nat /\
       countOcc cspMarker (prepareHtmlForCordova H) = 1%nat /\
       countOcc cordovaMarker (prepareHtmlForCordova H) = 1%nat).
Proof.
  intros C. destruct (C helloPage) as (_ & Hv & _).
  vm_compute in Hv. discriminate.
Qed.
(** ** Work-directory names *)

Lemma removeLastIf_snoc cls a x :
  removeLastIf cls (a ++ [x]) = if cls x then a else a ++ [x].
Proof.
  induction a as [|c a IH]; [reflexivity|].
  cbn [app removeLastIf]. rewrite IH.
  destruct a as [|d a]; cbn [app]; by destruct (cls x).
Qed.

Lemma removeLastIf_rev (cls : N -> bool) (s : jsstring) :
  match rev s with
  | c :: t => if cls c then rev t else s
  | [] => s
  end = removeLastIf cls s.
Proof.
  induction s as [|c s _] using rev_ind; [reflexivity|].
  rewrite rev_app_distr, removeLastIf_snoc. cbn [rev app].
  by rewrite rev_involutive.
Qed.

Lemma noRuns_weaken cls s : noRuns cls true s = true -> noRuns cls false s = true.
Proof. destruct s as [|c t]; [done|]. cbn. by destruct (cls c). Qed.

Lemma replaceRunsFrom_noRuns cls d inRun s :
  cls d = true ->
  noRuns cls inRun (replaceRunsFrom cls [d] inRun s) = true.
Proof.
  intros Hd. revert inRun. induction s as [|c t IH]; intros inRun;
    cbn [replaceRunsFrom]; [reflexivity|].
  destruct (cls c) eqn:Hc.
  - destruct inRun; cbn [app]; [apply IH|].
    cbn [noRuns]. rewrite Hd. cbn. apply IH.
  - cbn [noRuns]. rewrite Hc. apply IH.
Qed.

Lemma replaceRunsFrom_Forall (P : N -> Prop) cls rep inRun s :
  Forall P rep -> Forall P s -> Forall P (replaceRunsFrom cls rep inRun s).
Proof.
  intros Hrep Hs. revert inRun.
  induction Hs as [|c t Hc Ht IH]; intros inRun; cbn [replaceRunsFrom]; [constructor|].
  destruct (cls c).
  - apply Forall_app. split; [by destruct inRun|apply IH].
  - constructor; [exact Hc|apply IH].
Qed.

(** A string without runs, whose characters of the class are the
    replacement itself, is left as it is. *)
Lemma replaceRunsFrom_fixed cls rep inRun s :
  Forall (fun c => cls c = true -> rep = [c]) s ->
  noRuns cls inRun s = true ->
  replaceRunsFrom cls rep inRun s = s.
Proof.
  intros Hs. revert inRun.
  induction Hs as [|c t Hc Ht IH]; intros inRun; cbn [replaceRunsFrom noRuns];
    [reflexivity|].
  destruct (cls c) eqn:E.
  - intros [Hp Hr]%andb_true_iff. destruct inRun; [done|].
    rewrite (IH true Hr), (Hc eq_refl). reflexivity.
  - intros Hr. f_equal. by apply IH.
Qed.

Lemma removeLastIf_Forall (P : N -> Prop) cls s :
  Forall P s -> Forall P (removeLastIf cls s).
Proof.
  induction 1 as [|c t Hc Ht IH]; [constructor|].
  cbn [removeLastIf]. destruct t as [|d t].
  - destruct (cls c); by repeat constructor.
  - by constructor.
Qed.

Lemma removeLastIf_noRuns cls prev s :
  noRuns cls prev s = true -> noRuns cls prev (removeLastIf cls s) = true.
Proof.
  revert prev. induction s as [|c t IH]; intros prev; [done|].
  cbn [removeLastIf]. destruct t as [|d t].
  - destruct (cls c) eqn:E; cbn; rewrite ?E; done.
  - cbn [noRuns]. destruct (cls c).
    + intros [Hp Hr]%andb_true_iff. rewrite Hp. cbn [andb]. by apply IH.
    + apply IH.
Qed.

Lemma last_snoc_N (a : jsstring) (x : N) : last (a ++ [x]) = Some x.
Proof. induction a as [|c a IH]; [reflexivity|]. cbn [app]. by destruct (a ++ [x]). Qed.

Lemma noRuns_snoc cls prev a x :
  noRuns cls prev (a ++ [x]) = true -> cls x = true -> endsOutside cls a = true.
Proof.
  revert prev. induction a as [|c a IH] using rev_ind; intros prev; [done|].
  unfold endsOutside. rewrite last_snoc_N. intros Hr Hx.
  clear IH. revert prev Hr. induction a as [|d a IH]; intros prev; cbn.
  - destruct (cls c); [|done]. rewrite Hx. cbn. by rewrite andb_false_r.
  - destruct (cls d); [intros [_ Hr]%andb_true_iff|intros Hr]; by eapply IH.
Qed.

Lemma removeLastIf_endsOutside cls prev s :
  noRuns cls prev s = true -> endsOutside cls (removeLastIf cls s) = true.
Proof.
  induction s as [|x a _] using rev_ind; [done|].
  rewrite removeLastIf_snoc. intros Hr. destruct (cls x) eqn:Hx.
  - by eapply noRuns_snoc.
  - unfold endsOutside. by rewrite last_snoc_N, Hx.
Qed.

Lemma removeLastIf_fixed cls s :
  endsOutside cls s = true -> removeLastIf cls s = s.
Proof.
  induction s as [|c t IH]; [done|].
  cbn [removeLastIf]. destruct t as [|d t].
  - unfold endsOutside. cbn. by destruct (cls c).
  - intros H. f_equal. apply IH. exact H.
Qed.

Lemma forallb_Forall_true {A} (f : A -> bool) l :
  forallb f l = true <-> Forall (fun c => f c = true) l.
Proof.
  induction l as [|c t IH]; cbn; [by split; [constructor|]|].
  rewrite andb_true_iff, Forall_cons, IH. tauto.
Qed.

Lemma trimUnderscore_safe s :
  Forall (fun c => isDirNameChar c = true) s ->
  noRuns isUnderscore false s = true ->
  trimUnderscore s <> [] ->
  isSafeDirName (trimUnderscore s) = true.
Proof.
  intros Hs Hr. unfold trimUnderscore.
  set (s1 := match s with c :: t => if isUnderscore c then t else s | [] => [] end).
  assert (H1 : Forall (fun c => isDirNameChar c = true) s1 /\
               noRuns isUnderscore true s1 = true).
  { subst s1. destruct s as [|c t]; [done|].
    revert Hr. cbn [noRuns]. destruct (isUnderscore c) eqn:E.
    - cbn. intros Hr. split; [by inversion Hs|exact Hr].
    - intros Hr. split; [exact Hs|]. cbn [noRuns]. by rewrite E. }
  destruct H1 as [Hc1 Hr1]. rewrite (removeLastIf_rev isUnderscore s1).
  intros Hne. unfold isSafeDirName.
  rewrite bool_decide_eq_false_2 by exact Hne. cbn [negb andb].
  rewrite (removeLastIf_noRuns _ _ _ Hr1), (removeLastIf_endsOutside _ _ _ Hr1).
  rewrite !andb_true_r. apply forallb_Forall_true, removeLastIf_Forall, Hc1.
Qed.

Lemma sanitizeDirName_safe name : isSafeDirName (sanitizeDirName name) = true.
Proof.
  unfold sanitizeDirName.
  set (m := map _ name).
  assert (Hm : Forall (fun c => isDirNameChar c = true) m).
  { subst m. apply Forall_map, Forall_true. intros c. cbn.
    by destruct (isDirNameChar c) eqn:E. }
  pose proof (trimUnderscore_safe (replaceRuns isUnderscore (js "_") m)) as Ht.
  destruct (trimUnderscore (replaceRuns isUnderscore (js "_") m)) as [|x r] eqn:E;
    [reflexivity|].
  cbn [orElse]. apply Ht; [|apply (replaceRunsFrom_noRuns isUnderscore 95); reflexivity|done].
  apply replaceRunsFrom_Forall; [by repeat constructor|exact Hm].
Qed.

(** What a safe name is, character by character. *)
Lemma isSafeDirName_spec s :
  isSafeDirName s = true <->
  s <> [] /\ Forall (fun c => isDirNameChar c = true) s /\
  noRuns isUnderscore true s = true /\ endsOutside isUnderscore s = true.
Proof.
  unfold isSafeDirName. rewrite !andb_true_iff, negb_true_iff, bool_decide_eq_false.
  rewrite forallb_Forall_true. tauto.
Qed.

Lemma sanitizeDirName_fixed s : isSafeDirName s = true -> sanitizeDirName s = s.
Proof.
  intros (Hne & Hc & Hr & He)%isSafeDirName_spec. unfold sanitizeDirName.
  assert (Hm : map (fun c => if isDirNameChar c then c else 95) s = s).
  { clear -Hc. induction Hc as [|c t Hc Ht IH]; [reflexivity|].
    cbn [map]. by rewrite Hc, IH. }
  rewrite Hm. unfold replaceRuns.
  rewrite replaceRunsFrom_fixed; [| |by apply noRuns_weaken].
  - unfold trimUnderscore.
    assert (H1 : match s with c :: t => if isUnderscore c then t else s | [] => [] end = s).
    { destruct s as [|c t]; [done|]. revert Hr. cbn [noRuns].
      by destruct (isUnderscore c). }
    rewrite H1, (removeLastIf_rev isUnderscore s), (removeLastIf_fixed _ _ He).
    by destruct s.
  - apply Forall_true. intros c Hu. apply N.eqb_eq in Hu. by subst c.
Qed.

(** X1. The work-directory name that both builders derive from the app
    name is never empty and consists of ASCII letters, digits,
    underscores, dots and hyphens only, so it holds no path separator,
    no space and no character outside ASCII; it neither starts nor ends
    with an underscore. *)
Theorem sanitizeDirName_safe_name name :
  sanitizeDirName name <> [] /\
  Forall (fun c => isDirNameChar c = true) (sanitizeDirName name) /\
  Forall (fun c => c < 128 /\ c <> 47 /\ c <> 32) (sanitizeDirName name) /\
  head (sanitizeDirName name) <> Some 95 /\
  last (sanitizeDirName name) <> Some 95.
Proof.
  pose proof (sanitizeDirName_safe name) as Hs.
  apply isSafeDirName_spec in Hs as (Hne & Hc & Hr & He).
  split; [exact Hne|]. split; [exact Hc|]. split; [|split].
  - eapply Forall_impl; [exact Hc|]. intros c. unfold isDirNameChar, isWordChar,
      isAlnum, isLower, isUpper, isDigit.
    rewrite !orb_true_iff, !andb_true_iff, !N.leb_le, !N.eqb_eq. lia.
  - destruct (sanitizeDirName name) as [|c t]; [done|].
    cbn in Hr |- *. intros [= ->]. by cbn in Hr.
  - unfold endsOutside in He. destruct (last (sanitizeDirName name)) as [c|]; [|done].
    intros [= ->]. by cbn in He.
Qed.

(** X2. [sanitizeDirName] is idempotent, and the names it returns
    unchanged are exactly the safe ones: non-empty, of the characters
    above, without two underscores in a row and without an underscore at
    either end. *)
Theorem sanitizeDirName_idempotent :
  (forall name, sanitizeDirName (sanitizeDirName name) = sanitizeDirName name) /\
  (forall s, sanitizeDirName s = s <-> isSafeDirName s = true).
Proof.
  split.
  - intros name. apply sanitizeDirName_fixed, sanitizeDirName_safe.
  - intros s. split; [|apply sanitizeDirName_fixed].
    intros <-. apply sanitizeDirName_safe.
Qed.
(** ** Identifiers that [generateAppId] leaves alone *)

Lemma okChar_range c :
  okChar c = true -> c <= 122 /\ (c < 65 \/ 90 < c).
Proof.
  unfold okChar, isLowerAlnum, isLower, isDigit, isDot.
  rewrite !orb_true_iff, !andb_true_iff, !N.leb_le, !N.eqb_eq. lia.
Qed.

Lemma StringToCodePoints_bmp s :
  Forall (fun c => isLeadSurrogate c = false) s -> StringToCodePoints s = s.
Proof.
  induction 1 as [|c t Hc Ht IH]; [reflexivity|].
  cbn [StringToCodePoints]. destruct t as [|lo t]; [reflexivity|].
  rewrite Hc. cbn [andb]. by rewrite IH.
Qed.

Lemma lowerCodePoints_fixed unicodeLower before s :
  Forall (fun c => isUpper c = false /\ c < 128) s ->
  lowerCodePoints unicodeLower before s = s.
Proof.
  intros Hs. revert before.
  induction Hs as [|c t [Hu Hc] Ht IH]; intros before; [reflexivity|].
  cbn [lowerCodePoints]. unfold lowerCodePoint. rewrite Hu.
  apply N.ltb_lt in Hc. rewrite Hc. cbn [app]. by rewrite IH.
Qed.

Lemma CodePointsToString_bmp s :
  Forall (fun c => c < 0x10000) s -> CodePointsToString s = s.
Proof.
  unfold CodePointsToString.
  induction 1 as [|c t Hc Ht IH]; [reflexivity|].
  cbn [map concat]. unfold codePointToUnits at 1.
  apply N.ltb_lt in Hc. rewrite Hc. cbn [app]. by rewrite IH.
Qed.

Lemma toLowerCase_fixed unicodeLower s :
  Forall (fun c => okChar c = true) s -> toLowerCase unicodeLower s = s.
Proof.
  intros Hs. unfold toLowerCase.
  rewrite StringToCodePoints_bmp, lowerCodePoints_fixed, CodePointsToString_bmp;
    [reflexivity|..]; (eapply Forall_impl; [exact Hs|]); intros c Hc;
    apply okChar_range in Hc.
  - lia.
  - split; [|lia]. unfold isUpper. apply andb_false_iff.
    rewrite !N.leb_gt. lia.
  - unfold isLeadSurrogate. apply andb_false_iff. rewrite !N.leb_gt. lia.
Qed.

(** What the automaton of the pattern accepts: characters of [a-z0-9.]
    only, every dot followed by a letter, and no dot at the end. *)
Lemma segmentsFrom_inv inSegment s :
  segmentsFrom inSegment s = true ->
  Forall (fun c => okChar c = true) s /\
  noRuns (fun c => negb (isLowerAlnum c)) (negb inSegment) s = true /\
  noRuns isDot (negb inSegment) s = true /\
  endsOutside isDot (if inSegment then 97 :: s else s) = true /\
  (inSegment = false -> dropWhile isDot s = s /\ s <> []).
Proof.
  revert inSegment. induction s as [|c t IH]; intros inSegment.
  - cbn. intros ->. by repeat split.
  - cbn [segmentsFrom noRuns dropWhile]. destruct inSegment.
    + destruct (isLowerAlnum c) eqn:Ha.
      * assert (Hd : isDot c = false).
        { revert Ha. unfold isLowerAlnum, isLower, isDigit, isDot.
          rewrite !orb_true_iff, !andb_true_iff, !N.leb_le, N.eqb_neq. lia. }
        intros (Hc & Hr & Hr' & He & _)%IH. rewrite Hd. cbn [negb] in *.
        split; [constructor; [unfold okChar; by rewrite Ha|exact Hc]|].
        split; [exact Hr|]. split; [exact Hr'|]. split; [|done].
        revert He. unfold endsOutside. cbn. destruct t; cbn; [by rewrite Hd|done].
      * destruct (isDot c) eqn:Hd; [|done].
        intros (Hc & Hr & Hr' & He & Hh)%IH. cbn [negb andb] in *.
        destruct (Hh eq_refl) as [_ Hne].
        split; [constructor; [unfold okChar; by rewrite Hd, orb_true_r|exact Hc]|].
        split; [exact Hr|]. split; [exact Hr'|]. split; [|done].
        revert He. unfold endsOutside. cbn. by destruct t.
    + destruct (isLower c) eqn:Hl; [|done].
      assert (Ha : isLowerAlnum c = true) by (unfold isLowerAlnum; by rewrite Hl).
      assert (Hd : isDot c = false).
      { revert Ha. unfold isLowerAlnum, isLower, isDigit, isDot.
        rewrite !orb_true_iff, !andb_true_iff, !N.leb_le, N.eqb_neq. lia. }
      intros (Hc & Hr & Hr' & He & _)%IH. rewrite Ha, Hd. cbn [negb] in *.
      split; [constructor; [unfold okChar; by rewrite Ha|exact Hc]|].
      split; [exact Hr|]. split; [exact Hr'|]. split; [|done].
      revert He. unfold endsOutside. cbn. destruct t; cbn; [by rewrite Hd|done].
Qed.

Lemma segmentsFrom_parts inSegment s :
  segmentsFrom inSegment s = true ->
  match splitOn 46 s with
  | p :: ps =>
      (inSegment = false -> exists c r, p = c :: r /\ isLower c = true) /\
      Forall (fun q => exists c r, q = c :: r /\ isLower c = true) ps
  | [] => False
  end.
Proof.
  revert inSegment. induction s as [|c t IH]; intros inSegment.
  - cbn. intros ->. split; [done|constructor].
  - cbn [segmentsFrom splitOn]. destruct inSegment.
    + destruct (isLowerAlnum c) eqn:Ha.
      * assert (Hd : (c =? 46) = false).
        { revert Ha. unfold isLowerAlnum, isLower, isDigit.
          rewrite !orb_true_iff, !andb_true_iff, !N.leb_le, N.eqb_neq. lia. }
        rewrite Hd. intros H%IH. destruct (splitOn 46 t) as [|p ps]; [done|].
        split; [done|apply H].
      * unfold isDot. destruct (c =? 46); [|done].
        intros H%IH. destruct (splitOn 46 t) as [|p ps]; [done|].
        split; [done|]. destruct H as [Hp Hps]. constructor; [by apply Hp|exact Hps].
    + destruct (isLower c) eqn:Hl; [|done].
      assert (Hd : (c =? 46) = false).
      { revert Hl. unfold isLower. rewrite !andb_true_iff, !N.leb_le, N.eqb_neq. lia. }
      rewrite Hd. intros H%IH. destruct (splitOn 46 t) as [|p ps]; [done|].
      split; [by eauto|apply H].
Qed.

Lemma joinWith_cons sep p q ps :
  joinWith sep (p :: q :: ps) = p ++ sep ++ joinWith sep (q :: ps).
Proof. reflexivity. Qed.

Lemma joinWith_splitOn sep s : joinWith [sep] (splitOn sep s) = s.
Proof.
  induction s as [|c t IH]; [reflexivity|].
  cbn [splitOn]. destruct (N.eqb_spec c sep) as [->|Hne].
  - pose proof (splitOn_nonempty sep t) as Hn.
    destruct (splitOn sep t) as [|p ps]; [done|].
    rewrite joinWith_cons, IH. reflexivity.
  - destruct (splitOn sep t) as [|p ps] eqn:E; [by destruct (splitOn_nonempty sep t)|].
    destruct ps as [|p' ps].
    + cbn in IH |- *. by rewrite IH.
    + rewrite joinWith_cons. rewrite joinWith_cons in IH. rewrite <- IH. reflexivity.
Qed.

Lemma dropEnd_fixed cls s : endsOutside cls s = true -> dropEnd cls s = s.
Proof.
  induction s as [|c t IH]; [reflexivity|].
  cbn [dropEnd]. destruct t as [|d t].
  - unfold endsOutside. cbn. by destruct (cls c).
  - intros H. rewrite IH by exact H. reflexivity.
Qed.

(** X3. An app name that is already a dot-separated sequence of
    segments, each a letter of a-z followed by letters of a-z and
    digits, is used as it is: [generateAppId] only puts its prefix in
    front, whatever the lower-case table of the runtime. *)
Theorem generateAppId_keeps_valid_suffix
    (unicodeLower : list N -> N -> list N -> list N) (s : jsstring) :
  segmentsFrom false s = true ->
  generateAppId unicodeLower s = js "com.vibecoding." ++ s.
Proof.
  intros Hs. pose proof (segmentsFrom_parts _ _ Hs) as Hp.
  apply segmentsFrom_inv in Hs as (Hc & Hr & Hr' & He & Hh).
  destruct (Hh eq_refl) as [Hdrop Hne]. cbn [negb] in *.
  unfold generateAppId. rewrite (toLowerCase_fixed _ _ Hc).
  unfold replaceRuns.
  rewrite (replaceRunsFrom_fixed (fun c => negb (isLowerAlnum c))); [| |by apply noRuns_weaken].
  2:{ eapply Forall_impl; [exact Hc|]. intros c Ho Ha. revert Ho.
      unfold okChar. apply negb_true_iff in Ha. rewrite Ha. cbn.
      unfold isDot. by intros ->%N.eqb_eq. }
  rewrite (replaceRunsFrom_fixed isDot); [| |by apply noRuns_weaken].
  2:{ apply Forall_true. intros c Hd. apply N.eqb_eq in Hd. by subst c. }
  unfold stripRuns. rewrite dropEnd_rev, Hdrop, (dropEnd_fixed _ _ He).
  assert (Hfix : imap fixPart (splitOn 46 s) = splitOn 46 s).
  { destruct (splitOn 46 s) as [|p ps]; [done|]. destruct Hp as [Hp Hps].
    assert (Hall : Forall (fun q => exists c r, q = c :: r /\ isLower c = true) (p :: ps))
      by (constructor; [by apply Hp|exact Hps]).
    clear -Hall. transitivity (imap (const (@Datatypes.id jsstring)) (p :: ps)).
    - apply imap_ext. intros i x Hx. rewrite Forall_forall in Hall.
      destruct (Hall x (list_elem_of_lookup_2 _ _ _ Hx)) as (c & r & -> & Hl).
      cbn. by rewrite Hl.
    - rewrite imap_const. apply list_fmap_id. }
  destruct s as [|c0 r0] eqn:Es; [done|]. rewrite <- Es in *.
  rewrite Hfix. f_equal. apply (joinWith_splitOn 46).
Qed.

Lemma generateAppId_keeps_valid_suffix_witness :
  generateAppId (fun _ c _ => [c]) (js "my.app2") = js "com.vibecoding.my.app2".
Proof.
  apply (generateAppId_keeps_valid_suffix (fun _ c _ => [c]) (js "my.app2")).
  reflexivity.
Defined.
(** ** The queue: cancelling and queue positions *)

Lemma findIndex_lookup taskId ids k :
  NoDup ids -> ids !! k = Some taskId -> findIndex taskId ids = Some k.
Proof.
  intros Hnd. revert k. induction Hnd as [|i rest Hi Hnd IH]; intros k; [done|].
  destruct k as [|k]; cbn.
  - intros [= ->]. by rewrite bool_decide_true.
  - intros Hk. rewrite bool_decide_false.
    + by rewrite (IH k Hk).
    + intros ->. apply Hi. by eapply list_elem_of_lookup_2.
Qed.

Lemma findIndex_None taskId ids : taskId ∉ ids -> findIndex taskId ids = None.
Proof.
  induction ids as [|i rest IH]; [done|]. intros Hn. cbn.
  rewrite bool_decide_false by (intros ->; apply Hn; left).
  rewrite IH; [done|]. intros H. apply Hn. by right.
Qed.

Lemma findIndex_Some taskId ids k :
  findIndex taskId ids = Some k -> ids !! k = Some taskId.
Proof.
  revert k. induction ids as [|i rest IH]; intros k; [done|]. cbn.
  case_bool_decide as E.
  - intros [= <-]. by rewrite E.
  - destruct (findIndex taskId rest) as [j|]; [|done].
    intros [= <-]. cbn. by apply IH.
Qed.

(** X4. [removeJob] refuses exactly when the job is missing or is being
    built, and then the queue is as it was; otherwise the job is gone
    from the records and from the waiting list, and every other job
    keeps its record, its status and its place among the waiting
    jobs. *)
Theorem removeJob_spec q taskId :
  ((removeJob q taskId).1 = false <->
   (getJob q taskId = None \/
    exists job, getJob q taskId = Some job /\ state job = Active)) /\
  ((removeJob q taskId).1 = false -> (removeJob q taskId).2 = q) /\
  ((removeJob q taskId).1 = true ->
   getJob (removeJob q taskId).2 taskId = None /\
   st_status (getJobStatus (removeJob q taskId).2 taskId) = not_found /\
   (taskId ∉ waitList (removeJob q taskId).2) /\
   (forall other, other <> taskId ->
      getJob (removeJob q taskId).2 other = getJob q other /\
      st_status (getJobStatus (removeJob q taskId).2 other)
        = st_status (getJobStatus q other) /\
      (other ∈ waitList (removeJob q taskId).2 <-> other ∈ waitList q))).
Proof.
  unfold removeJob. destruct (getJob q taskId) as [job|] eqn:Hjob.
  - assert (Hrest :
      getJob {| jobs := delete taskId (jobs q);
                waitList := filter (fun i => i <> taskId) (waitList q);
                activeList := activeList q |} taskId = None /\
      st_status (getJobStatus
                   {| jobs := delete taskId (jobs q);
                      waitList := filter (fun i => i <> taskId) (waitList q);
                      activeList := activeList q |} taskId) = not_found /\
      (taskId ∉ filter (fun i => i <> taskId) (waitList q)) /\
      (forall other, other <> taskId ->
         getJob {| jobs := delete taskId (jobs q);
                   waitList := filter (fun i => i <> taskId) (waitList q);
                   activeList := activeList q |} other = getJob q other /\
         st_status (getJobStatus
                      {| jobs := delete taskId (jobs q);
                         waitList := filter (fun i => i <> taskId) (waitList q);
                         activeList := activeList q |} other)
           = st_status (getJobStatus q other) /\
         (other ∈ filter (fun i => i <> taskId) (waitList q) <-> other ∈ waitList q))).
    { assert (Hg : forall other, other <> taskId ->
                getJob {| jobs := delete taskId (jobs q);
                          waitList := filter (fun i => i <> taskId) (waitList q);
                          activeList := activeList q |} other = getJob q other).
      { intros other Ho. unfold getJob. cbn. by apply lookup_delete_ne. }
      assert (Hn : getJob {| jobs := delete taskId (jobs q);
                             waitList := filter (fun i => i <> taskId) (waitList q);
                             activeList := activeList q |} taskId = None).
      { unfold getJob. cbn. apply lookup_delete_eq. }
      split; [exact Hn|]. split; [unfold getJobStatus; by rewrite Hn|].
      split; [rewrite list_elem_of_filter; tauto|].
      intros other Ho. split; [by apply Hg|]. split.
      - unfold getJobStatus. rewrite (Hg other Ho).
        destruct (getJob q other) as [j|]; [|done]. by destruct (state j).
      - rewrite list_elem_of_filter. tauto. }
    destruct (state job) eqn:Hst; cbn [fst snd].
    all: split; [split; [try done; intros _; right; by exists job
                        |try done; intros [?|(j & [= <-] & Hj)]; congruence]|].
    all: split; [try done|]; intros Ht; try done; exact Hrest.
  - cbn. split; [split; [by left|done]|]. split; done.
Qed.

(** X5. The queue position that is reported for a waiting job: its
    place in the waiting list, counted from 1, when it is among the
    first 101 waiting jobs, and 1 when it is further back or not in the
    list at all. *)
Theorem queuePosition_reported q taskId job :
  getJob q taskId = Some job ->
  state job = Waiting ->
  NoDup (waitList q) ->
  (forall k, waitList q !! k = Some taskId ->
     st_queuePosition (getJobStatus q taskId)
       = Some (if (k <? 101)%nat then S k else 1%nat)) /\
  (taskId ∉ waitList q ->
     st_queuePosition (getJobStatus q taskId) = Some 1%nat) /\
  st_queueTotal (getJobStatus q taskId)
    = Some (length (waitList q) + length (activeList q))%nat.
Proof.
  intros Hjob Hst Hnd. unfold getJobStatus. rewrite Hjob, Hst.
  cbn [st_queuePosition st_queueTotal getQueueStats fst snd].
  split; [|split; [|done]].
  - intros k Hk. unfold getJobPosition. f_equal.
    destruct (Nat.ltb_spec k 101) as [Hlt|Hge].
    + rewrite (findIndex_lookup taskId _ k); [done|by apply (sublist_NoDup _ _ Hnd), sublist_take|].
      by rewrite lookup_take_lt.
    + rewrite findIndex_None; [done|].
      intros (j & Hj & Hlt)%elem_of_take.
      pose proof (NoDup_lookup _ _ _ _ Hnd Hj Hk). lia.
  - intros Hn. unfold getJobPosition. rewrite findIndex_None; [done|].
    intros (j & Hj & _)%elem_of_take. apply Hn. by eapply list_elem_of_lookup_2.
Qed.

Lemma queuePosition_reported_witness :
  st_queuePosition (getJobStatus twoWaiting (js "bbbbbbbbbbbb")) = Some 2%nat.
Proof.
  assert (Hj : exists job, getJob twoWaiting (js "bbbbbbbbbbbb") = Some job /\
                           state job = Waiting).
  { eexists. split; [vm_compute; reflexivity|reflexivity]. }
  destruct Hj as (job & Hjob & Hst).
  assert (Hnd : NoDup (waitList twoWaiting)).
  { change (waitList twoWaiting) with [js "aaaaaaaaaaaa"; js "bbbbbbbbbbbb"].
    apply NoDup_cons. split; [|apply NoDup_singleton].
    intros H%list_elem_of_singleton. discriminate H. }
  exact (proj1 (queuePosition_reported twoWaiting (js "bbbbbbbbbbbb") job Hjob Hst Hnd)
           1%nat eq_refl).
Defined.
(** ** How the status, download and log routes fit together *)

(** What the download route needs of a job: it completed, its result is
    a success and names a package path. *)
Lemma download_package q taskId :
  (st_status (getJobStatus q taskId) = completed /\
   exists r p, st_result (getJobStatus q taskId) = Some r /\
               success r = true /\ apkPath r = Some p /\ p <> []) <->
  exists job r p,
    getJob q taskId = Some job /\ state job = Completed /\
    returnvalue job = Some r /\ success r = true /\ apkPath r = Some p /\ p <> [].
Proof.
  unfold getJobStatus. destruct (getJob q taskId) as [job|] eqn:Hjob.
  - destruct (state job) eqn:Hst; cbn.
    1: { split.
         - intros (_ & r & p & Hr & H). by exists job, r, p.
         - intros (j & r & p & [= <-] & _ & Hr & H). split; [done|]. by exists r, p. }
    all: split; [by intros [? _]|intros (j & r & p & [= <-] & ? & _); congruence].
  - cbn. split; [by intros [? _]|by intros (j & r & p & ? & _)].
Qed.

(** X6. The replies of the download route. A 200 is only sent for a job
    that completed with a successful result naming a package path, when
    the file at that path exists; the reply then streams that path with
    the package content type. A missing job is answered with 404, a job
    that is not completed with 400 and its current status, a completed
    job without a successful result and a path with 400, and a package
    that is no longer there with 404. Whether a 200 that the handler
    sends reaches the client depends on the transport as well (the
    header value must be acceptable to it and the path must be a
    readable file), so the theorem says what a 200 implies, not when one
    arrives. *)
Theorem download_replies q fs taskId :
  (forall resp, downloadRoute q fs taskId = Ok200 resp ->
     contentType resp = js "application/vnd.android.package-archive" /\
     is_Some (fs !! streamPath resp) /\
     exists job r,
       getJob q taskId = Some job /\ state job = Completed /\
       returnvalue job = Some r /\ success r = true /\
       apkPath r = Some (streamPath resp) /\ streamPath resp <> []) /\
  (getJob q taskId = None ->
   downloadRoute q fs taskId
     = ReplyError 404 (js "Not Found") (js "Task " ++ taskId ++ js " not found")) /\
  (forall job, getJob q taskId = Some job -> state job <> Completed ->
     st_status (getJobStatus q taskId) ∈ [pending; active; failed] /\
     downloadRoute q fs taskId
       = ReplyError 400 (js "Bad Request")
           (js "Task " ++ taskId ++ js " is not completed yet. Current status: "
              ++ statusName (st_status (getJobStatus q taskId)))) /\
  (forall job, getJob q taskId = Some job -> state job = Completed ->
     (returnvalue job = None \/
      exists r, returnvalue job = Some r /\
                (success r = false \/ truthy (apkPath r) = None)) ->
     downloadRoute q fs taskId
       = ReplyError 400 (js "Bad Request")
           (js "Build failed, no APK available for download")) /\
  (forall job r p,
     getJob q taskId = Some job -> state job = Completed ->
     returnvalue job = Some r -> success r = true -> truthy (apkPath r) = Some p ->
     fs !! p = None ->
     downloadRoute q fs taskId
       = ReplyError 404 (js "Not Found")
           (js "APK file not found. It may have been cleaned up.")).
Proof.
  split; [|split; [|split; [|split]]].
  - intros resp. unfold downloadRoute.
    case_bool_decide as Hnf; [done|]. case_bool_decide as Hc; [done|].
    destruct (st_result (getJobStatus q taskId)) as [r|] eqn:Hr; [|done]. cbn.
    destruct (success r) eqn:Hs; [|done].
    destruct (apkPath r) as [[|c p]|] eqn:Hp; [done| |done]. cbn.
    unfold apkExists, pathExists. case_bool_decide as Hex; [|done]. cbn.
    destruct (encodeURIComponent (downloadFilename (c :: p))) as [enc|] eqn:He; [|done].
    intros [= <-]. cbn. split; [done|]. split; [done|].
    destruct (proj1 (download_package q taskId)) as (job & r' & p' & Hj & Hst & Hrv & H).
    { split; [done|]. by exists r, (c :: p). }
    exists job, r'. unfold getJobStatus in Hr. rewrite Hj, Hst in Hr. cbn in Hr.
    assert (r' = r) as -> by congruence. by repeat split.
  - intros Hjob. unfold downloadRoute, getJobStatus. rewrite Hjob. cbn.
    by rewrite bool_decide_true.
  - intros job Hjob Hst. unfold downloadRoute, getJobStatus. rewrite Hjob.
    destruct (state job); try done;
      cbn [st_status]; rewrite bool_decide_false by done;
      rewrite bool_decide_true by done;
      (split; [|reflexivity]); rewrite !elem_of_cons; tauto.
  - intros job Hjob Hst Hres.
    assert (Hs1 : st_status (getJobStatus q taskId) = completed)
      by (unfold getJobStatus; by rewrite Hjob, Hst).
    assert (Hr1 : st_result (getJobStatus q taskId) = returnvalue job)
      by (unfold getJobStatus; by rewrite Hjob, Hst).
    unfold downloadRoute. rewrite Hs1, Hr1.
    rewrite bool_decide_false by done.
    rewrite bool_decide_false by (intros H; by apply H).
    destruct Hres as [->|(r & -> & [Hs|Hp])]; cbn [mbind option_bind]; [done| |].
    + by rewrite Hs.
    + rewrite Hp. by destruct (success r).
  - intros job r p Hjob Hst Hr Hs Hp Hex.
    assert (Hs1 : st_status (getJobStatus q taskId) = completed)
      by (unfold getJobStatus; by rewrite Hjob, Hst).
    assert (Hr1 : st_result (getJobStatus q taskId) = Some r)
      by (unfold getJobStatus; by rewrite Hjob, Hst).
    unfold downloadRoute. rewrite Hs1, Hr1.
    rewrite bool_decide_false by done.
    rewrite bool_decide_false by (intros H; by apply H).
    cbn [mbind option_bind]. rewrite Hs, Hp.
    unfold apkExists, pathExists.
    rewrite bool_decide_false by (rewrite Hex; by intros [? ?]). done.
Qed.

(** X7. The status route and the download route agree. A 200 of the
    status route either carries the download link, and then the status
    is completed, the link is the path of the download route, and the
    download route does not answer 400; or carries none, and then the
    download route answers 400. *)
Theorem status_download_agree config dateParse q fs taskId resp :
  statusRoute config dateParse q fs taskId = Ok200 resp ->
  (resp_downloadUrl resp = Some (js "/api/build/" ++ taskId ++ js "/download") /\
   resp_status resp = completed /\
   forall code err msg,
     downloadRoute q fs taskId = ReplyError code err msg -> code <> 400%nat) \/
  (resp_downloadUrl resp = None /\
   exists msg, downloadRoute q fs taskId = ReplyError 400 (js "Bad Request") msg).
Proof.
  unfold statusRoute, downloadRoute.
  destruct (getJobStatus q taskId) as [s pr res er cr an qp qt]. cbn.
  case_bool_decide as Hnf; [done|]. intros [= <-]. cbn.
  destruct s; try done.
  1,2,4: right; split; [done|]; rewrite bool_decide_true by done; by eexists.
  rewrite bool_decide_false by (by intros H; apply H).
  destruct res as [r|]; cbn; [|right; split; [done|by eexists]].
  destruct (success r); cbn; [|right; split; [done|by eexists]].
  destruct (apkPath r) as [[|c p]|]; cbn; [right; split; [done|by eexists]|
                                           |right; split; [done|by eexists]].
  left. split; [done|]. split; [done|]. intros code err msg.
  destruct (apkExists fs (c :: p)); cbn; [|by intros [= <- _ _]].
  destruct (encodeURIComponent _); [done|]. by intros [= <- _ _].
Qed.

Lemma status_download_agree_witness :
  (resp_downloadUrl
     {| resp_taskId := js "V1StGXR8_Z5j"; resp_status := completed;
        resp_fileName := Some (js "MyApp"); resp_expiresAt := None;
        resp_retentionHours := 2; resp_progress := None;
        resp_queuePosition := None; resp_queueTotal := None;
        resp_result := Some (true, Some 93000%Z);
        resp_downloadUrl := Some (js "/api/build/V1StGXR8_Z5j/download");
        resp_apkSize := Some 4096%Z; resp_error := None |}
     = Some (js "/api/build/" ++ js "V1StGXR8_Z5j" ++ js "/download") /\
   completed = completed /\
   forall code err msg,
     downloadRoute completedQueue sampleFiles (js "V1StGXR8_Z5j")
       = ReplyError code err msg -> code <> 400%nat) \/
  (Some (js "/api/build/V1StGXR8_Z5j/download") = None /\
   exists msg,
     downloadRoute completedQueue sampleFiles (js "V1StGXR8_Z5j")
       = ReplyError 400 (js "Bad Request") msg).
Proof.
  apply (status_download_agree sampleConfig noDate completedQueue sampleFiles
           (js "V1StGXR8_Z5j")).
  vm_compute. reflexivity.
Defined.

(** X8. The log route and the status route report the same status for
    every job, with one exception: a job that completed with an
    unsuccessful result is failed for the status route and completed for
    the log route, which then shows no error. Both answer 404 for a
    missing job. *)
Theorem logs_status_agree config dateParse q fs taskId :
  match statusRoute config dateParse q fs taskId, logsRoute q taskId with
  | Ok200 s, Ok200 l =>
      is_Some (getJob q taskId) /\
      log_currentProgress l = resp_progress s /\
      (log_status l = resp_status s \/
       (resp_status s = failed /\ log_status l = completed /\ log_error l = None /\
        exists job r, getJob q taskId = Some job /\ state job = Completed /\
                      returnvalue job = Some r /\ success r = false))
  | ReplyError c1 e1 m1, ReplyError c2 e2 m2 =>
      getJob q taskId = None /\ c1 = 404%nat /\ c2 = 404%nat /\ e1 = e2 /\ m1 = m2
  | _, _ => False
  end.
Proof.
  unfold statusRoute, logsRoute, getJobStatus.
  destruct (getJob q taskId) as [job|] eqn:Hjob; [|by cbn].
  destruct (state job) eqn:Hst; cbn; try (split; [done|split; [done|by left]]).
  destruct (returnvalue job) as [r|] eqn:Hr; cbn; [|split; [done|split; [done|by left]]].
  destruct (success r) eqn:Hs; cbn; (split; [done|split; [done|]]); [by left|].
  right. split; [done|]. split; [done|]. split; [done|]. by exists job, r.
Qed.
(** ** Submissions: what the build routes accept and leave behind *)

Lemma startsWith_app a b : startsWith a (a ++ b) = true.
Proof. induction a as [|c a IH]; [reflexivity|]. cbn. by rewrite N.eqb_refl, IH. Qed.

Lemma isUnder_child d f : isUnder d (pathJoin d f) = true.
Proof.
  unfold isUnder, pathJoin. rewrite app_assoc, startsWith_app. apply orb_true_r.
Qed.

Lemma isUnder_self d : isUnder d d = true.
Proof. unfold isUnder. by rewrite bool_decide_true. Qed.

Lemma saveUploadedFile_spec (sc : StorageConfig) (fs : FileSystem) (buf : list N)
    (filename tid : jsstring) :
  (saveUploadedFile sc fs buf filename tid).1
    = pathJoin (pathJoin (sc_uploadsDir sc) tid) filename /\
  (saveUploadedFile sc fs buf filename tid).2
    !! pathJoin (pathJoin (sc_uploadsDir sc) tid) filename
    = Some {| isDirectory := false; size := Z.of_nat (length buf) |} /\
  is_Some ((saveUploadedFile sc fs buf filename tid).2
             !! pathJoin (sc_uploadsDir sc) tid) /\
  (forall p, is_Some (fs !! p) ->
     is_Some ((saveUploadedFile sc fs buf filename tid).2 !! p)) /\
  (forall p, isUnder (pathJoin (sc_uploadsDir sc) tid) p = false ->
     (saveUploadedFile sc fs buf filename tid).2 !! p = fs !! p) /\
  (forall p e, fs !! p = Some e ->
     p <> pathJoin (pathJoin (sc_uploadsDir sc) tid) filename ->
     (saveUploadedFile sc fs buf filename tid).2 !! p = Some e).
Proof.
  unfold saveUploadedFile. cbn [fst snd].
  set (taskDir := pathJoin (sc_uploadsDir sc) tid).
  set (filePath := pathJoin taskDir filename).
  set (fs1 := match fs !! taskDir with Some _ => fs | None => _ end).
  assert (Hdir : is_Some (fs1 !! taskDir)).
  { subst fs1. destruct (fs !! taskDir) eqn:E; [by rewrite E|].
    rewrite lookup_insert_eq. by eexists. }
  assert (Hmono : forall p, is_Some (fs !! p) -> is_Some (fs1 !! p)).
  { subst fs1. intros p Hp. destruct (fs !! taskDir) eqn:E; [done|].
    rewrite lookup_insert_is_Some. destruct (decide (taskDir = p)); [by left|by right]. }
  assert (Hout : forall p, isUnder taskDir p = false -> fs1 !! p = fs !! p).
  { subst fs1. intros p Hp. destruct (fs !! taskDir) eqn:E; [done|].
    apply lookup_insert_ne. intros <-. by rewrite isUnder_self in Hp. }
  split; [done|]. split; [apply lookup_insert_eq|]. split; [|split; [|split]].
  - rewrite lookup_insert_is_Some. destruct (decide (filePath = taskDir)); [by left|by right].
  - intros p Hp. rewrite lookup_insert_is_Some.
    destruct (decide (filePath = p)); [by left|right; split; [done|by apply Hmono]].
  - intros p Hp. rewrite lookup_insert_ne; [by apply Hout|].
    intros <-. subst filePath. by rewrite isUnder_child in Hp.
  - intros p e Hp Hne. rewrite lookup_insert_ne by done. subst fs1.
    destruct (fs !! taskDir) eqn:E; [done|].
    rewrite lookup_insert_ne; [done|]. intros <-. congruence.
Qed.

Lemma orElse_nonempty a b : b <> [] -> orElse a b <> [].
Proof. by destruct a. Qed.

Lemma enqueueBuild_stores config defaultConfig q fs tid now kind file icon name ident :
  getJob q tid = None -> name <> [] ->
  storedSubmission (storageConfig config defaultConfig) kind tid fs
    (enqueueBuild config defaultConfig q fs tid now kind file icon name ident) /\
  (exists job,
     getJob (enqueueBuild config defaultConfig q fs tid now kind file icon name ident).1.2
       tid = Some job /\
     appName (data job) = name /\ appId (data job) = ident /\
     outputDir (data job) = buildsDir config /\ createdAt (data job) = now /\
     progress job = None /\ returnvalue job = None) /\
  jobs (enqueueBuild config defaultConfig q fs tid now kind file icon name ident).1.2
    = <[tid := {| id := tid;
                  data := {| taskId := tid; type := kind;
                             filePath := pathJoin (pathJoin (sc_uploadsDir defaultConfig) tid)
                                           (up_filename file);
                             appName := name; appId := ident;
                             iconPath :=
                               (fun i => pathJoin (pathJoin (sc_uploadsDir defaultConfig) tid)
                                           (js "icon-" ++ up_filename i)) <$> icon;
                             outputDir := buildsDir config; createdAt := now |};
                  state := Waiting; progress := None; returnvalue := None;
                  failedReason := None |}]> (jobs q) /\
  waitList (enqueueBuild config defaultConfig q fs tid now kind file icon name ident).1.2
    = waitList q ++ [tid] /\
  activeList (enqueueBuild config defaultConfig q fs tid now kind file icon name ident).1.2
    = activeList q.
Proof.
  intros Hnone Hname. unfold enqueueBuild.
  set (sc := storageConfig config defaultConfig).
  pose proof (saveUploadedFile_spec sc fs (up_buffer file) (up_filename file) tid)
    as (Hp1 & Hf1 & Hd1 & Hm1 & Ho1 & Hk1).
  destruct (saveUploadedFile sc fs (up_buffer file) (up_filename file) tid)
    as [filePath fs1] eqn:E1.
  cbn [fst snd] in *. subst filePath.
  destruct icon as [iconFile|].
  - pose proof (saveUploadedFile_spec sc fs1 (up_buffer iconFile)
                  (js "icon-" ++ up_filename iconFile) tid)
      as (Hp2 & Hf2 & Hd2 & Hm2 & Ho2 & Hk2).
    destruct (saveUploadedFile sc fs1 (up_buffer iconFile)
                (js "icon-" ++ up_filename iconFile) tid) as [iconPath fs2] eqn:E2.
    cbn [fst snd] in *. subst iconPath.
    assert (Hfile : exists e,
              fs2 !! pathJoin (pathJoin (sc_uploadsDir sc) tid) (up_filename file) = Some e /\
              isDirectory e = false).
    { destruct (decide (pathJoin (pathJoin (sc_uploadsDir sc) tid) (up_filename file)
                        = pathJoin (pathJoin (sc_uploadsDir sc) tid)
                            (js "icon-" ++ up_filename iconFile))) as [Eq|Ne].
      - rewrite Eq, Hf2. by eexists.
      - rewrite (Hk2 _ _ Hf1 Ne). by eexists. }
    unfold addBuildJob. cbn [taskId]. unfold getJob in Hnone. rewrite Hnone.
    cbn [fst snd jobs waitList activeList fmap option_fmap option_map].
    split; [|split; [|by repeat split]].
    + eexists. split; [unfold getJob; cbn [jobs]; apply lookup_insert_eq|].
      cbn [state data taskId type appName filePath iconPath].
      split; [done|]. split; [done|]. split; [done|]. split; [done|].
      split; [apply isUnder_child|]. split; [exact Hfile|].
      split.
      * intros p [= <-]. split; [apply isUnder_child|eexists; exact Hf2].
      * intros p Hp. etransitivity; [apply Ho2|apply Ho1]; exact Hp.
    + eexists. split; [unfold getJob; cbn [jobs]; apply lookup_insert_eq|]. by cbn.
  - unfold addBuildJob. cbn [taskId]. unfold getJob in Hnone. rewrite Hnone.
    cbn [fst snd jobs waitList activeList fmap option_fmap option_map].
    split; [|split; [|by repeat split]].
    + eexists. split; [unfold getJob; cbn; apply lookup_insert_eq|]. cbn.
      split; [done|]. split; [done|]. split; [done|]. split; [done|].
      split; [apply isUnder_child|]. split; [eexists; split; [exact Hf1|done]|].
      split; [done|]. intros p Hp. apply Ho1. exact Hp.
    + eexists. split; [unfold getJob; cbn; apply lookup_insert_eq|]. by cbn.
Qed.

Lemma zipRoute_cases unicodeLower config defaultConfig q fs tid now parts :
  (exists msg,
     zipRoute unicodeLower config defaultConfig q fs tid now parts
       = (ReplyError 400 (js "Bad Request") msg, q, fs) /\
     ~ exists file, f_file (parseParts unicodeLower parts) = Some file /\
         endsWith (js ".zip") (toLowerCase unicodeLower (up_filename file)) = true) \/
  (exists file name ident,
     f_file (parseParts unicodeLower parts) = Some file /\
     endsWith (js ".zip") (toLowerCase unicodeLower (up_filename file)) = true /\
     name <> [] /\
     zipRoute unicodeLower config defaultConfig q fs tid now parts
       = enqueueBuild config defaultConfig q fs tid now BuildZip file
           (f_icon (parseParts unicodeLower parts)) name (Some ident)).
Proof.
  unfold zipRoute. destruct (f_file (parseParts unicodeLower parts)) as [file|].
  - destruct (endsWith (js ".zip") (toLowerCase unicodeLower (up_filename file))) eqn:E;
      cbn [negb].
    + right. do 3 eexists. split; [done|]. split; [done|]. split; [|reflexivity].
      apply orElse_nonempty, orElse_nonempty. done.
    + left. eexists. split; [reflexivity|]. intros (f & [= <-] & H). congruence.
  - left. eexists. split; [reflexivity|]. by intros (f & ? & _).
Qed.

Lemma htmlRoute_cases unicodeLower config defaultConfig q fs tid now parts :
  (exists msg,
     htmlRoute unicodeLower config defaultConfig q fs tid now parts
       = (ReplyError 400 (js "Bad Request") msg, q, fs) /\
     ~ exists file, f_file (parseParts unicodeLower parts) = Some file /\
         (endsWith (js ".html") (toLowerCase unicodeLower (up_filename file)) = true \/
          endsWith (js ".htm") (toLowerCase unicodeLower (up_filename file)) = true)) \/
  (exists file name,
     f_file (parseParts unicodeLower parts) = Some file /\
     (endsWith (js ".html") (toLowerCase unicodeLower (up_filename file)) = true \/
      endsWith (js ".htm") (toLowerCase unicodeLower (up_filename file)) = true) /\
     name <> [] /\
     htmlRoute unicodeLower config defaultConfig q fs tid now parts
       = enqueueBuild config defaultConfig q fs tid now BuildHtml file
           (f_icon (parseParts unicodeLower parts)) name
           (f_appId (parseParts unicodeLower parts))).
Proof.
  unfold htmlRoute. destruct (f_file (parseParts unicodeLower parts)) as [file|].
  - destruct (endsWith (js ".html") (toLowerCase unicodeLower (up_filename file))) eqn:E1;
      destruct (endsWith (js ".htm") (toLowerCase unicodeLower (up_filename file))) eqn:E2;
      cbn [negb andb].
    4: { left. eexists. split; [reflexivity|].
         intros (f & [= <-] & [H|H]); congruence. }
    all: right; do 2 eexists; (split; [done|]); (split; [tauto|]);
      (split; [|reflexivity]); apply orElse_nonempty, orElse_nonempty; done.
  - left. eexists. split; [reflexivity|]. by intros (f & ? & _).
Qed.


(** X9. What the two build routes do with the parts of a request that
    were read in full. Without a part named file both answer 400 and
    ask for an upload; with a file whose lower-cased name does not end
    in .zip (for the HTML route: neither in .html nor in .htm) they
    answer 400 for the file type; in these cases nothing is stored and
    nothing is queued. A 200 is only sent for a file with the right
    ending. *)
Theorem submission_validation unicodeLower config defaultConfig q fs tid now parts :
  (f_file (parseParts unicodeLower parts) = None ->
   zipRoute unicodeLower config defaultConfig q fs tid now parts
     = (ReplyError 400 (js "Bad Request")
          (js "No file uploaded. Please upload a ZIP file."), q, fs) /\
   htmlRoute unicodeLower config defaultConfig q fs tid now parts
     = (ReplyError 400 (js "Bad Request")
          (js "No file uploaded. Please upload an HTML file."), q, fs)) /\
  (forall file,
     f_file (parseParts unicodeLower parts) = Some file ->
     endsWith (js ".zip") (toLowerCase unicodeLower (up_filename file)) = false ->
     zipRoute unicodeLower config defaultConfig q fs tid now parts
       = (ReplyError 400 (js "Bad Request")
            (js "Invalid file type. Please upload a ZIP file."), q, fs)) /\
  (forall file,
     f_file (parseParts unicodeLower parts) = Some file ->
     endsWith (js ".html") (toLowerCase unicodeLower (up_filename file)) = false ->
     endsWith (js ".htm") (toLowerCase unicodeLower (up_filename file)) = false ->
     htmlRoute unicodeLower config defaultConfig q fs tid now parts
       = (ReplyError 400 (js "Bad Request")
            (js "Invalid file type. Please upload an HTML file (.html or .htm)."),
          q, fs)) /\
  ((exists reply,
      (zipRoute unicodeLower config defaultConfig q fs tid now parts).1.1 = Ok200 reply)
   -> exists file,
        f_file (parseParts unicodeLower parts) = Some file /\
        endsWith (js ".zip") (toLowerCase unicodeLower (up_filename file)) = true) /\
  ((exists reply,
      (htmlRoute unicodeLower config defaultConfig q fs tid now parts).1.1 = Ok200 reply)
   -> exists file,
        f_file (parseParts unicodeLower parts) = Some file /\
        (endsWith (js ".html") (toLowerCase unicodeLower (up_filename file)) = true \/
         endsWith (js ".htm") (toLowerCase unicodeLower (up_filename file)) = true)).
Proof.
  split; [|split; [|split; [|split]]].
  - intros Hf. unfold zipRoute, htmlRoute. by rewrite Hf.
  - intros file Hf He. unfold zipRoute. by rewrite Hf, He.
  - intros file Hf H1 H2. unfold htmlRoute. by rewrite Hf, H1, H2.
  - intros [reply Hr].
    destruct (zipRoute_cases unicodeLower config defaultConfig q fs tid now parts)
      as [(msg & E & _)|(file & name & ident & Hf & He & _ & _)].
    + by rewrite E in Hr.
    + by exists file.
  - intros [reply Hr].
    destruct (htmlRoute_cases unicodeLower config defaultConfig q fs tid now parts)
      as [(msg & E & _)|(file & name & Hf & He & _ & _)].
    + by rewrite E in Hr.
    + by exists file.
Qed.

Lemma submission_validation_witness :
  zipRoute asciiOnly sampleConfig sampleStorage emptyQueue ∅
    (js "V1StGXR8_Z5j") (js "2025-12-05T00:00:00.000Z") htmlUpload
  = (ReplyError 400 (js "Bad Request")
       (js "Invalid file type. Please upload a ZIP file."), emptyQueue, ∅).
Proof.
  apply (proj1 (proj2 (submission_validation asciiOnly sampleConfig sampleStorage
                         emptyQueue ∅ (js "V1StGXR8_Z5j")
                         (js "2025-12-05T00:00:00.000Z") htmlUpload))
           {| up_buffer := [60; 104; 49; 62]; up_filename := js "index.html" |});
    vm_compute; reflexivity.
Defined.

Lemma route_accepts unicodeLower config defaultConfig q fs tid now parts res :
  res = zipRoute unicodeLower config defaultConfig q fs tid now parts \/
  res = htmlRoute unicodeLower config defaultConfig q fs tid now parts ->
  (exists reply, res.1.1 = Ok200 reply) ->
  exists kind file icon name ident,
    name <> [] /\
    res = enqueueBuild config defaultConfig q fs tid now kind file icon name ident.
Proof.
  intros [->| ->] [reply Hr].
  - destruct (zipRoute_cases unicodeLower config defaultConfig q fs tid now parts)
      as [(msg & E & _)|(file & name & ident & _ & _ & Hn & E)].
    + by rewrite E in Hr.
    + exists BuildZip. do 4 eexists. split; [exact Hn|exact E].
  - destruct (htmlRoute_cases unicodeLower config defaultConfig q fs tid now parts)
      as [(msg & E & _)|(file & name & _ & _ & Hn & E)].
    + by rewrite E in Hr.
    + exists BuildHtml. do 4 eexists. split; [exact Hn|exact E].
Qed.




(** X11. After an accepted submission under a fresh identifier, the
    status route answers 200 for it with the status pending, the app
    name as file name, a queue position of at least 1, no progress, no
    error and no download link, and the download route answers 400. *)
Theorem submit_then_status unicodeLower config defaultConfig dateParse q fs tid now
    parts res :
  getJob q tid = None ->
  res = zipRoute unicodeLower config defaultConfig q fs tid now parts \/
  res = htmlRoute unicodeLower config defaultConfig q fs tid now parts ->
  (exists reply, res.1.1 = Ok200 reply) ->
  exists resp job,
    getJob res.1.2 tid = Some job /\
    statusRoute config dateParse res.1.2 res.2 tid = Ok200 resp /\
    resp_status resp = pending /\
    resp_fileName resp = Some (appName (data job)) /\
    appName (data job) <> [] /\
    (exists p, resp_queuePosition resp = Some p /\ (1 <= p)%nat) /\
    resp_progress resp = None /\ resp_error resp = None /\
    resp_downloadUrl resp = None /\
    exists msg,
      downloadRoute res.1.2 res.2 tid = ReplyError 400 (js "Bad Request") msg.
Proof.
  intros Hnone Hres Hok.
  destruct (route_accepts _ _ _ _ _ _ _ _ _ Hres Hok)
    as (kind & file & icon & name & ident & Hn & ->).
  destruct (enqueueBuild_stores config defaultConfig q fs tid now kind file icon name ident
              Hnone Hn) as (_ & _ & Hjobs & _).
  set (res := enqueueBuild _ _ _ _ _ _ _ _ _ _ _) in *.
  assert (Hjob : exists job, getJob res.1.2 tid = Some job /\ state job = Waiting /\
                             appName (data job) = name /\ progress job = None).
  { eexists. split; [unfold getJob; rewrite Hjobs; apply lookup_insert_eq|done]. }
  destruct Hjob as (job & Hjob & Hst & Hname & Hpr).
  eexists _, job. split; [exact Hjob|].
  unfold statusRoute, downloadRoute, getJobStatus. rewrite Hjob, Hst.
  cbn [st_status st_createdAt st_appName st_progress st_result st_error
       st_queuePosition st_queueTotal].
  rewrite !bool_decide_false by done. rewrite bool_decide_true by done.
  split; [reflexivity|]. cbn [resp_status resp_fileName resp_queuePosition resp_progress
                              resp_error resp_downloadUrl mbind option_bind].
  rewrite Hname. destruct name as [|c name]; [done|].
  split; [done|]. split; [done|]. split; [done|].
  split; [destruct (getJobPosition res.1.2 tid); eexists; (split; [reflexivity|lia])|].
  split; [done|]. split; [done|]. split; [done|]. by eexists.
Qed.

Lemma submit_then_status_witness :
  exists resp job,
    getJob (zipRoute asciiOnly sampleConfig sampleStorage emptyQueue ∅
              (js "V1StGXR8_Z5j") (js "2025-12-05T00:00:00.000Z") zipUpload).1.2
      (js "V1StGXR8_Z5j") = Some job /\
    statusRoute sampleConfig noDate
      (zipRoute asciiOnly sampleConfig sampleStorage emptyQueue ∅
         (js "V1StGXR8_Z5j") (js "2025-12-05T00:00:00.000Z") zipUpload).1.2
      (zipRoute asciiOnly sampleConfig sampleStorage emptyQueue ∅
         (js "V1StGXR8_Z5j") (js "2025-12-05T00:00:00.000Z") zipUpload).2
      (js "V1StGXR8_Z5j") = Ok200 resp /\
    resp_status resp = pending /\
    resp_fileName resp = Some (appName (data job)) /\
    appName (data job) <> [] /\
    (exists p, resp_queuePosition resp = Some p /\ (1 <= p)%nat) /\
    resp_progress resp = None /\ resp_error resp = None /\
    resp_downloadUrl resp = None /\
    exists msg,
      downloadRoute
        (zipRoute asciiOnly sampleConfig sampleStorage emptyQueue ∅
           (js "V1StGXR8_Z5j") (js "2025-12-05T00:00:00.000Z") zipUpload).1.2
        (zipRoute asciiOnly sampleConfig sampleStorage emptyQueue ∅
           (js "V1StGXR8_Z5j") (js "2025-12-05T00:00:00.000Z") zipUpload).2
        (js "V1StGXR8_Z5j") = ReplyError 400 (js "Bad Request") msg.
Proof.
  apply (submit_then_status asciiOnly sampleConfig sampleStorage noDate emptyQueue ∅
           (js "V1StGXR8_Z5j") (js "2025-12-05T00:00:00.000Z") zipUpload).
  - reflexivity.
  - by left.
  - eexists. vm_compute. reflexivity.
Defined.


(** ** The progress heartbeat, for every band *)

Local Open Scope Z_scope.

Lemma hbStep_tick hb e :
  hb_baseMessage (hbStep hb e).1 = hb_baseMessage hb /\
  (((hbStep hb e).2 = [] /\ currentPercent (hbStep hb e).1 = currentPercent hb) \/
   (exists time,
      (hbStep hb e).2 =
        [ {| tick_time := time;
             tick_message := (hb_baseMessage hb ++ js " (in progress...)")%list;
             tick_percent := currentPercent hb + increment hb |} ] /\
      currentPercent (hbStep hb e).1 = currentPercent hb + increment hb)).
Proof.
  destruct e as [|time|]; cbn.
  - unfold hbStart. destruct (hb_onProgress hb); cbn; tauto.
  - unfold hbFire. destruct (timer hb); [|cbn; tauto].
    destruct (currentPercent hb <? hb_endPercent hb - increment hb); cbn; [|tauto].
    split; [done|]. right. by exists time.
  - unfold hbStop. destruct (timer hb); cbn; tauto.
Qed.

Lemma hbRun_progression events hb i t :
  (hbRun hb events).2 !! i = Some t ->
  tick_percent t = currentPercent hb + (Z.of_nat i + 1) * increment hb /\
  tick_message t = (hb_baseMessage hb ++ js " (in progress...)")%list.
Proof.
  revert hb i. induction events as [|e events IH]; intros hb i; cbn; [done|].
  destruct (hbStep_fields hb e) as (Hi & _ & _).
  destruct (hbStep_tick hb e) as (Hm & Hs).
  destruct (hbStep hb e) as [hb1 t1]. specialize (IH hb1).
  destruct (hbRun hb1 events) as [hb2 t2]. cbn in *.
  destruct Hs as [[-> Hc]|(time & -> & Hc)].
  - cbn. intros Ht. destruct (IH i Ht) as [Hp Hmsg].
    rewrite Hp, Hmsg, Hc, Hi, Hm. done.
  - destruct i as [|j]; cbn.
    + intros [= <-]. cbn. split; [lia|done].
    + intros Ht. destruct (IH j Ht) as [Hp Hmsg].
      rewrite Hp, Hmsg, Hc, Hi, Hm. split; [lia|done].
Qed.

Lemma hbRun_count events hb :
  1 <= increment hb ->
  (hbRun hb events).2 = [] \/
  currentPercent hb + Z.of_nat (length (hbRun hb events).2) * increment hb
    < hb_endPercent hb.
Proof.
  intros Hinc. destruct ((hbRun hb events).2) as [|t0 ts] eqn:E; [by left|]. right.
  destruct (lookup_lt_is_Some_2 (t0 :: ts) (length ts)) as [t Ht]; [cbn; lia|].
  rewrite <- E in Ht.
  destruct (hbRun_progression _ _ _ _ Ht) as [Hp _].
  assert (Hin : t ∈ (hbRun hb events).2) by (by eapply list_elem_of_lookup_2).
  apply hbRun_in_band in Hin; [|exact Hinc].
  cbn [length]. lia.
Qed.

Lemma hbRun_app a b hb :
  hbRun hb (a ++ b) =
    ((hbRun (hbRun hb a).1 b).1, ((hbRun hb a).2 ++ (hbRun (hbRun hb a).1 b).2)%list).
Proof.
  revert hb. induction a as [|e a IH]; intros hb; cbn.
  - by destruct (hbRun hb b).
  - destruct (hbStep hb e) as [hb1 t1]. rewrite IH.
    destruct (hbRun hb1 a) as [hb2 t2]. cbn.
    destruct (hbRun hb2 b) as [hb3 t3]. cbn. by rewrite app_assoc.
Qed.

Lemma hbRun_no_callback events hb :
  hb_onProgress hb = false -> timer hb = false -> (hbRun hb events).2 = [].
Proof.
  revert hb. induction events as [|e events IH]; intros hb Hcb Ht; cbn; [done|].
  assert (Hs : hbStep hb e = (hb, [])).
  { destruct e as [|time|]; cbn.
    - unfold hbStart. by rewrite Hcb.
    - unfold hbFire. by rewrite Ht.
    - unfold hbStop. by rewrite Ht. }
  rewrite Hs. specialize (IH hb Hcb Ht).
  destruct (hbRun hb events) as [hb2 t2]. exact IH.
Qed.

(** X13. Whatever the band and whatever happens to the heartbeat, its
    reports form an arithmetic progression inside the band: the i-th
    report (counted from 0) carries the percent start + (i+1) *
    increment, where the increment is the tenth of the band's width,
    rounded down, and at least 1; that percent lies strictly between
    the start and the end of the band; and its message is the base
    message followed by the in-progress marker. *)
Theorem heartbeat_progression onProgress baseMessage startPercent endPercent intervalMs
    events i t :
  (hbRun (createProgressHeartbeat onProgress baseMessage startPercent endPercent
            intervalMs) events).2 !! i = Some t ->
  tick_percent t
    = startPercent + (Z.of_nat i + 1) * Z.max 1 ((endPercent - startPercent) / 10) /\
  startPercent < tick_percent t < endPercent /\
  tick_message t = (baseMessage ++ js " (in progress...)")%list.
Proof.
  intros Ht. destruct (hbRun_progression _ _ _ _ Ht) as [Hp Hm].
  split; [exact Hp|]. split; [|exact Hm].
  eapply createProgressHeartbeat_in_band, list_elem_of_lookup_2, Ht.
Qed.

Lemma heartbeat_progression_witness :
  27 = 25 + (Z.of_nat 1 + 1) * Z.max 1 ((38 - 25) / 10) /\
  25 < 27 < 38 /\
  (js "Installing dependencies (in progress...)")
    = (js "Installing dependencies" ++ js " (in progress...)")%list.
Proof.
  exact (heartbeat_progression true (js "Installing dependencies") 25 38 None
           [EvStart; EvInterval 5000; EvInterval 10000] 1%nat
           {| tick_time := 10000;
              tick_message := js "Installing dependencies (in progress...)";
              tick_percent := 27 |} eq_refl).
Defined.

(** X14. The number of reports of a heartbeat is bounded for every band
    and every sequence of events: at most 18 in all, and at most 9 when
    the width of the band is a multiple of ten. The bound of 18 is
    reached by a band of width 19. *)
Theorem heartbeat_report_bound :
  (forall onProgress baseMessage startPercent endPercent intervalMs events,
     (length (hbRun (createProgressHeartbeat onProgress baseMessage startPercent
                       endPercent intervalMs) events).2 <= 18)%nat /\
     ((endPercent - startPercent) `mod` 10 = 0 ->
      (length (hbRun (createProgressHeartbeat onProgress baseMessage startPercent
                        endPercent intervalMs) events).2 <= 9)%nat)) /\
  length (wrapSubcommand (createProgressHeartbeat true (js "Syncing") 0 19 None)
            120000 0) = 18%nat.
Proof.
  split; [|vm_compute; reflexivity].
  intros onProgress baseMessage startPercent endPercent intervalMs events.
  set (hb := createProgressHeartbeat _ _ _ _ _).
  destruct (hbRun_count events hb) as [->|Hc]; [cbn; lia|cbn; lia|].
  cbn [currentPercent increment hb_endPercent hb createProgressHeartbeat] in Hc.
  set (n := length _) in *. set (d := endPercent - startPercent) in *.
  assert (Hd : Z.of_nat n * Z.max 1 (d / 10) < d) by (subst d; lia).
  pose proof (Z.div_mod d 10 ltac:(lia)) as Hdm.
  pose proof (Z.mod_pos_bound d 10 ltac:(lia)) as Hmb.
  split.
  - destruct (Z.max_spec 1 (d / 10)) as [[H1 E]|[H1 E]]; rewrite E in Hd; nia.
  - intros Hz. destruct (Z.max_spec 1 (d / 10)) as [[H1 E]|[H1 E]]; rewrite E in Hd; nia.
Qed.

(** X15. A heartbeat is silent whenever it should be. One that was
    created without a callback never reports, whatever is done with it.
    One that is started once and then stopped, as the finally block
    guarantees, reports nothing at the expiries of the interval that
    come after the stop: the reports of a wrapped subcommand are those
    made while it ran. *)
Theorem heartbeat_silent :
  (forall baseMessage startPercent endPercent intervalMs events,
     (hbRun (createProgressHeartbeat false baseMessage startPercent endPercent
               intervalMs) events).2 = []) /\
  (forall onProgress baseMessage startPercent endPercent intervalMs during after,
     (hbRun (createProgressHeartbeat onProgress baseMessage startPercent endPercent
               intervalMs)
        ([EvStart] ++ map EvInterval during ++ [EvStop] ++ map EvInterval after)).2
     = (hbRun (createProgressHeartbeat onProgress baseMessage startPercent endPercent
                 intervalMs)
          ([EvStart] ++ map EvInterval during)).2) /\
  (forall onProgress baseMessage startPercent endPercent intervalMs durationMs later,
     wrapSubcommand (createProgressHeartbeat onProgress baseMessage startPercent
                       endPercent intervalMs) durationMs later
     = wrapSubcommand (createProgressHeartbeat onProgress baseMessage startPercent
                         endPercent intervalMs) durationMs 0).
Proof.
  assert (Hstop : forall hb events times,
            (hbRun hb (events ++ [EvStop] ++ map EvInterval times)).2
              = (hbRun hb events).2).
  { intros hb events times. rewrite hbRun_app. cbn [snd].
    set (hb1 := (hbRun hb events).1).
    change ([EvStop] ++ map EvInterval times)%list with (EvStop :: map EvInterval times).
    cbn [hbRun hbStep].
    pose proof (hbRun_stopped (hbStop hb1) times (hbStop_clears hb1)) as Hs.
    destruct (hbRun (hbStop hb1) (map EvInterval times)) as [hb2 t2]. cbn in *.
    rewrite Hs. apply app_nil_r. }
  split; [|split].
  - intros. by apply hbRun_no_callback.
  - intros onProgress baseMessage startPercent endPercent intervalMs during after.
    rewrite (app_assoc [EvStart]). apply Hstop.
  - intros onProgress baseMessage startPercent endPercent intervalMs durationMs later.
    unfold wrapSubcommand. set (hb := createProgressHeartbeat _ _ _ _ _).
    set (n := Z.to_nat _). set (run := ([EvStart] ++ intervals (hb_intervalMs hb) n)%list).
    assert (E : forall ks,
              (hbRun hb ([EvStart] ++ intervals (hb_intervalMs hb) n ++ [EvStop]
                           ++ map (fun k => EvInterval (Z.of_nat k * hb_intervalMs hb)) ks)).2
              = (hbRun hb run).2).
    { intros ks. rewrite <- (Hstop hb run (map (fun k => Z.of_nat k * hb_intervalMs hb) ks)).
      subst run. by rewrite map_map, <- app_assoc. }
    by rewrite !E.
Qed.

Local Close Scope Z_scope.
(** ** The file name of a download *)

Lemma startsWith_includes p s : startsWith p s = true -> includes p s = true.
Proof. intros H. destruct s; cbn; by rewrite H. Qed.

Lemma matchTaskIdSuffix_no_separator w :
  includes (js "--") w = false -> matchTaskIdSuffix w = None.
Proof.
  induction w as [|c t IH]; [done|].
  cbn [includes]. intros [_ Ht]%orb_false_iff.
  rewrite matchTaskIdSuffix_cons. destruct (isLineTerminator c); [done|].
  rewrite (IH Ht).
  destruct (startsWith (js "--") t) eqn:E; [|done].
  apply startsWith_includes in E. congruence.
Qed.

Lemma basename_plain dir file :
  file <> [] -> notIn 47 file = true -> basename (dir ++ js "/" ++ file) = file.
Proof.
  intros Hne Hs. destruct (exists_last Hne) as (f & c & ->).
  by apply basename_file.
Qed.

(** X16. The name under which a package is offered. For a package path
    of the form [dir/name--tid.apk] whose task identifier consists of
    letters and digits, the name is [name.apk], for every non-empty name
    without a slash or a line terminator; a file whose name holds no two
    hyphens in a row, such as the [name.apk] of an HTML build, keeps its
    name. *)
Theorem downloadFilename_spec :
  (forall dir name tid,
     name <> [] ->
     forallb (fun c => negb (isLineTerminator c)) name = true ->
     notIn 47 name = true ->
     tid <> [] -> forallb isAlnum tid = true ->
     downloadFilename (dir ++ js "/" ++ name ++ js "--" ++ tid ++ js ".apk")
       = name ++ js ".apk") /\
  (forall dir file,
     file <> [] -> notIn 47 file = true -> includes (js "--") file = false ->
     downloadFilename (dir ++ js "/" ++ file) = file).
Proof.
  split.
  - intros. by apply downloadFilename_strips.
  - intros dir file Hne Hs Hh. unfold downloadFilename.
    rewrite (basename_plain dir file Hne Hs).
    by rewrite (matchTaskIdSuffix_no_separator file Hh).
Qed.

Lemma downloadFilename_spec_witness :
  downloadFilename (js "/builds" ++ js "/" ++ js "MyApp" ++ js "--" ++ js "V1StGXR8aZ5j"
                      ++ js ".apk") = js "MyApp" ++ js ".apk" /\
  downloadFilename (js "/builds" ++ js "/" ++ js "My-App.apk") = js "My-App.apk".
Proof.
  split.
  - by apply (proj1 downloadFilename_spec).
  - by apply (proj2 downloadFilename_spec).
Defined.
(** ** Patches of project files *)

Lemma includes_app_r p a s : includes p s = true -> includes p (a ++ s) = true.
Proof.
  intros H. induction a as [|c a IH]; [exact H|].
  cbn [app includes]. rewrite IH. apply orb_true_r.
Qed.

Lemma startsWith_app_l p s t : startsWith p s = true -> startsWith p (s ++ t) = true.
Proof.
  revert s. induction p as [|a p IH]; intros s; [done|].
  destruct s as [|b s]; cbn; [done|].
  intros [-> H]%andb_true_iff. cbn. by apply IH.
Qed.

Lemma includes_app_l p s t : includes p s = true -> includes p (s ++ t) = true.
Proof.
  induction s as [|c s IH].
  - cbn. rewrite orb_false_r. intros H. destruct p; [|done]. by destruct t.
  - cbn [app includes]. intros [H|H]%orb_true_iff.
    + pose proof (startsWith_app_l _ (c :: s) t H) as H'. cbn [app] in H'.
      by rewrite H'.
    + rewrite (IH H). apply orb_true_r.
Qed.

Lemma includes_middle p a m b : includes p m = true -> includes p (a ++ m ++ b) = true.
Proof. intros H. by apply includes_app_r, includes_app_l. Qed.

(** The replaced occurrence is the first: no occurrence of the pattern
    starts in front of it. *)
Lemma replaceFirst_first pat rep s :
  includes pat s = true ->
  exists a post,
    s = a ++ pat ++ post /\ replaceFirst pat rep s = a ++ rep ++ post /\
    forall i : nat, (i < length a)%nat -> startsWith pat (drop i s) = false.
Proof.
  induction s as [|c s IH]; intros Hi.
  - destruct pat as [|p pat]; [|done].
    exists [], []. split; [done|]. split; [done|].
    intros i Hlt. cbn in Hlt. lia.
  - rewrite replaceFirst_unfold. cbn [includes] in Hi.
    destruct (startsWith pat (c :: s)) eqn:E.
    + exists [], (drop (length pat) (c :: s)).
      split; [by apply startsWith_spec|]. split; [reflexivity|].
      intros i Hlt. cbn in Hlt. lia.
    + cbn [orb] in Hi. destruct (IH Hi) as (a & post & Hs & Hr & Hfirst).
      exists (c :: a), post. split; [by rewrite Hs at 1|].
      split; [by rewrite Hr|].
      intros [|i] Hlt; [exact E|]. cbn [drop]. apply Hfirst. cbn in Hlt. lia.
Qed.

(** X17. The icon patch of [config.xml]. When no icon is configured and
    the file has a closing widget tag, the icon block is put in front of
    the first such tag (no closing widget tag starts earlier in the
    file) and the result configures an icon; in every other case the
    content is returned as it is. The patch is idempotent: a second run
    adds no second block. *)
Theorem patchIconConfig_spec configContent :
  patchIconConfig (patchIconConfig configContent) = patchIconConfig configContent /\
  (includes (js "<icon") configContent = false ->
   includes (js "</widget>") configContent = true ->
   includes (js "<icon") (patchIconConfig configContent) = true /\
   exists before after,
     configContent = before ++ js "</widget>" ++ after /\
     patchIconConfig configContent
       = before ++ (iconXml ++ nl ++ js "</widget>") ++ after /\
     forall i : nat, (i < length before)%nat ->
       startsWith (js "</widget>") (drop i configContent) = false) /\
  (includes (js "<icon") configContent = true \/
   includes (js "</widget>") configContent = false ->
   patchIconConfig configContent = configContent).
Proof.
  assert (Hrep : includes (js "<icon") (iconXml ++ nl ++ js "</widget>") = true)
    by (vm_compute; reflexivity).
  destruct (includes (js "<icon") configContent) eqn:Hi.
  - assert (Hv : patchIconConfig configContent = configContent)
      by (unfold patchIconConfig; by rewrite Hi).
    rewrite !Hv. by repeat split.
  - destruct (includes (js "</widget>") configContent) eqn:Hw.
    + destruct (replaceFirst_first (js "</widget>") (iconXml ++ nl ++ js "</widget>")
                  configContent Hw) as (a & post & Hs & Hr & Hfirst).
      assert (Hv : patchIconConfig configContent
                   = a ++ (iconXml ++ nl ++ js "</widget>") ++ post)
        by (unfold patchIconConfig; by rewrite Hi).
      assert (Hinc : includes (js "<icon") (a ++ (iconXml ++ nl ++ js "</widget>") ++ post)
                     = true) by (by apply includes_middle).
      rewrite !Hv. split; [|split].
      * unfold patchIconConfig. by rewrite Hinc.
      * intros _ _. split; [exact Hinc|]. by exists a, post.
      * intros [?|?]; congruence.
    + destruct (replaceFirst_spec (js "</widget>") (iconXml ++ nl ++ js "</widget>")
                  configContent ltac:(done)) as [[Hn Hr]|(Hy & _)]; [|congruence].
      assert (Hv : patchIconConfig configContent = configContent)
        by (unfold patchIconConfig; by rewrite Hi).
      rewrite !Hv. split; [done|]. split; [|done]. intros _ H. congruence.
Qed.

Lemma patchIconConfig_spec_witness :
  includes (js "<icon") (patchIconConfig (js "<widget></widget><!--</widget>-->")) = true /\
  exists before after,
    js "<widget></widget><!--</widget>-->" = before ++ js "</widget>" ++ after /\
    patchIconConfig (js "<widget></widget><!--</widget>-->")
      = before ++ (iconXml ++ nl ++ js "</widget>") ++ after /\
    forall i : nat, (i < length before)%nat ->
      startsWith (js "</widget>") (drop i (js "<widget></widget><!--</widget>-->")) = false.
Proof.
  apply (proj1 (proj2 (patchIconConfig_spec (js "<widget></widget><!--</widget>-->"))));
    vm_compute; reflexivity.
Defined.


(** ** Project detection *)

Lemma firstExisting_spec fs projectDir names :
  match firstExisting fs projectDir names with
  | Some p =>
      pathExists fs p = true /\ exists name, name ∈ names /\ p = pathJoin projectDir name
  | None => forall name, name ∈ names -> hasFile fs projectDir name = false
  end.
Proof.
  induction names as [|name rest IH]; cbn; [by intros ? ?%elem_of_nil|].
  destruct (pathExists fs (pathJoin projectDir name)) eqn:E.
  - split; [exact E|]. exists name. split; [left|done].
  - destruct (firstExisting fs projectDir rest) as [p|].
    + destruct IH as (Hp & n & Hn & ->). split; [exact Hp|]. exists n. split; [by right|done].
    + intros n [->|Hn]%elem_of_cons; [exact E|by apply IH].
Qed.

(** X19. Project detection. The build directory goes with the detected
    type (dist for Vite and for unknown projects, out for Next.js, build
    for Create React App); detection fails only when neither of the two
    Vite configuration names that it looks for exists and the manifest
    exists but cannot be read; and whenever the type is Vite,
    [findViteConfig] of the project fixer finds a configuration file
    that exists, so the fixer never gives up on a project that the
    builder sends to it. *)
Theorem detectProjectType_spec readJson fs projectDir :
  (forall type buildDir,
     detectProjectType readJson fs projectDir = Some (type, buildDir) ->
     buildDir = match type with
                | vite | unknownType => js "dist"
                | nextjs => js "out"
                | cra => js "build"
                end) /\
  (detectProjectType readJson fs projectDir = None ->
   hasFile fs projectDir (js "vite.config.js") = false /\
   hasFile fs projectDir (js "vite.config.ts") = false /\
   hasFile fs projectDir (js "package.json") = true /\
   readJson (pathJoin projectDir (js "package.json")) = None) /\
  (forall buildDir,
     detectProjectType readJson fs projectDir = Some (vite, buildDir) ->
     exists p, findViteConfig fs projectDir = Some p /\ pathExists fs p = true).
Proof.
  unfold detectProjectType, findViteConfig. cbn [firstExisting]. unfold hasFile.
  destruct (pathExists fs (pathJoin projectDir (js "vite.config.ts"))) eqn:Ets;
    destruct (pathExists fs (pathJoin projectDir (js "vite.config.js"))) eqn:Ejs;
    cbn [orb].
  1-3: split; [by intros t b [= <- <-]|]; (split; [done|]); intros b _;
       eexists; (split; [reflexivity|done]).
  destruct (_ || _ || _).
  { split; [by intros t b [= <- <-]|]. split; [done|]. by intros b [=]. }
  destruct (pathExists fs (pathJoin projectDir (js "package.json"))) eqn:Epk.
  - destruct (readJson _) as [pkg|] eqn:Er.
    + destruct (_ || _).
      * split; [by intros t b [= <- <-]|]. split; [done|]. by intros b [=].
      * split; [by intros t b [= <- <-]|]. split; [done|]. by intros b [=].
    + split; [done|]. split; [done|]. done.
  - split; [by intros t b [= <- <-]|]. split; [done|]. by intros b [=].
Qed.
(** ** The polling loop of the front end *)

Lemma pollLoop_spec attemptsLeft fetch n st :
  (bs_status (pollLoop attemptsLeft fetch n st) = buildCompleted \/
   bs_status (pollLoop attemptsLeft fetch n st) = buildError) /\
  (bs_status (pollLoop attemptsLeft fetch n st) = buildCompleted ->
   bs_progress (pollLoop attemptsLeft fetch n st) = 100%Z) /\
  (bs_status (pollLoop attemptsLeft fetch n st) = buildCompleted <->
   exists j, (j < attemptsLeft)%nat /\
             reportsCompleted (fetch (n + j)%nat) = true /\
             forall m, (m < j)%nat -> endsPolling (fetch (n + m)%nat) = false).
Proof.
  revert n st. induction attemptsLeft as [|k IH]; intros n st.
  - cbn. split; [by right|]. split; [done|]. split; [done|]. intros (j & ? & _). lia.
  - assert (Hnext : forall st',
              pollLoop (S k) fetch n st = pollLoop k fetch (S n) st' ->
              reportsCompleted (fetch n) = false -> endsPolling (fetch n) = false ->
              (bs_status (pollLoop (S k) fetch n st) = buildCompleted \/
               bs_status (pollLoop (S k) fetch n st) = buildError) /\
              (bs_status (pollLoop (S k) fetch n st) = buildCompleted ->
               bs_progress (pollLoop (S k) fetch n st) = 100%Z) /\
              (bs_status (pollLoop (S k) fetch n st) = buildCompleted <->
               exists j, (j < S k)%nat /\
                         reportsCompleted (fetch (n + j)%nat) = true /\
                         forall m, (m < j)%nat -> endsPolling (fetch (n + m)%nat) = false)).
    { intros st' -> Hrc Hep. destruct (IH (S n) st') as (H1 & H2 & H3).
      split; [exact H1|]. split; [exact H2|]. rewrite H3. split.
      - intros (j & Hj & Hc & Hm). exists (S j). split; [lia|].
        rewrite Nat.add_succ_r. split; [exact Hc|].
        intros [|m] Hlt; [by rewrite Nat.add_0_r|].
        rewrite Nat.add_succ_r. apply Hm. lia.
      - intros ([|j] & Hj & Hc & Hm).
        + rewrite Nat.add_0_r in Hc. congruence.
        + exists j. split; [lia|]. rewrite Nat.add_succ_r in Hc. split; [exact Hc|].
          intros m Hlt. specialize (Hm (S m) ltac:(lia)).
          by rewrite Nat.add_succ_r in Hm. }
    assert (Hstop : bs_status (pollLoop (S k) fetch n st) = buildError ->
              endsPolling (fetch n) = true -> reportsCompleted (fetch n) = false ->
              (bs_status (pollLoop (S k) fetch n st) = buildCompleted \/
               bs_status (pollLoop (S k) fetch n st) = buildError) /\
              (bs_status (pollLoop (S k) fetch n st) = buildCompleted ->
               bs_progress (pollLoop (S k) fetch n st) = 100%Z) /\
              (bs_status (pollLoop (S k) fetch n st) = buildCompleted <->
               exists j, (j < S k)%nat /\
                         reportsCompleted (fetch (n + j)%nat) = true /\
                         forall m, (m < j)%nat -> endsPolling (fetch (n + m)%nat) = false)).
    { intros He Hep Hrc. rewrite He. split; [by right|]. split; [done|].
      split; [done|]. intros ([|j] & Hj & Hc & Hm).
      - rewrite Nat.add_0_r in Hc. congruence.
      - specialize (Hm 0%nat ltac:(lia)). rewrite Nat.add_0_r in Hm. congruence. }
    destruct (fetch n) as [|status|data] eqn:Hf.
    + apply (Hnext st); [cbn; by rewrite Hf|done|done].
    + destruct (Nat.eqb_spec status 404) as [->|Hne].
      * apply Hstop; [cbn; by rewrite Hf|done|done].
      * apply (Hnext st); [cbn; rewrite Hf|done|cbn; by apply Nat.eqb_neq].
        by rewrite (proj2 (Nat.eqb_neq status 404) Hne).
    + destruct (resp_status data) eqn:Hs.
      1,2,5: apply (Hnext (pollUpdate st data));
        [cbn; by rewrite Hf, Hs|cbn; by rewrite Hs, bool_decide_false|cbn; by rewrite Hs].
      * assert (He : pollLoop (S k) fetch n st = pollUpdate st data)
          by (cbn; by rewrite Hf, Hs).
        rewrite He. unfold pollUpdate. rewrite Hs. cbn.
        split; [by left|]. split; [done|]. split; [|done]. intros _.
        exists 0%nat. split; [lia|]. rewrite Nat.add_0_r, Hf. cbn.
        split; [by rewrite Hs, bool_decide_true|]. intros m Hm. lia.
      * apply Hstop; [cbn; rewrite Hf, Hs; unfold pollUpdate; by rewrite Hs
                     |cbn; by rewrite Hs|cbn; by rewrite Hs, bool_decide_false].
Qed.

Lemma pollLoop_ext attemptsLeft fetch fetch' n st :
  (forall j, (j < attemptsLeft)%nat -> fetch' (n + j)%nat = fetch (n + j)%nat) ->
  pollLoop attemptsLeft fetch' n st = pollLoop attemptsLeft fetch n st.
Proof.
  revert n st. induction attemptsLeft as [|k IH]; intros n st Hf; [done|].
  cbn. pose proof (Hf 0%nat ltac:(lia)) as H0. rewrite Nat.add_0_r in H0. rewrite H0.
  assert (Hn : forall st', pollLoop k fetch' (S n) st' = pollLoop k fetch (S n) st').
  { intros st'. apply IH. intros j Hj. specialize (Hf (S j) ltac:(lia)).
    by rewrite !Nat.add_succ_r in Hf. }
  destruct (fetch n) as [|status|data]; [apply Hn|by rewrite Hn|].
  destruct (resp_status data); by rewrite ?Hn.
Qed.

(** X20. The polling loop of the front end always ends, after 200
    requests at most, in the state completed or in the state error;
    what the status route would answer later has no influence. It ends
    completed, at 100 percent, exactly when one of the first 200 answers
    is a 200 with the status completed and no earlier answer was a 404
    or a 200 with the status completed or failed; network errors and
    other error replies in between are retried. *)
Theorem pollBuildStatus_outcome fetch st :
  (bs_status (pollBuildStatus fetch st) = buildCompleted \/
   bs_status (pollBuildStatus fetch st) = buildError) /\
  (bs_status (pollBuildStatus fetch st) = buildCompleted ->
   bs_progress (pollBuildStatus fetch st) = 100%Z) /\
  (bs_status (pollBuildStatus fetch st) = buildCompleted <->
   exists j, (j < 200)%nat /\
             reportsCompleted (fetch j) = true /\
             forall m, (m < j)%nat -> endsPolling (fetch m) = false) /\
  (forall fetch',
     (forall j, (j < 200)%nat -> fetch' j = fetch j) ->
     pollBuildStatus fetch' st = pollBuildStatus fetch st).
Proof.
  unfold pollBuildStatus.
  destruct (pollLoop_spec maxAttempts fetch 0 st) as (H1 & H2 & H3).
  split; [exact H1|]. split; [exact H2|]. split; [exact H3|].
  intros fetch' Hf. apply pollLoop_ext. exact Hf.
Qed.
(** ** The sweep of the builds directory *)

Local Open Scope Z_scope.


(** An entry that is not older than the retention time survives the
    sweep, whatever the listing. *)
Lemma cleanupOldBuilds_keeps_fresh (hours now : Z) (listing : list jsstring)
    (dir : gmap jsstring DirEntry) (name : jsstring) (stats : DirEntry) :
  dir !! name = Some stats ->
  expired hours now stats = false ->
  (cleanupOldBuilds hours now listing dir).1 !! name = Some stats.
Proof.
  intros Hn Hf. unfold cleanupOldBuilds.
  match goal with |- context [fold_left ?f _ _] => set (step := f) end.
  generalize (@nil jsstring) as cleaned.
  revert dir Hn. induction listing as [|x rest IH]; intros dir Hn cleaned; [exact Hn|].
  assert (Hstep : step (dir, cleaned) x =
            match dir !! x with
            | Some sx =>
                if hours * 60 * 60 * 1000 <? now - mtimeMs sx
                then (delete x dir, (cleaned ++ [x])%list)
                else (dir, cleaned)
            | None => (dir, cleaned)
            end) by reflexivity.
  cbn [fold_left]. rewrite Hstep.
  destruct (dir !! x) as [sx|] eqn:Ex; [|by apply IH].
  destruct (hours * 60 * 60 * 1000 <? now - mtimeMs sx) eqn:Eold; [|by apply IH].
  apply IH. rewrite lookup_delete_ne; [exact Hn|].
  intros <-. unfold expired in Hf. congruence.
Qed.

(** X22. The sweep respects the expiry time that the status route
    shows. For a job whose creation time can be read, the status route
    reports the creation time plus the retention hours as the expiry
    time; an entry of the builds directory that was written no earlier
    than the job was created is not removed by a sweep that runs, with
    the same retention hours, at or before that expiry time. *)
Theorem package_kept_until_expiry config dateParse q fs tid job createdTime now listing
    dir name stats :
  getJob q tid = Some job ->
  createdAt (data job) <> [] ->
  dateParse (createdAt (data job)) = Some createdTime ->
  dir !! name = Some stats ->
  createdTime <= mtimeMs stats ->
  exists resp expires,
    statusRoute config dateParse q fs tid = Ok200 resp /\
    resp_expiresAt resp = Some expires /\
    expires = createdTime + fileRetentionHours config * 60 * 60 * 1000 /\
    (now <= expires ->
     (cleanupOldBuilds (fileRetentionHours config) now listing dir).1 !! name
       = Some stats).
Proof.
  intros Hjob Hc Hd Hn Hm.
  assert (Hcr : st_createdAt (getJobStatus q tid) = Some (createdAt (data job)))
    by (unfold getJobStatus; rewrite Hjob; by destruct (state job)).
  assert (Hnf : st_status (getJobStatus q tid) <> not_found)
    by (unfold getJobStatus; rewrite Hjob; by destruct (state job)).
  unfold statusRoute. rewrite Hcr. rewrite bool_decide_false by exact Hnf.
  destruct (createdAt (data job)) as [|c0 cs] eqn:Ec; [done|]. cbn [truthy].
  rewrite Hd. do 2 eexists. split; [reflexivity|]. cbn [resp_expiresAt].
  split; [reflexivity|]. split; [reflexivity|].
  intros Hnow. apply cleanupOldBuilds_keeps_fresh; [exact Hn|].
  unfold expired. apply Z.ltb_ge. lia.
Qed.

Lemma package_kept_until_expiry_witness :
  exists resp expires,
    statusRoute sampleConfig (fun _ => Some 1764892800000) completedQueue sampleFiles
      (js "V1StGXR8_Z5j") = Ok200 resp /\
    resp_expiresAt resp = Some expires /\
    expires = 1764892800000 + fileRetentionHours sampleConfig * 60 * 60 * 1000 /\
    (1764899000000 <= expires ->
     (cleanupOldBuilds (fileRetentionHours sampleConfig) 1764899000000
        [js "MyApp--V1StGXR8_Z5j.apk"]
        {[ js "MyApp--V1StGXR8_Z5j.apk" :=
             {| de_isDirectory := false; mtimeMs := 1764892893000 |} ]}).1
       !! js "MyApp--V1StGXR8_Z5j.apk"
       = Some {| de_isDirectory := false; mtimeMs := 1764892893000 |}).
Proof.
  assert (Hj : exists job, getJob completedQueue (js "V1StGXR8_Z5j") = Some job /\
                           createdAt (data job) = js "2025-12-05T00:00:00.000Z").
  { eexists. split; [vm_compute; reflexivity|reflexivity]. }
  destruct Hj as (job & Hjob & Hc).
  apply (package_kept_until_expiry sampleConfig (fun _ => Some 1764892800000)
           completedQueue sampleFiles (js "V1StGXR8_Z5j") job).
  - exact Hjob.
  - by rewrite Hc.
  - reflexivity.
  - apply lookup_singleton_eq.
  - cbn. lia.
Defined.

Local Close Scope Z_scope.
(** ** Work directories and the clean-up of a task *)

Lemma startsWith_sep_eq a b x y :
  notIn 47 a = true -> notIn 47 b = true ->
  startsWith (a ++ 47 :: x) (b ++ 47 :: y) = true -> a = b.
Proof.
  revert b. induction a as [|c a IH]; intros [|d b] Ha Hb; cbn [app startsWith].
  - done.
  - apply notIn_cons_false in Hb. rewrite N.eqb_sym, Hb. done.
  - apply notIn_cons_false in Ha. by rewrite Ha.
  - intros [->%N.eqb_eq H]%andb_true_iff. f_equal.
    apply andb_true_iff in Ha as [_ Ha]. apply andb_true_iff in Hb as [_ Hb].
    by apply IH.
Qed.

Lemma startsWith_sep_in a x y :
  startsWith (a ++ 47 :: x) y = true -> notIn 47 y = false.
Proof.
  revert y. induction a as [|c a IH]; intros [|d y]; cbn [app startsWith]; try done.
  - intros [E%N.eqb_eq _]%andb_true_iff. subst d. reflexivity.
  - intros [_ H]%andb_true_iff. unfold notIn in *. cbn [forallb].
    rewrite (IH y H). apply andb_false_r.
Qed.

Lemma notIn_app x a b : notIn x (a ++ b) = notIn x a && notIn x b.
Proof. unfold notIn. apply forallb_app. Qed.

(** Two different names without a slash have disjoint trees below the
    same directory. *)
Lemma isUnder_sibling b x y p :
  notIn 47 x = true -> notIn 47 y = true -> x <> y ->
  isUnder (pathJoin b y) p = true -> isUnder (pathJoin b x) p = false.
Proof.
  intros Hx Hy Hne. unfold isUnder, pathJoin.
  change (js "/") with [47]. 
  intros [Hp|Hp]%orb_true_iff.
  - apply bool_decide_eq_true in Hp as ->. apply orb_false_iff. split.
    + apply bool_decide_eq_false. intros E. apply app_inv_head in E.
      injection E as E. congruence.
    + rewrite <- !app_assoc, startsWith_app_same. cbn [app startsWith].
      rewrite N.eqb_refl. cbn [andb].
      destruct (startsWith (x ++ [47]) y) eqn:E; [|done].
      change (x ++ [47]) with (x ++ 47 :: []) in E.
      apply startsWith_sep_in in E. congruence.
  - rewrite <- !app_assoc in Hp. apply startsWith_spec in Hp.
    set (r := drop _ p) in Hp. rewrite <- !app_assoc in Hp. cbn [app] in Hp.
    rewrite Hp. apply orb_false_iff. split.
    + apply bool_decide_eq_false. intros E. apply app_inv_head in E.
      injection E as E. rewrite <- E in Hx. rewrite notIn_app in Hx.
      apply andb_true_iff in Hx as [_ Hx]. done.
    + rewrite <- !app_assoc, startsWith_app_same. cbn [app startsWith].
      rewrite N.eqb_refl. cbn [andb].
      destruct (startsWith (x ++ [47]) (y ++ 47 :: r)) eqn:E; [|done].
      change (x ++ [47]) with (x ++ 47 :: []) in E.
      apply startsWith_sep_eq in E; [congruence|done..].
Qed.

Lemma dirNameChar_no_slash s :
  Forall (fun c => isDirNameChar c = true) s -> notIn 47 s = true.
Proof.
  intros H. unfold notIn. apply forallb_Forall_true.
  eapply Forall_impl; [exact H|]. intros c Hc. apply negb_true_iff, N.eqb_neq.
  intros ->. done.
Qed.

Lemma noRuns_app_clean cls prev s t :
  noRuns cls prev s = true -> Forall (fun c => cls c = false) t ->
  noRuns cls prev (s ++ t) = true.
Proof.
  intros Hs Ht. revert prev Hs. induction s as [|c s IH]; intros prev; cbn [app noRuns].
  - intros _. clear -Ht. revert prev.
    induction Ht as [|c t Hc Ht IH]; intros prev; [done|]. cbn. rewrite Hc. apply IH.
  - destruct (cls c); [intros [-> H]%andb_true_iff; cbn; by apply IH|apply IH].
Qed.

Lemma build_suffix_safe s :
  isSafeDirName s = true -> isSafeDirName (s ++ js "-build") = true.
Proof.
  intros (Hne & Hc & Hr & He)%isSafeDirName_spec. apply isSafeDirName_spec.
  split; [by destruct s|]. split; [|split].
  - apply Forall_app. split; [exact Hc|by repeat constructor].
  - apply noRuns_app_clean; [exact Hr|by repeat constructor].
  - unfold endsOutside. change (js "-build") with (js "-buil" ++ [100]).
    by rewrite app_assoc, last_snoc_N.
Qed.

Lemma reactWorkDir_name_differs appName :
  sanitizeDirName appName ++ js "-build" <> appName.
Proof.
  intros E. pose proof (build_suffix_safe _ (sanitizeDirName_safe appName)) as Hs.
  rewrite E in Hs. apply sanitizeDirName_fixed in Hs. rewrite Hs in E.
  apply (f_equal length) in E. rewrite length_app in E. cbn in E. lia.
Qed.

(** X23. What the clean-up of a task does to the builders' work
    directories, for an app name that is a plain path segment and stays
    one when sanitised. The work directory of
    an HTML build is removed when the app name is a safe directory name
    already; when the name had to be sanitised (a space, a character
    outside ASCII), the work directory and everything below it stay,
    because the clean-up removes the path of the unsanitised name. The
    work directory of a React build, whose name ends in -build, and
    everything below it always stay. *)
Theorem cleanupTask_work_directories finalConfig fs tid appName :
  plainName appName = true ->
  plainName (sanitizeDirName appName) = true ->
  (isSafeDirName appName = true ->
   cleanupTask finalConfig fs tid appName
     !! htmlWorkDir (sc_buildsDir finalConfig) appName = None) /\
  (isSafeDirName appName = false ->
   forall p,
     isUnder (htmlWorkDir (sc_buildsDir finalConfig) appName) p = true ->
     isUnder (pathJoin (sc_uploadsDir finalConfig) tid) p = false ->
     cleanupTask finalConfig fs tid appName !! p = fs !! p) /\
  (forall p,
     isUnder (reactWorkDir (sc_buildsDir finalConfig) appName) p = true ->
     isUnder (pathJoin (sc_uploadsDir finalConfig) tid) p = false ->
     cleanupTask finalConfig fs tid appName !! p = fs !! p).
Proof.
  intros Hplain _.
  assert (Hslash : notIn 47 appName = true).
  { unfold plainName in Hplain. rewrite !andb_true_iff in Hplain. tauto. }
  pose proof (sanitizeDirName_safe appName) as Hsafe.
  pose proof Hsafe as (_ & Hc & _ & _)%isSafeDirName_spec.
  pose proof (dirNameChar_no_slash _ Hc) as Hns.
  split; [|split].
  - intros Hs. unfold htmlWorkDir. rewrite (sanitizeDirName_fixed _ Hs).
    unfold cleanupTask.
    set (fs1 := if pathExists fs _ then _ else fs).
    destruct (pathExists fs1 (pathJoin (sc_buildsDir finalConfig) appName)) eqn:E.
    + unfold fsRemove. apply map_lookup_filter_None. right. intros x _. cbn.
      by rewrite isUnder_self.
    + unfold pathExists in E. apply bool_decide_eq_false in E.
      by apply eq_None_not_Some.
  - intros Hs p Hp Hu. apply cleanupTask_keeps; [exact Hu|].
    apply (isUnder_sibling _ _ (sanitizeDirName appName)); [done|done| |exact Hp].
    intros E. rewrite E in Hs. congruence.
  - intros p Hp Hu. apply cleanupTask_keeps; [exact Hu|].
    apply (isUnder_sibling _ _ (sanitizeDirName appName ++ js "-build"));
      [done| | |exact Hp].
    + rewrite notIn_app. by rewrite Hns.
    + intros E. by apply (reactWorkDir_name_differs appName).
Qed.

Lemma cleanupTask_work_directories_witness :
  cleanupTask sampleStorage
    (<[ js "./builds/My_App" := {| isDirectory := true; size := 0 |} ]> ∅)
    (js "V1StGXR8_Z5j") (js "My App") !! js "./builds/My_App"
  = Some {| isDirectory := true; size := 0 |}.
Proof.
  refine (eq_trans
            (proj1 (proj2 (cleanupTask_work_directories sampleStorage
                             (<[ js "./builds/My_App" :=
                                   {| isDirectory := true; size := 0 |} ]> ∅)
                             (js "V1StGXR8_Z5j") (js "My App") eq_refl eq_refl))
               eq_refl (js "./builds/My_App") eq_refl eq_refl) _).
  apply lookup_insert_eq.
Defined.
(** ** The shape of a status response *)

(** X24. Which fields of a 200 of the status route go together. The
    queue position and the queue total are present exactly for the
    status pending, which carries no progress, result or error; the
    download link and the package size are present together, and only
    with the status completed and a successful result, and then there
    is no error; the statuses failed and active never carry a download
    link, and active carries no result and no error. *)
Theorem status_response_shape config dateParse q fs tid resp :
  statusRoute config dateParse q fs tid = Ok200 resp ->
  resp_taskId resp = tid /\
  resp_retentionHours resp = fileRetentionHours config /\
  (resp_status resp = pending <-> is_Some (resp_queuePosition resp)) /\
  (is_Some (resp_queuePosition resp) <-> is_Some (resp_queueTotal resp)) /\
  (resp_status resp = pending ->
   resp_progress resp = None /\ resp_result resp = None /\ resp_error resp = None) /\
  (is_Some (resp_downloadUrl resp) <-> is_Some (resp_apkSize resp)) /\
  (is_Some (resp_downloadUrl resp) ->
   resp_status resp = completed /\ resp_error resp = None /\
   exists d, resp_result resp = Some (true, d)) /\
  (resp_status resp = failed -> resp_downloadUrl resp = None) /\
  (resp_status resp = active ->
   resp_downloadUrl resp = None /\ resp_result resp = None /\ resp_error resp = None).
Proof.
  unfold statusRoute, getJobStatus.
  destruct (getJob q tid) as [job|]; [|by cbn].
  destruct (state job); cbn.
  1: destruct (returnvalue job) as [[[] [[|c p]|] e d]|]; cbn.
  all: intros [= <-]; cbn.
  all: repeat split; try done; try (by intros [? [=]]); try (by eexists);
    try (by intros [=]); try (intros _; by eexists).
Qed.

Lemma status_response_shape_witness :
  exists resp,
    statusRoute sampleConfig noDate completedQueue sampleFiles (js "V1StGXR8_Z5j")
      = Ok200 resp /\
    resp_taskId resp = js "V1StGXR8_Z5j" /\
    (is_Some (resp_downloadUrl resp) <-> is_Some (resp_apkSize resp)).
Proof.
  assert (H : exists resp,
            statusRoute sampleConfig noDate completedQueue sampleFiles (js "V1StGXR8_Z5j")
              = Ok200 resp) by (eexists; vm_compute; reflexivity).
  destruct H as [resp Hr]. exists resp. split; [exact Hr|].
  pose proof (status_response_shape sampleConfig noDate completedQueue sampleFiles
                (js "V1StGXR8_Z5j") resp Hr) as H.
  split; [apply H|apply H].
Defined.
(** ** The shell patch and the CDN signatures *)

Lemma startsWithCI_upper p s : startsWithCI p s = startsWith (upper p) (upper s).
Proof.
  revert s. induction p as [|a p IH]; intros [|b s]; cbn; try done.
  by rewrite IH.
Qed.

Lemma includesCI_upper p s : includesCI p s = includes (upper p) (upper s).
Proof.
  induction s as [|c s IH].
  - cbn. by rewrite startsWithCI_upper.
  - cbn [includesCI]. rewrite IH, startsWithCI_upper. reflexivity.
Qed.

(** A needle without [x] occurs on one side of an [x] or on the
    other. *)
Lemma countOcc_split n a x b :
  n <> [] -> notIn x n = true ->
  countOcc n (a ++ x :: b) = (countOcc n a + countOcc n b)%nat.
Proof.
  intros Hn Hx. induction a as [|c a IH].
  - cbn [app]. rewrite countOcc_cons, (countOcc_nil n Hn).
    destruct n as [|g n]; [done|]. cbn [startsWith].
    by rewrite (notIn_cons_false _ _ _ Hx).
  - cbn [app]. rewrite (countOcc_cons n c (a ++ x :: b)), (countOcc_cons n c a), IH.
    change (c :: a ++ x :: b) with ((c :: a) ++ x :: b).
    rewrite (startsWith_stop n (c :: a) x b Hx). lia.
Qed.

Lemma countOcc_skip n x b :
  n <> [] -> notIn x n = true -> countOcc n (x :: b) = countOcc n b.
Proof.
  intros Hn Hx. pose proof (countOcc_split n [] x b Hn Hx) as E.
  cbn [app] in E. by rewrite E, (countOcc_nil n Hn).
Qed.

Lemma sepFree_spec n :
  sepFree n = true ->
  n <> [] /\ notIn 60 n = true /\ notIn 62 n = true /\ notIn 32 n = true.
Proof.
  unfold sepFree. rewrite !andb_true_iff, negb_true_iff, bool_decide_eq_false. tauto.
Qed.

Lemma upper_app a b : upper (a ++ b) = upper a ++ upper b.
Proof. apply map_app. Qed.

Lemma countOcc_upper_replaceHead n ins s :
  sepFree n = true ->
  countOcc n (upper (replaceHead (ins ++ [62]) s)) =
    (countOcc n (upper s)
     + (if hasHeadTag s then countOcc n (upper (ins ++ [62%N])) else 0))%nat.
Proof.
  intros (Hn & H60 & H62 & H32)%sepFree_spec.
  destruct (replaceHead_spec (ins ++ [62]) s)
    as [[-> ->]|[-> (pre & c1 & c2 & c3 & c4 & cap & post & -> & H1 & H2 & H3 & H4 & ->)]];
    [lia|].
  assert (Hhead : upper [c1; c2; c3; c4] = upper [104; 101; 97; 100]).
  { apply eqCI_spec in H1, H2, H3, H4. cbn. by rewrite <- H1, <- H2, <- H3, <- H4. }
  set (A := upper pre ++ 60 :: upper [104; 101; 97; 100] ++ upper cap).
  assert (E1 : upper (pre ++ 60 :: c1 :: c2 :: c3 :: c4 :: cap ++ 62 :: post)
               = A ++ 62 :: upper post).
  { change (60 :: c1 :: c2 :: c3 :: c4 :: cap ++ 62 :: post)
      with ([60] ++ [c1; c2; c3; c4] ++ cap ++ [62] ++ post).
    rewrite !upper_app, Hhead. subst A. by rewrite <- !app_assoc. }
  assert (E2 : upper (pre ++ 60 :: 104 :: 101 :: 97 :: 100 :: cap ++ 62 :: (ins ++ [62]) ++ post)
               = A ++ 62 :: upper ins ++ 62 :: upper post).
  { change (60 :: 104 :: 101 :: 97 :: 100 :: cap ++ 62 :: (ins ++ [62]) ++ post)
      with ([60] ++ [104; 101; 97; 100] ++ cap ++ [62] ++ (ins ++ [62]) ++ post).
    rewrite !upper_app. subst A. by rewrite <- !app_assoc. }
  rewrite E1, E2, upper_app.
  change (upper [62]) with [62].
  rewrite (countOcc_split n A 62 (upper post)) by done.
  rewrite (countOcc_split n A 62 (upper ins ++ 62 :: upper post)) by done.
  rewrite (countOcc_split n (upper ins) 62 (upper post)) by done.
  rewrite (countOcc_split n (upper ins) 62 []) by done.
  rewrite (countOcc_nil n Hn). lia.
Qed.

Lemma countOcc_upper_addCordovaJs n s :
  sepFree n = true ->
  countOcc n (upper (addCordovaJs s)) =
    (countOcc n (upper s)
     + (if includes cordovaMarker s then 0
        else if includes bodyClose s then countOcc n (upper cordovaScript) else 0))%nat.
Proof.
  intros (Hn & H60 & H62 & H32)%sepFree_spec.
  destruct (addCordovaJs_spec s) as [[-> [-> | ->]]|(-> & -> & a & post & -> & ->)].
  - lia.
  - destruct (includes cordovaMarker s); lia.
  - rewrite !upper_app.
    change (upper bodyClose) with (60 :: upper (js "/body>")).
    change (upper cordovaScript) with (32 :: tail (upper cordovaScript)).
    cbn [app].
    rewrite (countOcc_split n (upper a) 60 _) by done.
    rewrite (countOcc_split n (upper a) 32 _) by done.
    rewrite (countOcc_split n (tail (upper cordovaScript)) 60 _) by done.
    rewrite (countOcc_skip n 32 (tail (upper cordovaScript))) by done.
    lia.
Qed.

Lemma countOcc_upper_prepare n h :
  sepFree n = true ->
  countOcc n (upper viewportMeta) = 0%nat ->
  countOcc n (upper cspMeta) = 0%nat ->
  countOcc n (upper cordovaScript) = 0%nat ->
  countOcc n (upper (prepareHtmlForCordova h)) = countOcc n (upper h).
Proof.
  intros Hn Hv Hc Hs. unfold prepareHtmlForCordova.
  rewrite (countOcc_upper_addCordovaJs n _ Hn), Hs.
  assert (E2 : countOcc n (upper (addCsp (addViewport h)))
               = countOcc n (upper (addViewport h))).
  { unfold addCsp. destruct (includes _ (addViewport h)); [done|].
    pose proof (countOcc_upper_replaceHead n (removelast cspMeta) (addViewport h) Hn) as E.
    change (removelast cspMeta ++ [62]) with cspMeta in E. rewrite E, Hc.
    destruct (hasHeadTag _); lia. }
  assert (E1 : countOcc n (upper (addViewport h)) = countOcc n (upper h)).
  { unfold addViewport. destruct (includes _ h); [done|].
    pose proof (countOcc_upper_replaceHead n (removelast viewportMeta) h Hn) as E.
    change (removelast viewportMeta ++ [62]) with viewportMeta in E. rewrite E, Hv.
    destruct (hasHeadTag _); lia. }
  rewrite E2, E1. destruct (includes cordovaMarker _); [lia|].
  destruct (includes bodyClose _); lia.
Qed.

(** X25. The shell patch neither creates nor hides a CDN signature:
    each of the seven strings that [needsOfflineify] looks for occurs in
    [prepareHtmlForCordova h], whatever the case of its letters, exactly
    when it occurs in [h]; so [needsOfflineify] gives the same answer
    before and after the patch, for every HTML string. *)
Theorem prepareHtml_keeps_signatures h :
  (forall p, p ∈ offlineSignatures ->
     includesCI p (prepareHtmlForCordova h) = includesCI p h) /\
  needsOfflineify (prepareHtmlForCordova h) = needsOfflineify h.
Proof.
  assert (Hall : forall p, p ∈ offlineSignatures ->
            includesCI p (prepareHtmlForCordova h) = includesCI p h).
  { intros p Hp. rewrite !includesCI_upper, !includes_countOcc.
    rewrite (countOcc_upper_prepare (upper p)); [done|..];
      unfold offlineSignatures, CDN_PATTERNS, BABEL_SCRIPT_PATTERN in Hp; cbn [app] in Hp;
      repeat (apply elem_of_cons in Hp as [->|Hp]; [vm_compute; reflexivity|]);
      by apply elem_of_nil in Hp. }
  split; [exact Hall|].
  unfold needsOfflineify, CDN_PATTERNS, BABEL_SCRIPT_PATTERN. cbn [anyPatternMatches].
  rewrite !Hall; [reflexivity|..];
    unfold offlineSignatures, CDN_PATTERNS, BABEL_SCRIPT_PATTERN; set_solver.
Qed.
